(** * SteamGamesDownloader: download queue, transfer registry and compressor

    A shallow embedding of the server side of the repository
    ([server/storage.ts], [server/routes.ts], [server/steamcmd.ts],
    [server/compressor.ts], [shared/schema.ts]) and the properties of the
    queue scheduler, the transfer runner and the compression runner.

    Conventions.
    - A JavaScript [Map] that is scanned in insertion order
      ([downloadsList]) is an association list; [Map.set] on an existing
      key keeps the key's place, on a new key appends.
    - A [Map] that is only looked up by key ([activeDownloads] of
      steamcmd.ts, [activeCompressionJobs] of compressor.ts) is a [gmap].
    - [new Date()] is an explicit argument [now]; dates are [Z] timestamps.
    - Every [await] of the modelled handlers is on a promise that MemStorage
      has already resolved, so a handler together with the admission pass
      it triggers runs to its end before the next request or process event
      is looked at: handlers are functions from state to state. *)

From Stdlib Require Import ZArith Lia Sorted Permutation.
From stdpp Require Import base option list gmap strings pretty.

Local Open Scope Z_scope.
Local Open Scope string_scope.

(** ** shared/schema.ts *)

Definition Date := Z.

(** [DownloadStatus] (schema.ts, last lines). *)
Inductive DownloadStatus : Type :=
  | queued | downloading | paused | completed | failed | canceled.

#[global] Instance DownloadStatus_eq_dec : EqDecision DownloadStatus.
Proof. solve_decision. Defined.

(** A row of the downloads table, with the fields [createDownload] gives
    it; [completedAt] is the extra property that routes.ts writes on
    completion ([None] while the property is absent). *)
Module Download.
Record t : Type := mk {
  id : Z;
  appId : string;
  title : string;
  status : DownloadStatus;
  totalSize : option string;
  installPath : option string;
  progress : Z;
  speed : string;
  downloaded : string;
  timeRemaining : string;
  queuePosition : Z;
  dateAdded : Date;
  dateCompleted : option Date;
  errorMessage : option string;
  completedAt : option Date }.
End Download.

(** [Partial<Download>]: [None] is a field the update does not name; for a
    nullable field [Some None] is the field named with value [null]. *)
Module Partial.
Record t : Type := mk {
  id : option Z;
  appId : option string;
  title : option string;
  status : option DownloadStatus;
  totalSize : option (option string);
  installPath : option (option string);
  progress : option Z;
  speed : option string;
  downloaded : option string;
  timeRemaining : option string;
  queuePosition : option Z;
  dateAdded : option Date;
  dateCompleted : option (option Date);
  errorMessage : option (option string);
  completedAt : option (option Date) }.

(** [{}] *)
Definition empty : t :=
  mk None None None None None None None None None None None None None None None.

(** [{ status: s }] *)
Definition ofStatus (s : DownloadStatus) : t :=
  mk None None None (Some s) None None None None None None None None None None None.

(** [{ status: 'queued', queuePosition: 0 }] and the like *)
Definition ofStatusPosition (s : DownloadStatus) (p : Z) : t :=
  mk None None None (Some s) None None None None None None (Some p) None None None None.

(** [{ status: 'completed', progress: 100, completedAt: new Date() }] *)
Definition ofCompletion (now : Date) : t :=
  mk None None None (Some completed) None None (Some 100) None None None None None
     None None (Some (Some now)).

(** [{ status: 'failed', errorMessage: msg }] *)
Definition ofFailure (msg : string) : t :=
  mk None None None (Some failed) None None None None None None None None
     None (Some (Some msg)) None.
End Partial.

(** [InsertDownload] as [createDownload] reads it. *)
Record InsertDownload : Type := mkInsertDownload {
  ins_appId : string;
  ins_title : string;
  ins_totalSize : option string;
  ins_installPath : option string }.

(** The settings row; only the columns the modelled code reads. *)
Record Settings : Type := mkSettings {
  steamCmdPath : string;
  downloadPath : string;
  maxConcurrentDownloads : option Z }.

(** ** server/storage.ts: MemStorage *)

Module JsMap.
Section Assoc.
Context {V : Type}.

(** [Map.prototype.get] *)
Fixpoint get (k : Z) (m : list (Z * V)) : option V :=
  match m with
  | [] => None
  | (k', v) :: r => if Z.eqb k' k then Some v else get k r
  end.

(** [Map.prototype.set]: in place for a known key, at the end for a
    new one. *)
Fixpoint set (k : Z) (v : V) (m : list (Z * V)) : list (Z * V) :=
  match m with
  | [] => [(k, v)]
  | (k', v') :: r => if Z.eqb k' k then (k, v) :: r else (k', v') :: set k v r
  end.

(** [Map.prototype.delete]: the map without the key. *)
Fixpoint delete (k : Z) (m : list (Z * V)) : list (Z * V) :=
  match m with
  | [] => []
  | (k', v') :: r => if Z.eqb k' k then r else (k', v') :: delete k r
  end.

(** [Array.from(map.values())] *)
Definition values (m : list (Z * V)) : list V := map snd m.
End Assoc.
End JsMap.

Module Storage.

Record MemStorage : Type := mk {
  downloadsList : list (Z * Download.t);
  downloadCurrentId : Z;
  appSettings : option Settings }.

(** The constructor, with [maxConcurrentDownloads: 1]. *)
Definition initial : MemStorage :=
  mk [] 1 (Some (mkSettings "/usr/local/bin/steamcmd" "/Games/Steam" (Some 1))).

Definition withDownloads (l : list (Z * Download.t)) (s : MemStorage) : MemStorage :=
  mk l (downloadCurrentId s) (appSettings s).

(** [a.queuePosition || 999] *)
Definition rank (d : Download.t) : Z :=
  if Z.eqb (Download.queuePosition d) 0 then 999 else Download.queuePosition d.

(** [Array.prototype.sort] with the comparator
    [(a, b) => (a.queuePosition || 999) - (b.queuePosition || 999)]:
    the stable ordering by [rank]. *)
Fixpoint insertByRank (x : Download.t) (l : list Download.t) : list Download.t :=
  match l with
  | [] => [x]
  | y :: r => if Z.leb (rank x) (rank y) then x :: y :: r else y :: insertByRank x r
  end.

Fixpoint sortByRank (l : list Download.t) : list Download.t :=
  match l with
  | [] => []
  | x :: r => insertByRank x (sortByRank r)
  end.

Definition hasStatus (s : DownloadStatus) (d : Download.t) : bool :=
  bool_decide (Download.status d = s).

Definition getAllDownloads (s : MemStorage) : list Download.t :=
  sortByRank (JsMap.values (downloadsList s)).

Definition getActiveDownloads (s : MemStorage) : list Download.t :=
  sortByRank (List.filter (hasStatus downloading) (JsMap.values (downloadsList s))).

Definition getQueuedDownloads (s : MemStorage) : list Download.t :=
  sortByRank (List.filter (hasStatus queued) (JsMap.values (downloadsList s))).

Definition getDownloadById (i : Z) (s : MemStorage) : option Download.t :=
  JsMap.get i (downloadsList s).

(** [Array.from(values).find(d => d.appId === appId)] *)
Definition getDownloadByAppId (a : string) (s : MemStorage) : option Download.t :=
  List.find (fun d => String.eqb (Download.appId d) a) (JsMap.values (downloadsList s)).

(** [x || null] on an optional string: the empty string is falsy. *)
Definition orNull (o : option string) : option string :=
  match o with
  | Some s => if String.eqb s "" then None else Some s
  | None => None
  end.

(** [Math.max(0, ...values.map(d => d.queuePosition || 0))] *)
Definition maxQueue (s : MemStorage) : Z :=
  fold_right Z.max 0 (map Download.queuePosition (JsMap.values (downloadsList s))).

(** [this.downloadCurrentId++] and [maxQueue + 1] add doubles; the sums
    here are the exact ones, which is what the code computes while the
    counter and the positions are below 2^53. *)
Definition createDownload (now : Date) (download : InsertDownload) (s : MemStorage)
  : Download.t * MemStorage :=
  let i := downloadCurrentId s in
  let newDownload :=
    Download.mk i (ins_appId download) (ins_title download) queued
      (orNull (ins_totalSize download)) (orNull (ins_installPath download))
      0 "0 MB/s" "0 B" "Unknown" (maxQueue s + 1) now None None None in
  (newDownload,
   mk (JsMap.set i newDownload (downloadsList s)) (i + 1) (appSettings s)).

(** [{ ...download, ...update }] *)
Definition merge (d : Download.t) (u : Partial.t) : Download.t :=
  Download.mk
    (default (Download.id d) (Partial.id u))
    (default (Download.appId d) (Partial.appId u))
    (default (Download.title d) (Partial.title u))
    (default (Download.status d) (Partial.status u))
    (default (Download.totalSize d) (Partial.totalSize u))
    (default (Download.installPath d) (Partial.installPath u))
    (default (Download.progress d) (Partial.progress u))
    (default (Download.speed d) (Partial.speed u))
    (default (Download.downloaded d) (Partial.downloaded u))
    (default (Download.timeRemaining d) (Partial.timeRemaining u))
    (default (Download.queuePosition d) (Partial.queuePosition u))
    (default (Download.dateAdded d) (Partial.dateAdded u))
    (default (Download.dateCompleted d) (Partial.dateCompleted u))
    (default (Download.errorMessage d) (Partial.errorMessage u))
    (default (Download.completedAt d) (Partial.completedAt u)).

Definition setDateCompleted (v : option Date) (d : Download.t) : Download.t :=
  Download.mk (Download.id d) (Download.appId d) (Download.title d)
    (Download.status d) (Download.totalSize d) (Download.installPath d)
    (Download.progress d) (Download.speed d) (Download.downloaded d)
    (Download.timeRemaining d) (Download.queuePosition d) (Download.dateAdded d)
    v (Download.errorMessage d) (Download.completedAt d).

Definition setQueuePosition (p : Z) (d : Download.t) : Download.t :=
  Download.mk (Download.id d) (Download.appId d) (Download.title d)
    (Download.status d) (Download.totalSize d) (Download.installPath d)
    (Download.progress d) (Download.speed d) (Download.downloaded d)
    (Download.timeRemaining d) p (Download.dateAdded d)
    (Download.dateCompleted d) (Download.errorMessage d) (Download.completedAt d).

(** [update.status === 'completed' && !update.dateCompleted]: a date
    object is truthy, [null] and a missing property are not. *)
Definition stampsCompletion (u : Partial.t) : bool :=
  bool_decide (Partial.status u = Some completed) &&
  match Partial.dateCompleted u with
  | Some (Some _) => false
  | Some None | None => true
  end.

Definition updateDownload (now : Date) (i : Z) (u : Partial.t) (s : MemStorage)
  : option Download.t * MemStorage :=
  match JsMap.get i (downloadsList s) with
  | None => (None, s)
  | Some download =>
      let merged := merge download u in
      let updatedDownload :=
        if stampsCompletion u then setDateCompleted (Some now) merged else merged in
      (Some updatedDownload,
       withDownloads (JsMap.set i updatedDownload (downloadsList s)) s)
  end.

(** [Map.delete] answers whether the key was there. *)
Definition removeDownload (i : Z) (s : MemStorage) : bool * MemStorage :=
  (bool_decide (is_Some (JsMap.get i (downloadsList s))),
   withDownloads (JsMap.delete i (downloadsList s)) s).

(** The loop of [updateDownloadQueue], [i] being the loop index. *)
Fixpoint reorderFrom (i : Z) (newOrder : list Z) (m : list (Z * Download.t))
  : list (Z * Download.t) :=
  match newOrder with
  | [] => m
  | downloadId :: rest =>
      reorderFrom (i + 1) rest
        match JsMap.get downloadId m with
        | Some download => JsMap.set downloadId (setQueuePosition (i + 1) download) m
        | None => m
        end
  end.

(** Nothing in the [try] block throws, so the answer is always [true]. *)
Definition updateDownloadQueue (newOrder : list Z) (s : MemStorage) : bool * MemStorage :=
  (true, withDownloads (reorderFrom 0 newOrder (downloadsList s)) s).

Definition getSettings (s : MemStorage) : option Settings := appSettings s.

End Storage.

(** ** server/steamcmd.ts: the transfer runner *)

Module SteamCmd.

Record DownloadProgress : Type := mkProgress {
  progress : Z;
  speed : string;
  downloaded : string;
  timeRemaining : string }.

(** The three callbacks [downloadGame] is given; a run of a handler
    yields the calls it makes, in order. *)
Inductive Callback : Type :=
  | OnProgressUpdate (p : DownloadProgress)
  | OnComplete
  | OnError (error : string).

(** An entry of the [activeDownloads] registry. The child process is
    known by its pid; the stored callbacks are never called through the
    registry and are left out. *)
Record Handle : Type := mkHandle {
  process : Z;
  appId : string }.

(** The module state: the registry, the pids that were sent [kill()], in
    order (latest first), and what was written to the stdin of which
    pid (latest first). *)
Record State : Type := mk {
  activeDownloads : gmap Z Handle;
  killed : list Z;
  stdinWrites : list (Z * string) }.

Definition initial : State := mk ∅ [] [].

(** The registration that follows [spawn] in [downloadGame]. *)
Definition register (downloadId : Z) (h : Handle) (st : State) : State :=
  mk (<[downloadId := h]> (activeDownloads st)) (killed st) (stdinWrites st).

Definition cancelDownload (downloadId : Z) (st : State) : bool * State :=
  match activeDownloads st !! downloadId with
  | Some download =>
      (true,
       mk (delete downloadId (activeDownloads st))
          (process download :: killed st) (stdinWrites st))
  | None => (false, st)
  end.

Definition pauseDownload (downloadId : Z) (st : State) : bool * State :=
  cancelDownload downloadId st.

(** [download.process.stdin] is the pipe [spawn] opens by default, so
    the test comes down to the registry lookup. *)
Definition submitSteamGuard (downloadId : Z) (code : string) (st : State)
  : bool * State :=
  match activeDownloads st !! downloadId with
  | Some download =>
      (true,
       mk (activeDownloads st) (killed st)
          ((process download, code ++ String (Ascii.ascii_of_nat 10) EmptyString) :: stdinWrites st))
  | None => (false, st)
  end.

(** [String.prototype.includes] *)
Fixpoint includes (s needle : string) : bool :=
  String.prefix needle s ||
  match s with
  | EmptyString => false
  | String _ s' => includes s' needle
  end.

(** The variables the event handlers of one [downloadGame] call close
    over. *)
Record Transfer : Type := mkTransfer {
  downloadId : Z;
  pid : Z;
  stdoutData : string;
  lastProgressUpdate : Z }.

Section Handlers.
(** [parseDownloadProgress] matches a regular expression and formats
    floating-point sizes; the handlers only test whether it found
    something, so it is a parameter here. *)
Variable parseDownloadProgress : string -> option DownloadProgress.

(** [steamCmdProcess.stdout.on('data', ...)] *)
Definition onStdout (now : Z) (output : string) (t : Transfer) (st : State)
  : list Callback * Transfer * State :=
  let stdoutData' := stdoutData t ++ output in
  let '(calls, last) :=
    match parseDownloadProgress output with
    | Some progressInfo =>
        if Z.ltb 1000 (now - lastProgressUpdate t)
        then ([OnProgressUpdate progressInfo], now)
        else ([], lastProgressUpdate t)
    | None => ([], lastProgressUpdate t)
    end in
  let t' := mkTransfer (downloadId t) (pid t) stdoutData' last in
  if includes output "Steam Guard code:"
  then ((calls ++ [OnError "Steam Guard code required"])%list, t',
        mk (activeDownloads st) (pid t :: killed st) (stdinWrites st))
  else (calls, t', st).

(** [steamCmdProcess.on('close', ...)]; [code] is the exit code as a
    decimal string for the message, [ok] whether it is [0]. *)
Definition onClose (ok : bool) (code : string) (t : Transfer) (st : State)
  : list Callback * State :=
  let st' := mk (delete (downloadId t) (activeDownloads st)) (killed st) (stdinWrites st) in
  if ok then ([OnComplete], st')
  else if includes (stdoutData t) "Invalid Password"
  then ([OnError "Invalid username or password"], st')
  else if includes (stdoutData t) "rate limit exceeded"
  then ([OnError "Rate limit exceeded, please try again later"], st')
  else if includes (stdoutData t) "No subscription"
  then ([OnError "You do not own this game or need to be logged in"], st')
  else ([OnError ("Download failed with code " ++ code)], st').
End Handlers.

End SteamCmd.

(** ** server/routes.ts: the handlers and the admission pass *)

Module Routes.

(** [Array.prototype.slice(0, e)] for an integer [e]. *)
Definition slice0 {A : Type} (e : Z) (l : list A) : list A :=
  if Z.ltb e 0
  then firstn (Z.to_nat (Z.max (Z.of_nat (length l) + e) 0)) l
  else firstn (Z.to_nat e) l.

(** The server: the storage singleton, the steamcmd module state and
    the keys of the [activeDownloadJobs] timers. *)
Record Server : Type := mk {
  storage : Storage.MemStorage;
  steam : SteamCmd.State;
  activeDownloadJobs : gset Z }.

Definition initial : Server := mk Storage.initial SteamCmd.initial ∅.

(** The DELETE route calls [storage.deleteDownload], a method that
    [MemStorage] does not have (its row deletion is [removeDownload]).
    Both readings are kept: the call throws a TypeError, which the
    route turns into a 500 answer, or the call is the row deletion. *)
Inductive DeleteBinding : Type := DeleteMissing | DeleteIsRemove.

Section WithClock.
Variable now : Date.

(** [startDownload] up to the point where [downloadGame] is called;
    the transfer itself runs later and reports through [settled]. *)
Definition startDownload (downloadId : Z) (w : Server) : Server :=
  let st1 := snd (Storage.updateDownload now downloadId (Partial.ofStatus downloading) (storage w)) in
  match Storage.getDownloadById downloadId st1 with
  | None =>
      (* throw, then the catch block: updateDownload on the missing
         row changes nothing *)
      mk st1 (steam w) (activeDownloadJobs w)
  | Some download =>
      mk st1 (steam w) ({[downloadId]} ∪ activeDownloadJobs w)
  end.

Definition processDownloadQueue (w : Server) : Server :=
  let activeDownloads := Storage.getActiveDownloads (storage w) in
  if Nat.ltb 0 (length activeDownloads) then w
  else
    match Storage.getSettings (storage w) with
    | None => w (* TypeError on [settings.maxConcurrentDownloads], logged *)
    | Some settings =>
        let maxConcurrent :=
          match maxConcurrentDownloads settings with
          | Some m => if Z.eqb m 0 then 1 else m
          | None => 1
          end in
        let queuedDownloads := Storage.getQueuedDownloads (storage w) in
        if Nat.eqb (length queuedDownloads) 0 then w
        else
          let toStart := slice0 maxConcurrent queuedDownloads in
          fold_left (fun w' download => startDownload (Download.id download) w')
                    toStart w
    end.

Definition withStorage (s : Storage.MemStorage) (w : Server) : Server :=
  mk s (steam w) (activeDownloadJobs w).

(** [clearInterval] and [activeDownloadJobs.delete] *)
Definition clearJob (downloadId : Z) (w : Server) : Server :=
  mk (storage w) (steam w) (activeDownloadJobs w ∖ {[downloadId]}).

(** POST /api/downloads; [None] is a body the schema rejects. *)
Definition postDownload (body : option InsertDownload) (w : Server) : Z * Server :=
  match body with
  | None => (400, w)
  | Some data =>
      match Storage.getDownloadByAppId (ins_appId data) (storage w) with
      | Some existingDownload => (409, w)
      | None =>
          let '(download, s1) := Storage.createDownload now data (storage w) in
          (201, processDownloadQueue (withStorage s1 w))
      end
  end.

(** POST /api/downloads/queue/reorder *)
Definition postReorder (body : option (list Z)) (w : Server) : Z * Server :=
  match body with
  | None => (400, w)
  | Some order =>
      let '(success, s1) := Storage.updateDownloadQueue order (storage w) in
      if success then (200, withStorage s1 w) else (500, withStorage s1 w)
  end.

(** POST /api/downloads/:id/pause; [None] is an id that parses to NaN. *)
Definition postPause (id : option Z) (w : Server) : Z * Server :=
  match id with
  | None => (400, w)
  | Some downloadId =>
      match Storage.getDownloadById downloadId (storage w) with
      | None => (404, w)
      | Some download =>
          if bool_decide (Download.status download ≠ downloading) then (400, w)
          else
            let steam1 := snd (SteamCmd.pauseDownload downloadId (steam w)) in
            let s1 := snd (Storage.updateDownload now downloadId (Partial.ofStatus paused) (storage w)) in
            let w1 := clearJob downloadId (mk s1 steam1 (activeDownloadJobs w)) in
            (200, processDownloadQueue w1)
      end
  end.

(** POST /api/downloads/:id/resume *)
Definition postResume (id : option Z) (w : Server) : Z * Server :=
  match id with
  | None => (400, w)
  | Some downloadId =>
      match Storage.getDownloadById downloadId (storage w) with
      | None => (404, w)
      | Some download =>
          if bool_decide (Download.status download ≠ paused) then (400, w)
          else
            let s1 := snd (Storage.updateDownload now downloadId
                             (Partial.ofStatusPosition queued 0) (storage w)) in
            (200, processDownloadQueue (withStorage s1 w))
      end
  end.

(** The block both the cancel and the DELETE route run for an active
    download. *)
Definition stopIfActive (downloadId : Z) (download : Download.t) (w : Server) : Server :=
  if bool_decide (Download.status download = downloading)
  then clearJob downloadId
         (mk (storage w) (snd (SteamCmd.cancelDownload downloadId (steam w)))
             (activeDownloadJobs w))
  else w.

(** POST /api/downloads/:id/cancel *)
Definition postCancel (id : option Z) (w : Server) : Z * Server :=
  match id with
  | None => (400, w)
  | Some downloadId =>
      match Storage.getDownloadById downloadId (storage w) with
      | None => (404, w)
      | Some download =>
          let w1 := stopIfActive downloadId download w in
          let s1 := snd (Storage.updateDownload now downloadId (Partial.ofStatus canceled) (storage w1)) in
          (200, processDownloadQueue (withStorage s1 w1))
      end
  end.

(** DELETE /api/downloads/:id *)
Definition deleteDownloadRoute (b : DeleteBinding) (id : option Z) (w : Server) : Z * Server :=
  match id with
  | None => (400, w)
  | Some downloadId =>
      match Storage.getDownloadById downloadId (storage w) with
      | None => (404, w)
      | Some download =>
          let w1 := stopIfActive downloadId download w in
          match b with
          | DeleteMissing => (500, w1)
          | DeleteIsRemove =>
              let s1 := snd (Storage.removeDownload downloadId (storage w1)) in
              (200, processDownloadQueue (withStorage s1 w1))
          end
      end
  end.

(** What the promise of [downloadGame] settles to. *)
Inductive Outcome : Type :=
  | Resolved (success : bool)
  | Rejected (message : string).

(** The [.then] and [.catch] callbacks of [startDownload], as far as
    the downloads table goes (the library insertion and the optional
    auto-compression do not touch it). *)
Definition settled (downloadId : Z) (o : Outcome) (w : Server) : Server :=
  let w1 := clearJob downloadId w in
  let u :=
    match o with
    | Resolved true => Partial.ofCompletion now
    | Resolved false => Partial.ofFailure "Download failed"
    | Rejected message =>
        Partial.ofFailure (if String.eqb message "" then "Download failed" else message)
    end in
  let s1 := snd (Storage.updateDownload now downloadId u (storage w1)) in
  processDownloadQueue (withStorage s1 w1).

(** Requests and events the server reacts to. *)
Inductive Op : Type :=
  | Enqueue (body : option InsertDownload)
  | Reorder (body : option (list Z))
  | Pause (id : option Z)
  | Resume (id : option Z)
  | Cancel (id : option Z)
  | Remove (id : option Z)
  | Settled (downloadId : Z) (o : Outcome)
  | Spawned (downloadId : Z) (h : SteamCmd.Handle)
  | Pass.

Definition step (b : DeleteBinding) (op : Op) (w : Server) : Server :=
  match op with
  | Enqueue body => snd (postDownload body w)
  | Reorder body => snd (postReorder body w)
  | Pause id => snd (postPause id w)
  | Resume id => snd (postResume id w)
  | Cancel id => snd (postCancel id w)
  | Remove id => snd (deleteDownloadRoute b id w)
  | Settled downloadId o => settled downloadId o w
  | Spawned downloadId h =>
      mk (storage w) (SteamCmd.register downloadId h (steam w)) (activeDownloadJobs w)
  | Pass => processDownloadQueue w
  end.
End WithClock.

(** A run: each request or event comes with the time it is served at. *)
Fixpoint run (b : DeleteBinding) (ops : list (Date * Op)) (w : Server) : Server :=
  match ops with
  | [] => w
  | (now, op) :: rest => run b rest (step now b op w)
  end.

(** The number of rows with status ['downloading']. *)
Definition activeCount (w : Server) : Z :=
  Z.of_nat (length (Storage.getActiveDownloads (storage w))).

(** The limit the pass reads from the settings. *)
Definition limit (w : Server) : option Z :=
  s ← Storage.getSettings (storage w); maxConcurrentDownloads s.

End Routes.

(** ** server/compressor.ts: the compression runner *)

Module Compressor.

Inductive CompressionFormat : Type := zip | tar | sevenZ.

Inductive JobStatus : Type := pending | compressing | completed | failed.

#[global] Instance JobStatus_eq_dec : EqDecision JobStatus.
Proof. solve_decision. Defined.

Module Job.
Record t : Type := mk {
  appId : string;
  title : string;
  status : JobStatus;
  progress : Z;
  format : CompressionFormat;
  startTime : Date;
  endTime : option Date;
  error : option string;
  outputPath : option string;
  totalBytes : option Z;
  compressedBytes : option Z }.
End Job.

(** A row of the library table of MemStorage, with the columns the
    compressor reads or writes. *)
Module LibraryGame.
Record t : Type := mk {
  appId : string;
  title : string;
  installPath : string;
  isCompressed : bool;
  compressedSize : option string;
  compressedPath : option string;
  compressionType : option CompressionFormat;
  compressionDate : option Date }.
End LibraryGame.

(** [activeCompressionJobs] and [storage.libraryGamesList]. *)
Record State : Type := mk {
  activeCompressionJobs : gmap string Job.t;
  libraryGamesList : gmap string LibraryGame.t }.

(** What one call of [compressGame] finds outside the program:
    [fs.existsSync]; the outcome of the preparation of the output
    (compressed directory, output path, write stream, archive), a path
    or the message of the exception thrown; the outcome of
    [calculateDirectorySize]. *)
Record Env : Type := mkEnv {
  existsSync : string -> bool;
  prepareOutput : string + string;
  calculateDirectorySize : string + Z }.

(** [['pending', 'compressing'].includes(job.status)] *)
Definition inProgress (j : Job.t) : bool :=
  bool_decide (Job.status j = pending) || bool_decide (Job.status j = compressing).

Definition setJob (a : string) (j : Job.t) (st : State) : State :=
  mk (<[a := j]> (activeCompressionJobs st)) (libraryGamesList st).

(** [job.status = 'failed'; job.error = msg; job.endTime = new Date()] *)
Definition markFailed (now : Date) (msg : string) (j : Job.t) : Job.t :=
  Job.mk (Job.appId j) (Job.title j) failed (Job.progress j) (Job.format j)
    (Job.startTime j) (Some now) (Some msg) (Job.outputPath j)
    (Job.totalBytes j) (Job.compressedBytes j).

(** The variables the [entry], [close] and [error] handlers of one call
    close over: the job object and the byte counter. *)
Record Running : Type := mkRunning {
  compressionJob : Job.t;
  processedBytes : Z }.

(** The answer of the part of [compressGame] that runs before the
    archive is streamed: [null], or the handlers are installed. *)
Inductive Started : Type :=
  | ReturnsNull
  | Streaming (r : Running).

(** The [catch] block of [compressGame]. *)
Definition catchBlock (now : Date) (msg : string) (a : string) (st : State) : State :=
  match activeCompressionJobs st !! a with
  | Some job => setJob a (markFailed now msg job) st
  | None => st
  end.

(** [compressGame] up to [return new Promise(...)], for a call that no
    other call of [compressGame] runs in between of: the function
    awaits twice on the way, and [Async] below has the stretches one by
    one. The job is registered as ['pending'] and set to
    ['compressing'] in the same synchronous stretch. *)
Definition compressGame (now : Date) (env : Env) (a : string)
    (fmt : CompressionFormat) (st : State) : Started * State :=
  if match activeCompressionJobs st !! a with
     | Some existingJob => inProgress existingJob
     | None => false
     end
  then (ReturnsNull, st)
  else
    match libraryGamesList st !! a with
    | None => (ReturnsNull, st)
    | Some game =>
        if negb (existsSync env (LibraryGame.installPath game)) then (ReturnsNull, st)
        else
          match prepareOutput env with
          | inl msg => (ReturnsNull, catchBlock now msg a st)
          | inr outputPath =>
              let job :=
                Job.mk a (LibraryGame.title game) compressing 0 fmt now None None
                  (Some outputPath) None None in
              match calculateDirectorySize env with
              | inl msg => (ReturnsNull, catchBlock now msg a (setJob a job st))
              | inr totalSize =>
                  let job' :=
                    Job.mk a (LibraryGame.title game) compressing 0 fmt now None None
                      (Some outputPath) (Some totalSize) None in
                  (Streaming (mkRunning job' 0), setJob a job' st)
              end
          end
    end.

Section Handlers.
(** [Math.floor((processedBytes / totalBytes) * 100)] is computed in
    floating point; the handlers only bound it from above, so the
    function is a parameter. [formatBytes] likewise. *)
Variable percentOf : Z -> Z -> Z.
Variable formatBytes : Z -> string.

Definition withProgress (p : Z) (processed : Z) (j : Job.t) : Job.t :=
  Job.mk (Job.appId j) (Job.title j) (Job.status j) p (Job.format j)
    (Job.startTime j) (Job.endTime j) (Job.error j) (Job.outputPath j)
    (Job.totalBytes j) (Some processed).

(** [archive.on('entry', ...)]; [size] is [entry.stats.size], [None]
    when the entry has no stats. *)
Definition onEntry (size : option Z) (r : Running) (st : State) : Running * State :=
  match size with
  | Some sz =>
      if Z.eqb sz 0 then (r, st)
      else
        let processed := processedBytes r + sz in
        match Job.totalBytes (compressionJob r) with
        | Some total =>
            if Z.eqb total 0 then (mkRunning (compressionJob r) processed, st)
            else
              let j := withProgress (Z.min 99 (percentOf processed total)) processed
                         (compressionJob r) in
              (mkRunning j processed, setJob (Job.appId j) j st)
        | None => (mkRunning (compressionJob r) processed, st)
        end
  | None => (r, st)
  end.

Definition markCompleted (now : Date) (j : Job.t) : Job.t :=
  Job.mk (Job.appId j) (Job.title j) completed 100 (Job.format j)
    (Job.startTime j) (Some now) (Job.error j) (Job.outputPath j)
    (Job.totalBytes j) (Job.compressedBytes j).

(** [storage.updateGameCompressionInfo] with the arguments of the
    close handler. *)
Definition updateGameCompressionInfo (now : Date) (a : string) (size : string)
    (path : option string) (fmt : CompressionFormat) (st : State) : State :=
  match libraryGamesList st !! a with
  | None => st
  | Some game =>
      mk (activeCompressionJobs st)
         (<[a := LibraryGame.mk (LibraryGame.appId game) (LibraryGame.title game)
                   (LibraryGame.installPath game) true (Some size) path (Some fmt)
                   (Some now)]> (libraryGamesList st))
  end.

(** [output.on('close', ...)]; [stat] is the outcome of
    [fs.statSync(outputPath)]: the size, or the message of the
    exception, which the handler's [catch] records. *)
Definition onClose (now : Date) (stat : string + Z) (r : Running) (st : State)
  : Running * State :=
  let j := compressionJob r in
  match stat with
  | inr sizeInBytes =>
      let j' := markCompleted now j in
      (mkRunning j' (processedBytes r),
       updateGameCompressionInfo now (Job.appId j) (formatBytes sizeInBytes)
         (Job.outputPath j) (Job.format j) (setJob (Job.appId j) j' st))
  | inl msg =>
      let j' := markFailed now msg j in
      (mkRunning j' (processedBytes r), setJob (Job.appId j) j' st)
  end.

(** [archive.on('error', ...)] *)
Definition onArchiveError (now : Date) (msg : string) (r : Running) (st : State)
  : Running * State :=
  let j' := markFailed now msg (compressionJob r) in
  (mkRunning j' (processedBytes r), setJob (Job.appId j') j' st).

(** A run of entry events. *)
Fixpoint onEntries (sizes : list (option Z)) (r : Running) (st : State)
  : Running * State :=
  match sizes with
  | [] => (r, st)
  | size :: rest => let '(r', st') := onEntry size r st in onEntries rest r' st'
  end.
End Handlers.

End Compressor.

(** ** Derived notions used by the statements *)

(** The number of rows of a downloads map with a given status. *)
Definition countStatus (s : DownloadStatus) (m : list (Z * Download.t)) : nat :=
  length (List.filter (Storage.hasStatus s) (JsMap.values m)).

(** The invariant of the scheduler for a limit [m]: the settings hold
    [m] and at most [m] rows are ['downloading']. *)
Definition withinLimit (m : Z) (w : Routes.Server) : Prop :=
  Routes.limit w = Some m /\ Routes.activeCount w <= m.

(** [Array.prototype.lastIndexOf], counting from [i] for the head. *)
Fixpoint lastIndexFrom (i : Z) (k : Z) (l : list Z) : option Z :=
  match l with
  | [] => None
  | x :: r =>
      match lastIndexFrom (i + 1) k r with
      | Some j => Some j
      | None => if Z.eqb x k then Some i else None
      end
  end.

(** What the admission pass may do to a row: nothing, or the update
    [{ status: 'downloading' }] of [startDownload]. *)
Definition admittedOrSame (d d' : Download.t) : Prop :=
  d' = d \/ d' = Storage.merge d (Partial.ofStatus downloading).

(** The fields of [d'] that the update [u] does not name are those of
    [d]; [dateCompleted] is left to the completion stamp. *)
Definition keepsUnnamed (d : Download.t) (u : Partial.t) (d' : Download.t) : Prop :=
  (Partial.id u = None -> Download.id d' = Download.id d) /\
  (Partial.appId u = None -> Download.appId d' = Download.appId d) /\
  (Partial.title u = None -> Download.title d' = Download.title d) /\
  (Partial.status u = None -> Download.status d' = Download.status d) /\
  (Partial.totalSize u = None -> Download.totalSize d' = Download.totalSize d) /\
  (Partial.installPath u = None -> Download.installPath d' = Download.installPath d) /\
  (Partial.progress u = None -> Download.progress d' = Download.progress d) /\
  (Partial.speed u = None -> Download.speed d' = Download.speed d) /\
  (Partial.downloaded u = None -> Download.downloaded d' = Download.downloaded d) /\
  (Partial.timeRemaining u = None -> Download.timeRemaining d' = Download.timeRemaining d) /\
  (Partial.queuePosition u = None -> Download.queuePosition d' = Download.queuePosition d) /\
  (Partial.dateAdded u = None -> Download.dateAdded d' = Download.dateAdded d) /\
  (Partial.errorMessage u = None -> Download.errorMessage d' = Download.errorMessage d) /\
  (Partial.completedAt u = None -> Download.completedAt d' = Download.completedAt d).

(** The registry holds the job object the handlers of a running
    compression close over. *)
Definition registeredJob (r : Compressor.Running) (st : Compressor.State) : Prop :=
  Compressor.activeCompressionJobs st !! Compressor.Job.appId (Compressor.compressionJob r)
  = Some (Compressor.compressionJob r).

(** ** Sample data for the concrete statements *)

Module Sample.
(** A row as [createDownload] leaves it, then moved to a status and a
    queue position. *)
Definition row (i : Z) (a : string) (s : DownloadStatus) (p : Z) : Download.t :=
  Download.mk i a a s None None 0 "0 MB/s" "0 B" "Unknown" p 0 None None None.

Definition request (a : string) : InsertDownload :=
  mkInsertDownload a a None None.

(** A server whose table holds the given rows, keyed by their ids, and
    whose settings hold the limit [m]. *)
Definition server (m : Z) (rows : list Download.t) : Routes.Server :=
  Routes.mk
    (Storage.mk (map (fun d => (Download.id d, d)) rows)
                (Z.of_nat (length rows) + 1)
                (Some (mkSettings "/usr/local/bin/steamcmd" "/Games/Steam" (Some m))))
    SteamCmd.initial ∅.

(** One row active, one queued, limit 2. *)
Definition oneActiveOneQueued : Routes.Server :=
  server 2 [row 1 "730" downloading 1; row 2 "440" queued 2].

(** A finished download of app 730. *)
Definition oneCompleted : Routes.Server :=
  server 1 [row 1 "730" completed 1].

(** Row 1 paused, row 2 queued behind it, row 3 active. *)
Definition pausedQueuedActive : Routes.Server :=
  server 1 [row 1 "730" paused 1; row 2 "440" queued 2; row 3 "570" downloading 3].

(** Three queued rows, in the order of their ids. *)
Definition threeQueued : Routes.Server :=
  server 1 [row 1 "730" queued 1; row 2 "440" queued 2; row 3 "570" queued 3].

(** A transfer of download 1, process 4242, registered. *)
Definition transfer : SteamCmd.Transfer := SteamCmd.mkTransfer 1 4242 "" 0.

Definition registered : SteamCmd.State :=
  SteamCmd.register 1 (SteamCmd.mkHandle 4242 "730") SteamCmd.initial.

(** [{ status: 'completed', dateCompleted: null }] *)
Definition completedWithNullDate : Partial.t :=
  Partial.mk None None None (Some completed) None None None None None None None None
    (Some None) None None.

(** [{ progress: 42 }] *)
Definition progressOnly : Partial.t :=
  Partial.mk None None None None None None (Some 42) None None None None None
    None None None.

(** A library with app 730 installed, no compression job yet. *)
Definition compressorState : Compressor.State :=
  Compressor.mk ∅
    {[ "730" := Compressor.LibraryGame.mk "730" "Counter Strike" "/games/730"
                  false None None None None ]}.

(** Everything outside succeeds; the install directory holds 1000
    bytes. *)
Definition env : Compressor.Env :=
  Compressor.mkEnv (fun _ => true) (inr "/games/compressed/Counter_Strike.zip") (inr 1000).

(** The install directory is gone. *)
Definition envNoDirectory : Compressor.Env :=
  Compressor.mkEnv (fun _ => false) (inr "/games/compressed/Counter_Strike.zip") (inr 1000).

(** The job [compressGame] registers in [compressorState] at time 5. *)
Definition job : Compressor.Job.t :=
  Compressor.Job.mk "730" "Counter Strike" Compressor.compressing 0 Compressor.zip 5
    None None (Some "/games/compressed/Counter_Strike.zip") (Some 1000) None.

Definition running : Compressor.Running := Compressor.mkRunning job 0.

Definition compressing : Compressor.State :=
  Compressor.setJob "730" job compressorState.

(** The exact percentage, for the concrete runs. *)
Definition percentOf (processed total : Z) : Z := (100 * processed) / total.

Definition formatBytes (n : Z) : string := "some bytes".
End Sample.

(** ** Further notions: the keys of the downloads map *)

(** [Number.MAX_SAFE_INTEGER]. JavaScript numbers are doubles: the
    integers up to this bound are among them, and sums, quotients and
    remainders of such integers that stay within the bound are the
    exact ones. *)
Definition maxSafeInteger : Z := 9007199254740991.

(** The id counter and the queue positions leave room for the [+ 1] of
    [createDownload] to be exact. *)
Definition exactIncrements (s : Storage.MemStorage) : Prop :=
  - maxSafeInteger <= Storage.downloadCurrentId s < maxSafeInteger /\
  Storage.maxQueue s < maxSafeInteger.

(** The rows of the table sit under pairwise different keys, each row
    under its own id, and every key is below the id counter. The
    constructor gives such a store and [createDownload], [updateDownload]
    (for an update that does not name [id]), [removeDownload] and
    [updateDownloadQueue] keep it so. *)
Definition wellKeyed (s : Storage.MemStorage) : Prop :=
  NoDup (map fst (Storage.downloadsList s)) /\
  Forall (fun kd : Z * Download.t =>
            Download.id (snd kd) = fst kd /\ fst kd < Storage.downloadCurrentId s)
         (Storage.downloadsList s).

#[global] Instance wellKeyed_dec (s : Storage.MemStorage) : Decision (wellKeyed s).
Proof. unfold wellKeyed. apply _. Defined.

(** The number of rows the queue scan returns. *)
Definition queuedCount (w : Routes.Server) : nat :=
  length (Storage.getQueuedDownloads (Routes.storage w)).

(** The ids the pass starts when no row is active and the limit is [m]. *)
Definition firstInQueue (m : Z) (w : Routes.Server) : list Z :=
  map Download.id (Routes.slice0 m (Storage.getQueuedDownloads (Routes.storage w))).

(** ** server/storage.ts: users and games *)

Module Users.

Record User : Type := mkUser {
  id : Z;
  username : string;
  password : string }.


(** [users] and [userCurrentId]. *)
Record State : Type := mk {
  users : list (Z * User);
  userCurrentId : Z }.

Definition initial : State := mk [] 1.




End Users.


Module Games.

Record Game : Type := mkGame {
  appId : string;
  title : string;
  id : Z;
  developer : option string;
  publisher : option string;
  description : option string;
  size : option string;
  headerImage : option string;
  iconImage : option string;
  isFree : bool }.

(** [InsertGame] as [upsertGame] reads it; [None] is a property that is
    missing or null. *)
Record InsertGame : Type := mkInsertGame {
  ins_appId : string;
  ins_title : string;
  ins_developer : option string;
  ins_publisher : option string;
  ins_description : option string;
  ins_size : option string;
  ins_headerImage : option string;
  ins_iconImage : option string;
  ins_isFree : option bool }.

(** [games] and [gameCurrentId]. *)
Record State : Type := mk {
  games : gmap string Game;
  gameCurrentId : Z }.

Definition initial : State := mk ∅ 1.

Definition getGameByAppId (a : string) (s : State) : option Game := games s !! a.

(** The row both branches of [upsertGame] build, up to its id: the
    optional fields are [game.x || null], [isFree] is
    [game.isFree ?? false]. *)
Definition rowOf (i : Z) (game : InsertGame) : Game :=
  mkGame (ins_appId game) (ins_title game) i
    (Storage.orNull (ins_developer game)) (Storage.orNull (ins_publisher game))
    (Storage.orNull (ins_description game)) (Storage.orNull (ins_size game))
    (Storage.orNull (ins_headerImage game)) (Storage.orNull (ins_iconImage game))
    (default false (ins_isFree game)).

Definition upsertGame (game : InsertGame) (s : State) : Game * State :=
  match getGameByAppId (ins_appId game) s with
  | Some existingGame =>
      (* { ...existingGame, ...game, developer: ..., ... }: only the id
         survives from the stored row *)
      let updatedGame := rowOf (id existingGame) game in
      (updatedGame, mk (<[ins_appId game := updatedGame]> (games s)) (gameCurrentId s))
  | None =>
      let i := gameCurrentId s in
      let newGame := rowOf i game in
      (newGame, mk (<[ins_appId game := newGame]> (games s)) (i + 1))
  end.

End Games.

(** ** server/steamcmd.ts: a transfer fed with stdout chunks *)

Module Feed.

(** The stdout handler run on a sequence of chunks, each with the time
    [Date.now()] shows when it arrives; the calls come out with that
    time. *)
Fixpoint onStdoutAll (parse : string -> option SteamCmd.DownloadProgress)
    (chunks : list (Z * string)) (t : SteamCmd.Transfer) (st : SteamCmd.State)
  : list (Z * SteamCmd.Callback) * SteamCmd.Transfer * SteamCmd.State :=
  match chunks with
  | [] => ([], t, st)
  | (now, output) :: rest =>
      let '(calls, t1, st1) := SteamCmd.onStdout parse now output t st in
      let '(calls', t2, st2) := onStdoutAll parse rest t1 st1 in
      ((map (fun c => (now, c)) calls ++ calls')%list, t2, st2)
  end.

Definition isProgress (c : SteamCmd.Callback) : bool :=
  match c with SteamCmd.OnProgressUpdate _ => true | _ => false end.

Definition isError (c : SteamCmd.Callback) : bool :=
  match c with SteamCmd.OnError _ => true | _ => false end.

(** The times of the progress callbacks of a run. *)
Definition progressTimes (calls : list (Z * SteamCmd.Callback)) : list Z :=
  map fst (List.filter (fun tc => isProgress (snd tc)) calls).

(** Each time is more than a second after the one before, the first one
    after [last]. *)
Fixpoint spaced (last : Z) (times : list Z) : Prop :=
  match times with
  | [] => True
  | t :: rest => last + 1000 < t /\ spaced t rest
  end.

(** [steamCmdProcess.on('error', ...)] *)
Definition onProcessError (message : string) (t : SteamCmd.Transfer) (st : SteamCmd.State)
  : list SteamCmd.Callback * SteamCmd.State :=
  ([SteamCmd.OnError ("Failed to start SteamCMD: " ++ message)],
   SteamCmd.mk (delete (SteamCmd.downloadId t) (SteamCmd.activeDownloads st))
               (SteamCmd.killed st) (SteamCmd.stdinWrites st)).

(** What the child process of one [downloadGame] call emits once the
    handlers are installed: stdout data, the [error] event (the process
    could not be spawned, or not be killed) and the [close] event. *)
Inductive Event : Type :=
  | Stdout (now : Z) (output : string)
  | ProcessError (message : string)
  | Close (ok : bool) (code : string).

(** The handler an event runs. *)
Definition react (parse : string -> option SteamCmd.DownloadProgress)
    (e : Event) (t : SteamCmd.Transfer) (st : SteamCmd.State)
  : list SteamCmd.Callback * SteamCmd.Transfer * SteamCmd.State :=
  match e with
  | Stdout now output => SteamCmd.onStdout parse now output t st
  | ProcessError message =>
      let '(c, st1) := onProcessError message t st in (c, t, st1)
  | Close ok code =>
      let '(c, st1) := SteamCmd.onClose ok code t st in (c, t, st1)
  end.

(** The handlers on a sequence of events; all the calls they make, in
    order. *)
Fixpoint handle (parse : string -> option SteamCmd.DownloadProgress)
    (events : list Event) (t : SteamCmd.Transfer) (st : SteamCmd.State)
  : list SteamCmd.Callback * SteamCmd.Transfer * SteamCmd.State :=
  match events with
  | [] => ([], t, st)
  | e :: rest =>
      let '(calls, t1, st1) := react parse e t st in
      let '(calls', t2, st2) := handle parse rest t1 st1 in
      ((calls ++ calls')%list, t2, st2)
  end.

(** The events that are a stdout chunk with the Steam Guard prompt, an
    [error] or a [close]. *)
Definition endsTransfer (e : Event) : bool :=
  match e with
  | Stdout _ output => SteamCmd.includes output "Steam Guard code:"
  | ProcessError _ => true
  | Close _ _ => true
  end.

(** [onComplete] and [onError] end a transfer for the caller. *)
Definition isTerminal (c : SteamCmd.Callback) : bool := negb (isProgress c).

(** The chunks that show the Steam Guard prompt. *)
Definition prompts (chunks : list (Z * string)) : list (Z * string) :=
  List.filter (fun c => SteamCmd.includes (snd c) "Steam Guard code:") chunks.

End Feed.

(** ** server/compressor.ts: the size of a directory *)

Module FsTree.

(** What [fs.statSync] and [fs.readdirSync] find at a path: a file of
    some size, a directory with named entries, or a path at which one of
    the two calls throws. *)
Inductive Node : Type :=
  | File (size : Z)
  | Directory (entries : list (string * Node))
  | Failing.

(** [calculateDirectorySize] on the entries of [dirPath]; [None] is the
    exception of a failing entry, which nothing catches on the way up. *)
Fixpoint sizeOfNode (n : Node) : option Z :=
  match n with
  | File size => Some size
  | Directory entries =>
      (fix loop (files : list (string * Node)) (totalSize : Z) : option Z :=
         match files with
         | [] => Some totalSize
         | (_, child) :: rest =>
             match sizeOfNode child with
             | Some sz => loop rest (totalSize + sz)
             | None => None
             end
         end) entries 0
  | Failing => None
  end.

Definition calculateDirectorySize (entries : list (string * Node)) : option Z :=
  sizeOfNode (Directory entries).



Definition sumZ (l : list Z) : Z := fold_right Z.add 0 l.

End FsTree.

(** ** client/src/lib/utils.ts *)

Module Utils.

(** [formatDuration] on a whole number of seconds; [pretty] prints an
    integer the way a template literal does. [Math.floor(x / 60)] floors
    the quotient of doubles, which is the integer quotient written here
    for whole seconds up to [Number.MAX_SAFE_INTEGER]; above that the
    code rounds. *)
Definition formatDuration (seconds : Z) : string :=
  if Z.ltb seconds 60 then pretty seconds ++ "s"
  else
    let minutes := seconds / 60 in
    let remainingSeconds := seconds mod 60 in
    if Z.ltb minutes 60 then pretty minutes ++ "m " ++ pretty remainingSeconds ++ "s"
    else
      let hours := minutes / 60 in
      let remainingMinutes := minutes mod 60 in
      if Z.ltb hours 24 then pretty hours ++ "h " ++ pretty remainingMinutes ++ "m"
      else
        let days := hours / 24 in
        let remainingHours := hours mod 24 in
        pretty days ++ "d " ++ pretty remainingHours ++ "h".

End Utils.

(** ** client/src/contexts/settings-context.tsx: the downloads of the client *)

Module Client.

(** The status strings of the client; it spells ['cancelled']. *)
Inductive Status : Type :=
  | queued | downloading | paused | completed | failed | cancelled.

#[global] Instance Status_eq_dec : EqDecision Status.
Proof. solve_decision. Defined.

Section Model.
(** The numeric fields hold floating-point values (progress in percent,
    speed with a random part); the scheduling reads none of them, so
    their type is a parameter. *)
Context {Num : Type} (zero : Num).

Record Download : Type := mk {
  id : string;
  name : string;
  appId : Z;
  status : Status;
  progress : Num;
  speed : Num;
  size : Num;
  downloaded : Num;
  dateAdded : string;
  eta : Num;
  thumbnailUrl : option string;
  error : option string;
  steamGuardRequired : option bool }.

Definition hasStatus (s : Status) (d : Download) : bool := bool_decide (status d = s).

(** [downloads.filter(d => d.status === "downloading").length] *)
Definition activeCount (downloads : list Download) : nat :=
  length (List.filter (hasStatus downloading) downloads).

(** [downloads.find(d => d.id === id)] *)
Definition getDownload (i : string) (downloads : list Download) : option Download :=
  List.find (fun d => String.eqb (id d) i) downloads.

(** [{ ...d, status: s, speed: v }] *)
Definition started (s : Status) (v : Num) (d : Download) : Download :=
  mk (id d) (name d) (appId d) s (progress d) v (size d) (downloaded d) (dateAdded d)
     (eta d) (thumbnailUrl d) (error d) (steamGuardRequired d).

(** [{ ...d, status: s, speed: 0, eta: 0 }] *)
Definition stopped (s : Status) (d : Download) : Download :=
  mk (id d) (name d) (appId d) s (progress d) zero (size d) (downloaded d) (dateAdded d)
     zero (thumbnailUrl d) (error d) (steamGuardRequired d).

(** [{ ...d, status: s, speed: v, error: undefined }] *)
Definition resumed (s : Status) (v : Num) (d : Download) : Download :=
  mk (id d) (name d) (appId d) s (progress d) v (size d) (downloaded d) (dateAdded d)
     (eta d) (thumbnailUrl d) None (steamGuardRequired d).

(** [{ ...d, status: s, progress: 0, downloaded: 0, speed: v, eta: 0,
    error: undefined }] *)
Definition retried (s : Status) (v : Num) (d : Download) : Download :=
  mk (id d) (name d) (appId d) s zero v (size d) zero (dateAdded d)
     zero (thumbnailUrl d) None (steamGuardRequired d).

(** [prev.map(d => d.id === id ? f(d) : d)]; [f] gets the index of the
    row, which stands for the draw of [Math.random()] made for it. *)
Definition mapRow (i : string) (f : nat -> Download -> Download)
    (downloads : list Download) : list Download :=
  imap (fun k d => if String.eqb (id d) i then f k d else d) downloads.

(** The effect "auto-start queued downloads when active downloads
    finish", run on the state it was rendered with; [random k] is the
    speed drawn for row [k]. *)
Definition autoStart (maxConcurrentDownloads : Z) (random : nat -> Num)
    (downloads : list Download) : list Download :=
  let active := Z.of_nat (activeCount downloads) in
  if Z.ltb active maxConcurrentDownloads then
    let queuedRows := List.filter (hasStatus queued) downloads in
    let toStart := Routes.slice0 (maxConcurrentDownloads - active) queuedRows in
    if Nat.ltb 0 (length toStart)
    then imap (fun k d =>
                 if existsb (fun q => String.eqb (id q) (id d)) toStart
                 then started downloading (random k) d else d) downloads
    else downloads
  else downloads.

(** [addDownload]; [newId] is what [generateUniqueId()] gives and [now]
    the ISO date. *)
Definition addDownload (newId now : string) (download : Download)
    (downloads : list Download) : list Download :=
  (downloads ++
   [mk newId (name download) (appId download) queued zero (speed download) (size download)
       zero now zero (thumbnailUrl download) (error download)
       (steamGuardRequired download)])%list.

Definition removeDownload (i : string) (downloads : list Download) : list Download :=
  match getDownload i downloads with
  | None => downloads
  | Some _ => List.filter (fun d => negb (String.eqb (id d) i)) downloads
  end.

Definition pauseDownload (i : string) (downloads : list Download) : list Download :=
  match getDownload i downloads with
  | None => downloads
  | Some download =>
      if bool_decide (status download ≠ downloading) then downloads
      else mapRow i (fun _ => stopped paused) downloads
  end.

(** The status [resumeDownload] and [retryDownload] choose. *)
Definition newStatus (maxConcurrentDownloads : Z) (downloads : list Download) : Status :=
  if Z.ltb (Z.of_nat (activeCount downloads)) maxConcurrentDownloads
  then downloading else queued.

Definition resumeDownload (maxConcurrentDownloads : Z) (random : nat -> Num) (i : string)
    (downloads : list Download) : list Download :=
  match getDownload i downloads with
  | None => downloads
  | Some download =>
      if bool_decide (status download ≠ paused) && bool_decide (status download ≠ failed)
      then downloads
      else
        let s := newStatus maxConcurrentDownloads downloads in
        mapRow i (fun k => resumed s (if bool_decide (s = downloading) then random k else zero))
               downloads
  end.

Definition cancelDownload (i : string) (downloads : list Download) : list Download :=
  match getDownload i downloads with
  | None => downloads
  | Some download =>
      if bool_decide (status download = completed) || bool_decide (status download = cancelled)
      then downloads
      else mapRow i (fun _ => stopped cancelled) downloads
  end.

Definition retryDownload (maxConcurrentDownloads : Z) (random : nat -> Num) (i : string)
    (downloads : list Download) : list Download :=
  match getDownload i downloads with
  | None => downloads
  | Some download =>
      if bool_decide (status download ≠ failed) && bool_decide (status download ≠ cancelled)
      then downloads
      else
        let s := newStatus maxConcurrentDownloads downloads in
        mapRow i (fun k => retried s (if bool_decide (s = downloading) then random k else zero))
               downloads
  end.

(** The calls of the client that change no id. *)
Inductive Op : Type :=
  | Pause (i : string)
  | Resume (i : string)
  | Cancel (i : string)
  | Retry (i : string)
  | Remove (i : string)
  | AutoStart.

Definition step (maxConcurrentDownloads : Z) (random : nat -> Num) (op : Op)
    (downloads : list Download) : list Download :=
  match op with
  | Pause i => pauseDownload i downloads
  | Resume i => resumeDownload maxConcurrentDownloads random i downloads
  | Cancel i => cancelDownload i downloads
  | Retry i => retryDownload maxConcurrentDownloads random i downloads
  | Remove i => removeDownload i downloads
  | AutoStart => autoStart maxConcurrentDownloads random downloads
  end.

(** A run of such calls, each with the draws of [Math.random()] it
    makes. *)
Definition run (maxConcurrentDownloads : Z) (ops : list ((nat -> Num) * Op))
    (downloads : list Download) : list Download :=
  fold_left (fun acc ro => step maxConcurrentDownloads (fst ro) (snd ro) acc) ops downloads.

End Model.

End Client.

(** Sample rows of the client, with integers for the numeric fields. *)
Module ClientSample.

Definition row (i : string) (s : Client.Status) : Client.Download (Num:=Z) :=
  Client.mk i "Game" 730 s 0 0 1000 0 "2024-01-01T00:00:00.000Z" 0 None None None.

Definition table : list (Client.Download (Num:=Z)) :=
  [row "a" Client.downloading; row "b" Client.queued; row "c" Client.paused;
   row "d" Client.queued; row "e" Client.queued].

Definition random (k : nat) : Z := 10000000 + Z.of_nat k.

End ClientSample.

(** Two downloads paused one after the other while a third is active,
    as the requests of a fresh server (limit 1) leave them; then both
    resumed, the second one first. *)
Module ResumeSample.

Definition twoPausedOneActive : Routes.Server :=
  Routes.run Routes.DeleteMissing
    [(1, Routes.Enqueue (Some (Sample.request "730")));
     (2, Routes.Pause (Some 1));
     (3, Routes.Enqueue (Some (Sample.request "440")));
     (4, Routes.Pause (Some 2));
     (5, Routes.Enqueue (Some (Sample.request "570")))]
    Routes.initial.

Definition resumedSecondThenFirst : Routes.Server :=
  Routes.run Routes.DeleteMissing
    [(6, Routes.Resume (Some 2)); (7, Routes.Resume (Some 1))]
    twoPausedOneActive.

End ResumeSample.

(** ** compressor.ts: [compressGame] between its awaits *)

Module Async.

(** [compressGame] is an async function. A call runs up to
    [await storage.getLibraryGameByAppId(appId)] at once, from there up to
    [await this.calculateDirectorySize(...)] in a later microtask and
    the rest in another one; other calls can run in between. The
    [CompressionJob] objects are shared: the registry holds references,
    and the catch block changes the object the registry holds at that
    moment, in place. Here an object is known by its index in
    [objects], in the order of creation. *)
Record Store : Type := mk {
  objects : list Compressor.Job.t;
  activeCompressionJobs : gmap string nat;
  libraryGamesList : gmap string Compressor.LibraryGame.t }.

(** Where a call stands: suspended at the first await, which resolves
    to what the library held when the call was made; suspended at the
    second, its job object created; or returned. *)
Inductive Call : Type :=
  | AwaitsLibrary (game : option Compressor.LibraryGame.t)
  | AwaitsSize (compressionJob : nat)
  | ReturnsNull
  | Streaming (compressionJob : nat).

(** [activeCompressionJobs.get(appId)], the object itself. *)
Definition getJob (a : string) (st : Store) : option Compressor.Job.t :=
  activeCompressionJobs st !! a ≫= (fun ref => objects st !! ref).

(** The call itself: the test for a job in progress, then the library
    lookup, whose promise the call awaits. *)
Definition start (a : string) (st : Store) : Call :=
  if match getJob a st with
     | Some existingJob => Compressor.inProgress existingJob
     | None => false
     end
  then ReturnsNull
  else AwaitsLibrary (libraryGamesList st !! a).

(** The [catch] block. *)
Definition catchBlock (now : Date) (msg : string) (a : string) (st : Store) : Store :=
  match activeCompressionJobs st !! a with
  | Some ref =>
      mk (alter (Compressor.markFailed now msg) ref (objects st))
         (activeCompressionJobs st) (libraryGamesList st)
  | None => st
  end.

(** [compressionJob.totalBytes = totalSize] *)
Definition withTotal (totalSize : Z) (j : Compressor.Job.t) : Compressor.Job.t :=
  Compressor.Job.mk (Compressor.Job.appId j) (Compressor.Job.title j)
    (Compressor.Job.status j) (Compressor.Job.progress j) (Compressor.Job.format j)
    (Compressor.Job.startTime j) (Compressor.Job.endTime j) (Compressor.Job.error j)
    (Compressor.Job.outputPath j) (Some totalSize) (Compressor.Job.compressedBytes j).

(** The microtask that takes a suspended call to its next await or to
    its return. *)
Definition resume (now : Date) (env : Compressor.Env) (a : string)
    (fmt : Compressor.CompressionFormat) (c : Call) (st : Store) : Call * Store :=
  match c with
  | AwaitsLibrary None => (ReturnsNull, st)
  | AwaitsLibrary (Some game) =>
      if negb (Compressor.existsSync env (Compressor.LibraryGame.installPath game))
      then (ReturnsNull, st)
      else
        match Compressor.prepareOutput env with
        | inl msg => (ReturnsNull, catchBlock now msg a st)
        | inr outputPath =>
            let compressionJob :=
              Compressor.Job.mk a (Compressor.LibraryGame.title game) Compressor.compressing
                0 fmt now None None (Some outputPath) None None in
            let ref := length (objects st) in
            (AwaitsSize ref,
             mk (objects st ++ [compressionJob])%list
                (<[a := ref]> (activeCompressionJobs st)) (libraryGamesList st))
        end
  | AwaitsSize ref =>
      match Compressor.calculateDirectorySize env with
      | inl msg => (ReturnsNull, catchBlock now msg a st)
      | inr totalSize =>
          (Streaming ref,
           mk (alter (withTotal totalSize) ref (objects st))
              (<[a := ref]> (activeCompressionJobs st)) (libraryGamesList st))
      end
  | ReturnsNull => (ReturnsNull, st)
  | Streaming ref => (Streaming ref, st)
  end.

(** One call with no other call in between. *)
Definition oneCall (now : Date) (env : Compressor.Env) (a : string)
    (fmt : Compressor.CompressionFormat) (st : Store) : Call * Store :=
  let '(c, st1) := resume now env a fmt (start a st) st in
  resume now env a fmt c st1.

(** Two calls for the same app made in one synchronous stretch, as in
    [compressGame(a, fmt1); compressGame(a, fmt2)]: both run to their
    first await, then the microtasks run in the order they were
    queued. *)
Definition twoCalls (now1 now2 : Date) (env1 env2 : Compressor.Env) (a : string)
    (fmt1 fmt2 : Compressor.CompressionFormat) (st : Store) : Call * Call * Store :=
  let c1 := start a st in
  let c2 := start a st in
  let '(c1, st) := resume now1 env1 a fmt1 c1 st in
  let '(c2, st) := resume now2 env2 a fmt2 c2 st in
  let '(c1, st) := resume now1 env1 a fmt1 c1 st in
  let '(c2, st) := resume now2 env2 a fmt2 c2 st in
  (c1, c2, st).

(** The registry with the objects in place of the references. *)
Definition view (st : Store) : Compressor.State :=
  Compressor.mk (omap (fun ref => objects st !! ref) (activeCompressionJobs st))
                (libraryGamesList st).

(** Every reference of the registry is to an object of the app it is
    filed under. *)
Definition wellFormed (st : Store) : Prop :=
  forall a ref,
    activeCompressionJobs st !! a = Some ref ->
    exists j, objects st !! ref = Some j /\ Compressor.Job.appId j = a.

End Async.

(** A library with app 730 installed, no job object yet; a second
    environment that differs in the output path. *)
Module AsyncSample.

Definition store : Async.Store :=
  Async.mk [] ∅ (Compressor.libraryGamesList Sample.compressorState).

Definition env2 : Compressor.Env :=
  Compressor.mkEnv (fun _ => true) (inr "/games/compressed/Counter_Strike_2.zip") (inr 1000).

End AsyncSample.

(** * Properties *)

(** ** The downloads map *)

Section JsMapFacts.
Context {V : Type}.
Implicit Types (m : list (Z * V)) (k : Z) (v : V).

Lemma get_set_eq m k v : JsMap.get k (JsMap.set k v m) = Some v.
Proof.
  induction m as [|[k' v'] r IH]; simpl.
  - now rewrite Z.eqb_refl.
  - destruct (Z.eqb k' k) eqn:E; simpl.
    + now rewrite Z.eqb_refl.
    + now rewrite E.
Qed.

Lemma get_set_ne m k k' v : k <> k' -> JsMap.get k' (JsMap.set k v m) = JsMap.get k' m.
Proof.
  intros Hne. induction m as [|[k0 v0] r IH]; simpl.
  - destruct (Z.eqb k k') eqn:E; [apply Z.eqb_eq in E; contradiction | reflexivity].
  - destruct (Z.eqb k0 k) eqn:E; simpl.
    + apply Z.eqb_eq in E. subst k0.
      destruct (Z.eqb k k') eqn:E'; [apply Z.eqb_eq in E'; contradiction | reflexivity].
    + destruct (Z.eqb k0 k'); [reflexivity | exact IH].
Qed.

Lemma get_set m k k' v :
  JsMap.get k' (JsMap.set k v m) = if Z.eqb k k' then Some v else JsMap.get k' m.
Proof.
  destruct (Z.eqb k k') eqn:E.
  - apply Z.eqb_eq in E. subst. apply get_set_eq.
  - apply Z.eqb_neq in E. now apply get_set_ne.
Qed.

Lemma get_delete_ne m k k' : k <> k' -> JsMap.get k' (JsMap.delete k m) = JsMap.get k' m.
Proof.
  intros Hne. induction m as [|[k0 v0] r IH]; simpl; [reflexivity|].
  destruct (Z.eqb k0 k) eqn:E; simpl.
  - apply Z.eqb_eq in E. subst k0.
    destruct (Z.eqb k k') eqn:E'; [apply Z.eqb_eq in E'; contradiction | reflexivity].
  - destruct (Z.eqb k0 k'); [reflexivity | exact IH].
Qed.
End JsMapFacts.

(** ** Counting rows by status *)

Lemma length_insertByRank x l :
  length (Storage.insertByRank x l) = S (length l).
Proof.
  induction l as [|y r IH]; simpl; [reflexivity|].
  destruct (Z.leb _ _); simpl; [reflexivity | now rewrite IH].
Qed.

Lemma length_sortByRank l : length (Storage.sortByRank l) = length l.
Proof.
  induction l as [|x r IH]; simpl; [reflexivity|].
  now rewrite length_insertByRank, IH.
Qed.

Lemma activeCount_countStatus w :
  Routes.activeCount w =
  Z.of_nat (countStatus downloading (Storage.downloadsList (Routes.storage w))).
Proof.
  unfold Routes.activeCount, Storage.getActiveDownloads, countStatus.
  now rewrite length_sortByRank.
Qed.

Lemma countStatus_cons s k d m :
  countStatus s ((k, d) :: m) =
  ((if Storage.hasStatus s d then 1 else 0) + countStatus s m)%nat.
Proof. unfold countStatus; simpl. destruct (Storage.hasStatus s d); reflexivity. Qed.

(** One [Map.set] adds at most one row of any status. *)
Lemma countStatus_set_le s k d m :
  (countStatus s (JsMap.set k d m) <= S (countStatus s m))%nat.
Proof.
  induction m as [|[k0 d0] r IH]; simpl.
  - rewrite countStatus_cons. unfold countStatus; simpl.
    destruct (Storage.hasStatus s d); lia.
  - destruct (Z.eqb k0 k); rewrite !countStatus_cons.
    + destruct (Storage.hasStatus s d), (Storage.hasStatus s d0); lia.
    + lia.
Qed.

(** Writing a row of another status adds none. *)
Lemma countStatus_set_other s k d m :
  Download.status d <> s ->
  (countStatus s (JsMap.set k d m) <= countStatus s m)%nat.
Proof.
  intros Hs.
  assert (Hd : Storage.hasStatus s d = false)
    by (unfold Storage.hasStatus; now apply bool_decide_eq_false).
  induction m as [|[k0 d0] r IH]; simpl.
  - rewrite countStatus_cons, Hd. unfold countStatus; simpl; lia.
  - destruct (Z.eqb k0 k); rewrite !countStatus_cons.
    + rewrite Hd. lia.
    + lia.
Qed.

(** Rewriting a row without touching its status keeps every count. *)
Lemma countStatus_set_same s k d d0 m :
  JsMap.get k m = Some d0 -> Download.status d = Download.status d0 ->
  countStatus s (JsMap.set k d m) = countStatus s m.
Proof.
  intros Hget Hst. induction m as [|[k1 d1] r IH]; simpl in *; [discriminate|].
  destruct (Z.eqb k1 k); rewrite !countStatus_cons.
  - inversion Hget; subst d1. unfold Storage.hasStatus. now rewrite Hst.
  - now rewrite IH.
Qed.

Lemma countStatus_delete_le s k m :
  (countStatus s (JsMap.delete k m) <= countStatus s m)%nat.
Proof.
  induction m as [|[k0 d0] r IH]; simpl; [lia|].
  destruct (Z.eqb k0 k); rewrite !countStatus_cons; lia.
Qed.

(** ** [updateDownload] *)

Lemma updated_status now (u : Partial.t) (d : Download.t) :
  Download.status
    (if Storage.stampsCompletion u
     then Storage.setDateCompleted (Some now) (Storage.merge d u)
     else Storage.merge d u)
  = default (Download.status d) (Partial.status u).
Proof. destruct (Storage.stampsCompletion u); reflexivity. Qed.

Lemma updateDownload_settings now i u s :
  Storage.appSettings (snd (Storage.updateDownload now i u s)) = Storage.appSettings s.
Proof.
  unfold Storage.updateDownload. destruct (JsMap.get i _); reflexivity.
Qed.

Lemma updateDownload_count_le now i u s st :
  (countStatus st (Storage.downloadsList (snd (Storage.updateDownload now i u s)))
   <= S (countStatus st (Storage.downloadsList s)))%nat.
Proof.
  unfold Storage.updateDownload. destruct (JsMap.get i _); simpl; [|lia].
  apply countStatus_set_le.
Qed.

Lemma updateDownload_count_other now i u s st st' :
  Partial.status u = Some st' -> st' <> st ->
  (countStatus st (Storage.downloadsList (snd (Storage.updateDownload now i u s)))
   <= countStatus st (Storage.downloadsList s))%nat.
Proof.
  intros Hu Hne. unfold Storage.updateDownload.
  destruct (JsMap.get i _) as [d|]; simpl; [|lia].
  apply countStatus_set_other. rewrite updated_status, Hu. exact Hne.
Qed.

(** ** The admission pass *)

Lemma startDownload_storage now i w :
  Routes.storage (Routes.startDownload now i w) =
  snd (Storage.updateDownload now i (Partial.ofStatus downloading) (Routes.storage w)).
Proof.
  unfold Routes.startDownload. destruct (Storage.getDownloadById _ _); reflexivity.
Qed.

Lemma startAll_settings now (l : list Download.t) w :
  Storage.appSettings
    (Routes.storage
       (fold_left (fun w' d => Routes.startDownload now (Download.id d) w') l w))
  = Storage.appSettings (Routes.storage w).
Proof.
  revert w. induction l as [|d r IH]; intros w; simpl; [reflexivity|].
  now rewrite IH, startDownload_storage, updateDownload_settings.
Qed.

Lemma startAll_count now (l : list Download.t) w :
  (countStatus downloading
     (Storage.downloadsList
        (Routes.storage
           (fold_left (fun w' d => Routes.startDownload now (Download.id d) w') l w)))
   <= countStatus downloading (Storage.downloadsList (Routes.storage w)) + length l)%nat.
Proof.
  revert w. induction l as [|d r IH]; intros w; simpl; [lia|].
  etransitivity; [apply IH|].
  rewrite startDownload_storage.
  pose proof (updateDownload_count_le now (Download.id d)
                (Partial.ofStatus downloading) (Routes.storage w) downloading).
  lia.
Qed.

Lemma length_slice0 {A : Type} (e : Z) (l : list A) :
  0 <= e -> Z.of_nat (length (Routes.slice0 e l)) <= e.
Proof.
  intros He. unfold Routes.slice0.
  destruct (Z.ltb e 0) eqn:E; [apply Z.ltb_lt in E; lia|].
  rewrite length_firstn. lia.
Qed.

Lemma pass_limit now w :
  Routes.limit (Routes.processDownloadQueue now w) = Routes.limit w.
Proof.
  unfold Routes.processDownloadQueue.
  destruct (Nat.ltb _ _); [reflexivity|].
  destruct (Storage.getSettings _) as [st|] eqn:Hs; [|reflexivity].
  destruct (Nat.eqb _ _); [reflexivity|].
  unfold Routes.limit, Storage.getSettings. now rewrite startAll_settings.
Qed.

(** A pass started within the limit ends within the limit: it admits
    nothing while a row is active, and at most [m] rows otherwise. *)
Lemma pass_withinLimit now m w :
  1 <= m -> withinLimit m w -> withinLimit m (Routes.processDownloadQueue now w).
Proof.
  intros Hm [Hl Hc]. split; [now rewrite pass_limit|].
  unfold Routes.processDownloadQueue.
  destruct (Nat.ltb _ _) eqn:Hact; [exact Hc|].
  apply Nat.ltb_ge in Hact.
  unfold Routes.limit in Hl.
  destruct (Storage.getSettings _) as [st|] eqn:Hs; [|exact Hc].
  simpl in Hl. rewrite Hl.
  destruct (Nat.eqb _ _); [exact Hc|].
  assert (Hz : Z.eqb m 0 = false) by (apply Z.eqb_neq; lia).
  rewrite Hz, activeCount_countStatus.
  pose proof (startAll_count now
    (Routes.slice0 m (Storage.getQueuedDownloads (Routes.storage w))) w) as Hb.
  pose proof (length_slice0 m (Storage.getQueuedDownloads (Routes.storage w))) as Hlen.
  unfold Storage.getActiveDownloads in Hact. rewrite length_sortByRank in Hact.
  unfold countStatus in Hb at 2. lia.
Qed.

(** A change of the table that leaves the settings alone and adds no
    active row keeps the invariant. *)
Lemma withStorage_withinLimit m s w :
  withinLimit m w ->
  Storage.appSettings s = Storage.appSettings (Routes.storage w) ->
  (countStatus downloading (Storage.downloadsList s)
   <= countStatus downloading (Storage.downloadsList (Routes.storage w)))%nat ->
  forall st jobs, withinLimit m (Routes.mk s st jobs).
Proof.
  intros [Hl Hc] Hs Hle st jobs. split.
  - unfold Routes.limit, Storage.getSettings in *. simpl. now rewrite Hs.
  - rewrite activeCount_countStatus in *. simpl. lia.
Qed.

Lemma stopIfActive_storage i d w :
  Routes.storage (Routes.stopIfActive i d w) = Routes.storage w.
Proof. unfold Routes.stopIfActive. destruct (bool_decide _); reflexivity. Qed.

Lemma reorderFrom_count s i (l : list Z) m :
  countStatus s (Storage.reorderFrom i l m) = countStatus s m.
Proof.
  revert i m. induction l as [|k r IH]; intros i m; simpl; [reflexivity|].
  rewrite IH. destruct (JsMap.get k m) as [d|] eqn:Hget; [|reflexivity].
  now apply countStatus_set_same with (d0 := d).
Qed.

Lemma createDownload_count now data s :
  (countStatus downloading (Storage.downloadsList (snd (Storage.createDownload now data s)))
   <= countStatus downloading (Storage.downloadsList s))%nat.
Proof. simpl. now apply countStatus_set_other. Qed.

(** Every request and event keeps the invariant. *)
Lemma step_withinLimit now b op m w :
  1 <= m -> withinLimit m w -> withinLimit m (Routes.step now b op w).
Proof.
  intros Hm Hw. destruct op as [body|body|id|id|id|id|i o|i h|]; simpl.
  - (* enqueue *)
    unfold Routes.postDownload. destruct body as [data|]; [|exact Hw].
    destruct (Storage.getDownloadByAppId _ _); [exact Hw|].
    simpl. apply pass_withinLimit; [exact Hm|].
    apply withStorage_withinLimit with (w := w); [exact Hw|reflexivity|].
    apply (createDownload_count now data).
  - (* reorder *)
    unfold Routes.postReorder. destruct body as [order|]; [|exact Hw].
    simpl. apply withStorage_withinLimit with (w := w); [exact Hw|reflexivity|].
    simpl. now rewrite reorderFrom_count.
  - (* pause *)
    unfold Routes.postPause. destruct id as [i|]; [|exact Hw].
    destruct (Storage.getDownloadById _ _); [|exact Hw].
    destruct (bool_decide _); [exact Hw|].
    simpl. apply pass_withinLimit; [exact Hm|].
    apply withStorage_withinLimit with (w := w);
      [exact Hw|apply updateDownload_settings|].
    now apply updateDownload_count_other with (st' := paused).
  - (* resume *)
    unfold Routes.postResume. destruct id as [i|]; [|exact Hw].
    destruct (Storage.getDownloadById _ _); [|exact Hw].
    destruct (bool_decide _); [exact Hw|].
    simpl. apply pass_withinLimit; [exact Hm|].
    apply withStorage_withinLimit with (w := w);
      [exact Hw|apply updateDownload_settings|].
    now apply updateDownload_count_other with (st' := queued).
  - (* cancel *)
    unfold Routes.postCancel. destruct id as [i|]; [|exact Hw].
    destruct (Storage.getDownloadById _ _) as [d|]; [|exact Hw].
    simpl. apply pass_withinLimit; [exact Hm|].
    apply withStorage_withinLimit with (w := w); [exact Hw| |].
    + now rewrite updateDownload_settings, stopIfActive_storage.
    + rewrite stopIfActive_storage.
      now apply updateDownload_count_other with (st' := canceled).
  - (* remove *)
    unfold Routes.deleteDownloadRoute. destruct id as [i|]; [|exact Hw].
    destruct (Storage.getDownloadById _ _) as [d|]; [|exact Hw].
    assert (Hstop : withinLimit m (Routes.stopIfActive i d w)).
    { destruct Hw as [Hl Hc]. split.
      - unfold Routes.limit in *. now rewrite stopIfActive_storage.
      - rewrite activeCount_countStatus in *. now rewrite stopIfActive_storage. }
    destruct b; simpl; [exact Hstop|].
    apply pass_withinLimit; [exact Hm|].
    apply withStorage_withinLimit with (w := Routes.stopIfActive i d w);
      [exact Hstop|reflexivity|].
    simpl. apply countStatus_delete_le.
  - (* a transfer settles *)
    unfold Routes.settled. apply pass_withinLimit; [exact Hm|].
    apply withStorage_withinLimit with (w := w);
      [exact Hw|apply updateDownload_settings|].
    simpl. destruct o as [[|]|msg].
    + now apply updateDownload_count_other with (st' := completed).
    + now apply updateDownload_count_other with (st' := failed).
    + now apply updateDownload_count_other with (st' := failed).
  - (* a process is registered *)
    now apply withStorage_withinLimit with (w := w).
  - (* a bare pass *)
    now apply pass_withinLimit.
Qed.

Lemma run_withinLimit b m (ops : list (Date * Routes.Op)) w :
  1 <= m -> withinLimit m w -> withinLimit m (Routes.run b ops w).
Proof.
  intros Hm. revert w. induction ops as [|[now op] r IH]; intros w Hw; simpl.
  - exact Hw.
  - apply IH. now apply step_withinLimit.
Qed.

(** ** C1: the concurrency limit *)

(** C1. Whatever the reading of the DELETE route, for every limit
    [m >= 1] held by the settings, every server state that is within the
    limit (the fresh server is) and every sequence of enqueue, reorder,
    pause, resume, cancel and remove requests, transfer outcomes,
    process registrations and bare passes, each request with the
    admission pass its handler triggers: after every prefix of the
    sequence the number of ['downloading'] rows is at most [m]. *)
Theorem C1_active_never_exceeds_limit :
  forall (b : Routes.DeleteBinding) (m : Z) (ops : list (Date * Routes.Op))
         (w : Routes.Server) (k : nat),
    1 <= m ->
    Routes.limit w = Some m ->
    Routes.activeCount w <= m ->
    Routes.activeCount (Routes.run b (firstn k ops) w) <= m.
Proof.
  intros b m ops w k Hm Hl Hc.
  apply (run_withinLimit b m (firstn k ops) w Hm). now split.
Qed.

(** [C1_active_never_exceeds_limit] at limit 2: three enqueues, a pause
    and a resume on the fresh server. *)
Lemma C1_witness :
  1 <= 2 /\
  Routes.limit (Sample.server 2 []) = Some 2 /\
  Routes.activeCount (Sample.server 2 []) <= 2 /\
  Routes.activeCount
    (Routes.run Routes.DeleteIsRemove
       (firstn 5 [(10, Routes.Enqueue (Some (Sample.request "730")));
                  (20, Routes.Enqueue (Some (Sample.request "440")));
                  (30, Routes.Enqueue (Some (Sample.request "570")));
                  (40, Routes.Pause (Some 1));
                  (50, Routes.Resume (Some 1))])
       (Sample.server 2 [])) <= 2.
Proof.
  assert (H1 : 1 <= 2) by lia.
  assert (H2 : Routes.limit (Sample.server 2 []) = Some 2) by reflexivity.
  assert (H3 : Routes.activeCount (Sample.server 2 []) <= 2) by (vm_compute; discriminate).
  repeat split; try assumption.
  exact (C1_active_never_exceeds_limit Routes.DeleteIsRemove 2 _ _ 5%nat H1 H2 H3).
Defined.

(** ** The queue scan *)

(** The scan is a rearrangement of its input, in ascending order of
    [queuePosition || 999]; rows of equal rank keep their order. *)
Lemma insertByRank_perm x l : Permutation (Storage.insertByRank x l) (x :: l).
Proof.
  induction l as [|y r IH]; simpl; [reflexivity|].
  destruct (Z.leb _ _); [reflexivity|].
  rewrite IH. apply perm_swap.
Qed.

Lemma sortByRank_perm l : Permutation (Storage.sortByRank l) l.
Proof.
  induction l as [|x r IH]; simpl; [reflexivity|].
  now rewrite insertByRank_perm, IH.
Qed.

Lemma insertByRank_sorted x l :
  StronglySorted (fun a b => Storage.rank a <= Storage.rank b) l ->
  StronglySorted (fun a b => Storage.rank a <= Storage.rank b) (Storage.insertByRank x l).
Proof.
  induction l as [|y r IH]; intros Hs; simpl.
  - constructor; constructor.
  - inversion Hs as [|? ? Hr Hall]; subst.
    destruct (Z.leb (Storage.rank x) (Storage.rank y)) eqn:E.
    + apply Z.leb_le in E. constructor; [exact Hs|].
      constructor; [exact E|].
      eapply Forall_impl; [exact Hall|]. intros z Hz. simpl in Hz. lia.
    + apply Z.leb_gt in E. constructor; [now apply IH|].
      eapply Permutation_Forall; [symmetry; apply insertByRank_perm|].
      constructor; [lia | exact Hall].
Qed.

Lemma sortByRank_sorted l :
  StronglySorted (fun a b => Storage.rank a <= Storage.rank b) (Storage.sortByRank l).
Proof.
  induction l as [|x r IH]; simpl; [constructor | now apply insertByRank_sorted].
Qed.

(** ** C2: what the pass does while a row is active *)

(** While a row is ['downloading'] the pass returns at once. *)
Lemma pass_returns_while_active now w :
  0 < Routes.activeCount w -> Routes.processDownloadQueue now w = w.
Proof.
  unfold Routes.activeCount, Routes.processDownloadQueue. intros H.
  destruct (Nat.ltb _ _) eqn:E; [reflexivity|].
  apply Nat.ltb_ge in E. lia.
Qed.

(** C2. With one row active, another queued and a limit of two, the
    pass admits nothing: the server is unchanged and the queued row is
    still queued. *)
Theorem C2_pass_admits_nothing_while_one_is_active :
  Routes.limit Sample.oneActiveOneQueued = Some 2 /\
  Routes.activeCount Sample.oneActiveOneQueued = 1 /\
  map Download.id (Storage.getQueuedDownloads (Routes.storage Sample.oneActiveOneQueued)) = [2] /\
  Routes.processDownloadQueue 100 Sample.oneActiveOneQueued = Sample.oneActiveOneQueued /\
  Routes.activeCount (Routes.processDownloadQueue 100 Sample.oneActiveOneQueued) = 1.
Proof. repeat split; reflexivity. Qed.

(** ** What the pass does to a row *)

Lemma startDownload_get now k i w :
  Storage.getDownloadById i (Routes.storage (Routes.startDownload now k w)) =
  match Storage.getDownloadById i (Routes.storage w) with
  | Some d => Some (if Z.eqb k i then Storage.merge d (Partial.ofStatus downloading) else d)
  | None => None
  end.
Proof.
  rewrite startDownload_storage. unfold Storage.updateDownload, Storage.getDownloadById.
  destruct (JsMap.get k _) as [dk|] eqn:Hk; simpl.
  - rewrite get_set. destruct (Z.eqb k i) eqn:E.
    + apply Z.eqb_eq in E. subst i. now rewrite Hk.
    + now destruct (JsMap.get i _).
  - destruct (Z.eqb k i) eqn:E.
    + apply Z.eqb_eq in E. subst i. now rewrite Hk.
    + now destruct (JsMap.get i _).
Qed.

Lemma admittedOrSame_step d d1 :
  admittedOrSame d d1 ->
  admittedOrSame d (Storage.merge d1 (Partial.ofStatus downloading)).
Proof. intros [->| ->]; right; [reflexivity | now destruct d]. Qed.

Lemma startAll_get now (l : list Download.t) w i d :
  Storage.getDownloadById i (Routes.storage w) = Some d ->
  exists d',
    Storage.getDownloadById i
      (Routes.storage
         (fold_left (fun w' x => Routes.startDownload now (Download.id x) w') l w))
    = Some d' /\ admittedOrSame d d'.
Proof.
  revert w d.
  assert (G : forall w d0 d, admittedOrSame d0 d ->
            Storage.getDownloadById i (Routes.storage w) = Some d ->
            exists d',
              Storage.getDownloadById i
                (Routes.storage
                   (fold_left (fun w' x => Routes.startDownload now (Download.id x) w') l w))
              = Some d' /\ admittedOrSame d0 d').
  { induction l as [|x r IH]; intros w d0 d Hadm Hget; simpl.
    - now exists d.
    - eapply IH; [|rewrite startDownload_get, Hget; reflexivity].
      destruct (Z.eqb _ _); [now apply admittedOrSame_step | exact Hadm]. }
  intros w d Hget. apply (G w d d); [now left | exact Hget].
Qed.

(** The pass keeps every row and changes at most its status, to
    ['downloading']. *)
Lemma pass_get now w i d :
  Storage.getDownloadById i (Routes.storage w) = Some d ->
  exists d',
    Storage.getDownloadById i (Routes.storage (Routes.processDownloadQueue now w)) = Some d'
    /\ admittedOrSame d d'.
Proof.
  intros Hget. unfold Routes.processDownloadQueue.
  destruct (Nat.ltb _ _); [exists d; split; [exact Hget | now left]|].
  destruct (Storage.getSettings _); [|exists d; split; [exact Hget | now left]].
  destruct (Nat.eqb _ _); [exists d; split; [exact Hget | now left]|].
  now apply startAll_get.
Qed.

Lemma admittedOrSame_fields d d' :
  admittedOrSame d d' ->
  (Download.status d' = Download.status d \/ Download.status d' = downloading) /\
  Download.id d' = Download.id d /\
  Download.appId d' = Download.appId d /\
  Download.queuePosition d' = Download.queuePosition d /\
  Download.progress d' = Download.progress d.
Proof. intros [->| ->]; simpl; auto 10. Qed.

(** ** C3: enqueueing an app that already has a row *)

(** The lookup by app finds a row exactly when the table holds one for
    the app, whatever the status of the row. *)
Lemma getDownloadByAppId_finds (a : string) (s : Storage.MemStorage) (d : Download.t) :
  In d (JsMap.values (Storage.downloadsList s)) ->
  Download.appId d = a ->
  exists e, Storage.getDownloadByAppId a s = Some e /\ Download.appId e = a.
Proof.
  unfold Storage.getDownloadByAppId. intros Hin Happ.
  destruct (List.find _ _) as [e|] eqn:Hf.
  - exists e. split; [reflexivity|].
    apply find_some in Hf as [_ He]. now apply String.eqb_eq in He.
  - exfalso. pose proof (find_none _ _ Hf d Hin) as Hd. simpl in Hd.
    apply String.eqb_neq in Hd. contradiction.
Qed.

Lemma getDownloadByAppId_misses (a : string) (s : Storage.MemStorage) :
  (forall d, In d (JsMap.values (Storage.downloadsList s)) -> Download.appId d <> a) ->
  Storage.getDownloadByAppId a s = None.
Proof.
  unfold Storage.getDownloadByAppId. intros Hall.
  destruct (List.find _ _) as [e|] eqn:Hf; [|reflexivity].
  apply find_some in Hf as [Hin He]. apply String.eqb_eq in He.
  now destruct (Hall e Hin).
Qed.

(** C3, as the code has it. An enqueue request for an app is rejected
    with 409 and changes nothing whenever the table holds a row for that
    app, whatever the status of the row, a completed, failed or
    canceled one included; it succeeds with 201 when the table holds no
    row for the app, and then the table holds a new row for it under the
    id the counter held, queued or already admitted by the pass. *)
Theorem C3_enqueue_rejected_while_any_row_exists :
  forall (now : Date) (data : InsertDownload) (w : Routes.Server),
    (forall d,
        In d (JsMap.values (Storage.downloadsList (Routes.storage w))) ->
        Download.appId d = ins_appId data ->
        Routes.postDownload now (Some data) w = (409, w)) /\
    ((forall d,
         In d (JsMap.values (Storage.downloadsList (Routes.storage w))) ->
         Download.appId d <> ins_appId data) ->
     exists w' d',
       Routes.postDownload now (Some data) w = (201, w') /\
       Storage.getDownloadById (Storage.downloadCurrentId (Routes.storage w))
         (Routes.storage w') = Some d' /\
       Download.appId d' = ins_appId data /\
       Download.id d' = Storage.downloadCurrentId (Routes.storage w) /\
       (Download.status d' = queued \/ Download.status d' = downloading)).
Proof.
  intros now data w. split.
  - intros d Hin Happ.
    destruct (getDownloadByAppId_finds _ _ d Hin Happ) as (e & He & _).
    unfold Routes.postDownload. now rewrite He.
  - intros Hall. pose proof (getDownloadByAppId_misses _ _ Hall) as Hnone.
    unfold Routes.postDownload. rewrite Hnone.
    destruct (Storage.createDownload now data (Routes.storage w)) as [d0 s1] eqn:Hc.
    unfold Storage.createDownload in Hc. injection Hc as Hd0 Hs1.
    destruct (pass_get now (Routes.withStorage s1 w)
                (Storage.downloadCurrentId (Routes.storage w)) d0) as (d' & Hget & Hadm).
    { subst d0 s1. unfold Storage.getDownloadById. simpl. apply get_set_eq. }
    exists (Routes.processDownloadQueue now (Routes.withStorage s1 w)), d'.
    split; [reflexivity|]. split; [exact Hget|].
    apply admittedOrSame_fields in Hadm.
    destruct Hadm as (Hst & Hid & Happ & _ & _).
    rewrite Hid, Happ. subst d0. simpl. repeat split.
    simpl in Hst. exact Hst.
Qed.

(** [C3_enqueue_rejected_while_any_row_exists] on the fresh server and
    on a server with a finished download of the same app. *)
Lemma C3_witness :
  (exists w' d',
     Routes.postDownload 10 (Some (Sample.request "730")) (Sample.server 1 []) = (201, w') /\
     Storage.getDownloadById 1 (Routes.storage w') = Some d' /\
     Download.appId d' = "730") /\
  (In (Sample.row 1 "730" completed 1)
      (JsMap.values (Storage.downloadsList (Routes.storage Sample.oneCompleted))) /\
   Routes.postDownload 10 (Some (Sample.request "730")) Sample.oneCompleted
   = (409, Sample.oneCompleted)).
Proof.
  pose proof (C3_enqueue_rejected_while_any_row_exists 10 (Sample.request "730")
                (Sample.server 1 [])) as [_ Hnew].
  pose proof (C3_enqueue_rejected_while_any_row_exists 10 (Sample.request "730")
                Sample.oneCompleted) as [Hdup _].
  assert (Hin : In (Sample.row 1 "730" completed 1)
                   (JsMap.values (Storage.downloadsList (Routes.storage Sample.oneCompleted))))
    by (simpl; now left).
  split.
  - destruct (Hnew (fun d (H : In d []) => match H with end))
      as (w' & d' & H1 & H2 & H3 & _).
    exists w', d'. repeat split; assumption.
  - split; [exact Hin|]. exact (Hdup _ Hin eq_refl).
Defined.

(** C3, the claim as stated fails: app 730 has a completed (terminal)
    row, and a new enqueue request for it is still answered 409 and adds
    no row. *)
Lemma C3_counterexample :
  Storage.getDownloadByAppId "730" (Routes.storage Sample.oneCompleted)
  = Some (Sample.row 1 "730" completed 1) /\
  fst (Routes.postDownload 10 (Some (Sample.request "730")) Sample.oneCompleted) = 409 /\
  Storage.downloadsList
    (Routes.storage (snd (Routes.postDownload 10 (Some (Sample.request "730")) Sample.oneCompleted)))
  = [(1, Sample.row 1 "730" completed 1)].
Proof. repeat split; reflexivity. Qed.

(** ** C7: resume *)

Lemma In_set_self {V : Type} (m : list (Z * V)) k v : In (k, v) (JsMap.set k v m).
Proof.
  induction m as [|[k0 v0] r IH]; simpl; [now left|].
  destruct (Z.eqb k0 k); simpl; [now left | now right].
Qed.

(** Around any row of a list sorted by rank: the rows before it rank at
    most as high, the rows after it at least as high. *)
Lemma sorted_around (l1 l2 : list Download.t) (x : Download.t) :
  StronglySorted (fun a b => Storage.rank a <= Storage.rank b) (l1 ++ x :: l2)%list ->
  Forall (fun y => Storage.rank y <= Storage.rank x) l1 /\
  Forall (fun y => Storage.rank x <= Storage.rank y) l2.
Proof.
  induction l1 as [|y r IH]; simpl; intros Hs.
  - apply StronglySorted_inv in Hs as [_ Hall]. now split.
  - apply StronglySorted_inv in Hs as [Hs Hall]. destruct (IH Hs) as [H1 H2].
    split; [|exact H2]. constructor; [|exact H1].
    rewrite List.Forall_forall in Hall. apply Hall. apply in_or_app. right. now left.
Qed.

(** The row the resume request writes is in the queue scan the pass
    then reads. *)
Lemma resumed_in_scan now i s d :
  Storage.getDownloadById i s = Some d ->
  In (Storage.merge d (Partial.ofStatusPosition queued 0))
     (Storage.getQueuedDownloads
        (snd (Storage.updateDownload now i (Partial.ofStatusPosition queued 0) s))).
Proof.
  intros Hget. unfold Storage.updateDownload.
  unfold Storage.getDownloadById in Hget. rewrite Hget. simpl.
  unfold Storage.getQueuedDownloads. simpl.
  eapply Permutation_in; [symmetry; apply sortByRank_perm|].
  apply filter_In. split; [|reflexivity].
  unfold JsMap.values. apply in_map_iff.
  exists (i, Storage.merge d (Partial.ofStatusPosition queued 0)).
  split; [reflexivity | apply In_set_self].
Qed.

(** C7, as the code has it. For every paused row, the resume request is
    answered 200 and its update writes status ['queued'] and
    [queuePosition = 0], whatever the position of the row was and
    whatever the largest position is, leaving the other fields alone.
    The queue scan ranks position 0 as 999: in the scan the pass reads,
    the row is there, the rows before it rank at most 999 and the rows
    after it at least 999, so it stands behind every queued row that
    ranks below 999 and before every queued row that ranks above. The
    pass that follows may admit the row at once and changes nothing else
    of it. For a row that is not paused the request is answered 400 and
    the server is unchanged. *)
Theorem C7_resume_requeues_at_position_zero :
  forall (now : Date) (i : Z) (w : Routes.Server) (d : Download.t),
    Storage.getDownloadById i (Routes.storage w) = Some d ->
    (Download.status d = paused ->
     (exists w' d',
        Routes.postResume now (Some i) w = (200, w') /\
        Storage.getDownloadById i (Routes.storage w') = Some d' /\
        admittedOrSame (Storage.merge d (Partial.ofStatusPosition queued 0)) d' /\
        Download.queuePosition d' = 0 /\
        Storage.rank d' = 999 /\
        (Download.status d' = queued \/ Download.status d' = downloading)) /\
     In (Storage.merge d (Partial.ofStatusPosition queued 0))
        (Storage.getQueuedDownloads
           (snd (Storage.updateDownload now i (Partial.ofStatusPosition queued 0)
                   (Routes.storage w)))) /\
     (forall l1 l2,
         Storage.getQueuedDownloads
           (snd (Storage.updateDownload now i (Partial.ofStatusPosition queued 0)
                   (Routes.storage w)))
         = (l1 ++ Storage.merge d (Partial.ofStatusPosition queued 0) :: l2)%list ->
         Forall (fun y => Storage.rank y <= 999) l1 /\
         Forall (fun y => 999 <= Storage.rank y) l2)) /\
    (Download.status d <> paused -> Routes.postResume now (Some i) w = (400, w)).
Proof.
  intros now i w d Hget. split.
  - intros Hp. split; [|split].
    + unfold Routes.postResume. rewrite Hget.
      rewrite bool_decide_eq_false_2 by (intros H; now apply H).
      set (s1 := snd (Storage.updateDownload now i (Partial.ofStatusPosition queued 0)
                        (Routes.storage w))).
      destruct (pass_get now (Routes.withStorage s1 w) i
                  (Storage.merge d (Partial.ofStatusPosition queued 0)))
        as (d' & Hget' & Hadm).
      { subst s1. unfold Storage.updateDownload. unfold Storage.getDownloadById in Hget.
        rewrite Hget. simpl. unfold Storage.getDownloadById. simpl. apply get_set_eq. }
      exists (Routes.processDownloadQueue now (Routes.withStorage s1 w)), d'.
      split; [reflexivity|]. split; [exact Hget'|]. split; [exact Hadm|].
      pose proof (admittedOrSame_fields _ _ Hadm) as (Hst & _ & _ & Hpos & _).
      simpl in Hpos, Hst. split; [exact Hpos|]. split; [|exact Hst].
      unfold Storage.rank. now rewrite Hpos.
    + now apply resumed_in_scan.
    + intros l1 l2 Hscan.
      pose proof (sortByRank_sorted
                    (List.filter (Storage.hasStatus queued)
                       (JsMap.values
                          (Storage.downloadsList
                             (snd (Storage.updateDownload now i
                                     (Partial.ofStatusPosition queued 0)
                                     (Routes.storage w))))))) as Hs.
      fold (Storage.getQueuedDownloads
              (snd (Storage.updateDownload now i (Partial.ofStatusPosition queued 0)
                      (Routes.storage w)))) in Hs.
      rewrite Hscan in Hs. apply sorted_around in Hs. exact Hs.
  - intros Hnp. unfold Routes.postResume. rewrite Hget.
    now rewrite bool_decide_eq_true_2.
Qed.

(** [C7_resume_requeues_at_position_zero] on a paused row and on a
    queued row of the same table. *)
Lemma C7_witness :
  (Storage.getDownloadById 1 (Routes.storage Sample.pausedQueuedActive)
   = Some (Sample.row 1 "730" paused 1) /\
   exists w' d',
     Routes.postResume 50 (Some 1) Sample.pausedQueuedActive = (200, w') /\
     Storage.getDownloadById 1 (Routes.storage w') = Some d' /\
     Download.queuePosition d' = 0) /\
  (Storage.getDownloadById 2 (Routes.storage Sample.pausedQueuedActive)
   = Some (Sample.row 2 "440" queued 2) /\
   Routes.postResume 50 (Some 2) Sample.pausedQueuedActive
   = (400, Sample.pausedQueuedActive)).
Proof.
  pose proof (C7_resume_requeues_at_position_zero 50 1 Sample.pausedQueuedActive
                (Sample.row 1 "730" paused 1) eq_refl) as [Hp _].
  pose proof (C7_resume_requeues_at_position_zero 50 2 Sample.pausedQueuedActive
                (Sample.row 2 "440" queued 2) eq_refl) as [_ Hq].
  split.
  - split; [reflexivity|].
    destruct (Hp eq_refl) as ((w' & d' & H1 & H2 & _ & H3 & _) & _).
    exists w', d'. repeat split; assumption.
  - split; [reflexivity|]. apply Hq. discriminate.
Defined.

(** C7, the claim as stated fails, in both of its parts. The position:
    the largest queue position of the table is 3, so the claim puts the
    resumed row 1 at position 4; the handler leaves it queued at
    position 0. The back of the queue: on a fresh server, downloads 1
    and 2 are paused in turn while download 3 is active; download 2 is
    resumed, then download 1; the queue scan has download 1, resumed
    last, before download 2. *)
Lemma C7_counterexample :
  (Storage.getDownloadById 1 (Routes.storage Sample.pausedQueuedActive)
   = Some (Sample.row 1 "730" paused 1) /\
   Storage.maxQueue (Routes.storage Sample.pausedQueuedActive) + 1 = 4 /\
   fst (Routes.postResume 50 (Some 1) Sample.pausedQueuedActive) = 200 /\
   Storage.getDownloadById 1
     (Routes.storage (snd (Routes.postResume 50 (Some 1) Sample.pausedQueuedActive)))
   = Some (Sample.row 1 "730" queued 0)) /\
  (map (fun d => (Download.id d, Download.status d, Download.queuePosition d))
       (JsMap.values (Storage.downloadsList (Routes.storage ResumeSample.twoPausedOneActive)))
   = [(1, paused, 1); (2, paused, 2); (3, downloading, 3)] /\
   map (fun d => (Download.id d, Download.status d, Download.queuePosition d))
       (JsMap.values (Storage.downloadsList
                        (Routes.storage ResumeSample.resumedSecondThenFirst)))
   = [(1, queued, 0); (2, queued, 0); (3, downloading, 3)] /\
   map Download.id
       (Storage.getQueuedDownloads (Routes.storage ResumeSample.resumedSecondThenFirst))
   = [1; 2]).
Proof. repeat split; vm_compute; reflexivity. Qed.

(** ** C8: reorder *)

(** The loop of [updateDownloadQueue], row by row: a listed id that is
    in the map ends with the position of its last listing, anything else
    is as before. *)
Lemma reorderFrom_get (newOrder : list Z) i k m :
  JsMap.get k (Storage.reorderFrom i newOrder m) =
  match lastIndexFrom i k newOrder, JsMap.get k m with
  | Some j, Some d => Some (Storage.setQueuePosition (j + 1) d)
  | _, o => o
  end.
Proof.
  revert i m. induction newOrder as [|x r IH]; intros i m; simpl.
  - now destruct (JsMap.get k m).
  - rewrite IH. clear IH.
    assert (Hstep :
      JsMap.get k
        match JsMap.get x m with
        | Some download => JsMap.set x (Storage.setQueuePosition (i + 1) download) m
        | None => m
        end
      = if Z.eqb x k
        then option_map (Storage.setQueuePosition (i + 1)) (JsMap.get k m)
        else JsMap.get k m).
    { destruct (Z.eqb x k) eqn:E.
      - apply Z.eqb_eq in E. subst x.
        destruct (JsMap.get k m) as [d|] eqn:Hk; simpl; [apply get_set_eq | exact Hk].
      - apply Z.eqb_neq in E.
        destruct (JsMap.get x m); [now apply get_set_ne | reflexivity]. }
    rewrite Hstep.
    destruct (lastIndexFrom (i + 1) k r) as [j|];
      destruct (Z.eqb x k); destruct (JsMap.get k m) as [d|]; reflexivity.
Qed.

(** C8, as the code has it. The reorder operation never fails; each
    listed id that names a row of the table, whatever the row's status,
    gets [queuePosition] = (index of its last listing) + 1 and keeps its
    other fields; ids without a row are skipped, rows that are not listed
    are unchanged; and [[3;1;2]] on three queued rows 1, 2, 3 gives the
    positions 3:1, 1:2, 2:3. *)
Theorem C8_reorder_positions_every_listed_row :
  forall (newOrder : list Z) (s : Storage.MemStorage) (k : Z),
    fst (Storage.updateDownloadQueue newOrder s) = true /\
    Storage.getDownloadById k (snd (Storage.updateDownloadQueue newOrder s)) =
      match lastIndexFrom 0 k newOrder, Storage.getDownloadById k s with
      | Some j, Some d => Some (Storage.setQueuePosition (j + 1) d)
      | _, o => o
      end /\
    map (fun d => (Download.id d, Download.queuePosition d))
      (Storage.getQueuedDownloads
         (snd (Storage.updateDownloadQueue [3; 1; 2] (Routes.storage Sample.threeQueued))))
    = [(3, 1); (1, 2); (2, 3)].
Proof.
  intros newOrder s k. split; [reflexivity|]. split; [|reflexivity].
  unfold Storage.updateDownloadQueue, Storage.getDownloadById. simpl.
  apply reorderFrom_get.
Qed.

(** C8, the claim as stated fails: row 1 is ['downloading'], not queued,
    and listing it second moves it from position 1 to position 2. *)
Lemma C8_counterexample :
  Storage.getDownloadById 1 (Routes.storage Sample.oneActiveOneQueued)
  = Some (Sample.row 1 "730" downloading 1) /\
  Storage.getDownloadById 1
    (snd (Storage.updateDownloadQueue [2; 1] (Routes.storage Sample.oneActiveOneQueued)))
  = Some (Sample.row 1 "730" downloading 2).
Proof. split; reflexivity. Qed.

(** ** C9: [updateDownload] *)

Lemma merge_keepsUnnamed d u : keepsUnnamed d u (Storage.merge d u).
Proof. unfold keepsUnnamed, Storage.merge; simpl. repeat split; intros ->; reflexivity. Qed.

Lemma stampsCompletion_spec u :
  Storage.stampsCompletion u = true <->
  Partial.status u = Some completed /\
  (Partial.dateCompleted u = None \/ Partial.dateCompleted u = Some None).
Proof.
  unfold Storage.stampsCompletion. rewrite andb_true_iff, bool_decide_eq_true.
  destruct (Partial.dateCompleted u) as [[t|]|]; split; intros [H1 H2];
    try (split; [exact H1|]); auto; try discriminate.
  destruct H2; discriminate.
Qed.

(** C9, as the code has it. For a missing id [updateDownload] answers
    [undefined] and the store is unchanged. For a stored row it answers
    the new row and stores it under the same id; the other rows are
    untouched; every field the update does not name keeps its value,
    except that [dateCompleted] becomes the current time exactly when the
    update sets the status to ['completed'] and its own [dateCompleted] is
    missing or null, and is the merged value otherwise. *)
Theorem C9_updateDownload_frame :
  forall (now : Date) (i : Z) (u : Partial.t) (s : Storage.MemStorage),
    (Storage.getDownloadById i s = None -> Storage.updateDownload now i u s = (None, s)) /\
    (forall d,
        Storage.getDownloadById i s = Some d ->
        exists d',
          fst (Storage.updateDownload now i u s) = Some d' /\
          Storage.getDownloadById i (snd (Storage.updateDownload now i u s)) = Some d' /\
          (forall k, k <> i ->
             Storage.getDownloadById k (snd (Storage.updateDownload now i u s))
             = Storage.getDownloadById k s) /\
          keepsUnnamed d u d' /\
          Download.dateCompleted d' =
            (if Storage.stampsCompletion u then Some now
             else default (Download.dateCompleted d) (Partial.dateCompleted u)) /\
          (Storage.stampsCompletion u = true <->
           Partial.status u = Some completed /\
           (Partial.dateCompleted u = None \/ Partial.dateCompleted u = Some None))).
Proof.
  intros now i u s. unfold Storage.getDownloadById, Storage.updateDownload. split.
  - intros ->. reflexivity.
  - intros d ->. simpl.
    eexists. split; [reflexivity|]. split; [apply get_set_eq|].
    split; [intros k Hk; now apply get_set_ne|].
    split; [|split; [|apply stampsCompletion_spec]].
    + destruct (Storage.stampsCompletion u); apply merge_keepsUnnamed.
    + destruct (Storage.stampsCompletion u); reflexivity.
Qed.

(** [C9_updateDownload_frame] for an update of the progress alone, on a
    missing and on a stored row. *)
Lemma C9_witness :
  (Storage.getDownloadById 9 (Routes.storage Sample.oneCompleted) = None /\
   Storage.updateDownload 77 9 Sample.progressOnly (Routes.storage Sample.oneCompleted)
   = (None, Routes.storage Sample.oneCompleted)) /\
  (Storage.getDownloadById 1 (Routes.storage Sample.oneCompleted)
   = Some (Sample.row 1 "730" completed 1) /\
   exists d',
     fst (Storage.updateDownload 77 1 Sample.progressOnly (Routes.storage Sample.oneCompleted))
     = Some d' /\
     keepsUnnamed (Sample.row 1 "730" completed 1) Sample.progressOnly d').
Proof.
  pose proof (C9_updateDownload_frame 77 9 Sample.progressOnly
                (Routes.storage Sample.oneCompleted)) as [Hnone _].
  pose proof (C9_updateDownload_frame 77 1 Sample.progressOnly
                (Routes.storage Sample.oneCompleted)) as [_ Hsome].
  split.
  - split; [reflexivity | exact (Hnone eq_refl)].
  - split; [reflexivity|].
    destruct (Hsome _ eq_refl) as (d' & H1 & _ & _ & H2 & _).
    exists d'. split; assumption.
Defined.

(** C9, the claim as stated fails: the update names [dateCompleted]
    itself (as null) next to status ['completed'], and the stored row
    still gets the current time 77, not the null it names. *)
Lemma C9_counterexample :
  Partial.status Sample.completedWithNullDate = Some completed /\
  Partial.dateCompleted Sample.completedWithNullDate = Some None /\
  Storage.getDownloadById 1 (Routes.storage Sample.oneActiveOneQueued)
  = Some (Sample.row 1 "730" downloading 1) /\
  option_map Download.dateCompleted
    (fst (Storage.updateDownload 77 1 Sample.completedWithNullDate
            (Routes.storage Sample.oneActiveOneQueued)))
  = Some (Some 77).
Proof. repeat split; reflexivity. Qed.

(** ** C10: pause and cancel on the transfer registry *)

(** C10. [pauseDownload] is [cancelDownload]: either answers [true]
    exactly when the id is registered, then the registered process has
    been sent [kill()] and the registry entry is gone; for an id that is
    not registered nothing changes; and a second call, of either, right
    after answers [false] and changes nothing. *)
Theorem C10_pause_is_cancel :
  forall (downloadId : Z) (st : SteamCmd.State),
    SteamCmd.pauseDownload downloadId st = SteamCmd.cancelDownload downloadId st /\
    fst (SteamCmd.cancelDownload downloadId st)
    = bool_decide (is_Some (SteamCmd.activeDownloads st !! downloadId)) /\
    SteamCmd.activeDownloads (snd (SteamCmd.cancelDownload downloadId st))
    = delete downloadId (SteamCmd.activeDownloads st) /\
    SteamCmd.killed (snd (SteamCmd.cancelDownload downloadId st))
    = match SteamCmd.activeDownloads st !! downloadId with
      | Some download => SteamCmd.process download :: SteamCmd.killed st
      | None => SteamCmd.killed st
      end /\
    SteamCmd.stdinWrites (snd (SteamCmd.cancelDownload downloadId st))
    = SteamCmd.stdinWrites st /\
    SteamCmd.cancelDownload downloadId (snd (SteamCmd.pauseDownload downloadId st))
    = (false, snd (SteamCmd.pauseDownload downloadId st)) /\
    SteamCmd.pauseDownload downloadId (snd (SteamCmd.cancelDownload downloadId st))
    = (false, snd (SteamCmd.cancelDownload downloadId st)).
Proof.
  intros downloadId st. unfold SteamCmd.pauseDownload.
  assert (Hagain :
    SteamCmd.cancelDownload downloadId (snd (SteamCmd.cancelDownload downloadId st))
    = (false, snd (SteamCmd.cancelDownload downloadId st))).
  { unfold SteamCmd.cancelDownload.
    destruct (SteamCmd.activeDownloads st !! downloadId) as [h|] eqn:E; simpl.
    - now rewrite lookup_delete_eq.
    - now rewrite E. }
  unfold SteamCmd.cancelDownload in *.
  destruct (SteamCmd.activeDownloads st !! downloadId) as [h|] eqn:E; simpl in *.
  - repeat split; try assumption.
  - repeat split; try assumption. symmetry. now apply delete_id.
Qed.

(** ** C4: a Steam Guard prompt on stdout *)

(** Whatever the progress parser finds, a chunk that contains the Steam
    Guard prompt ends with a call of the error callback and a [kill()]
    of the process; the registry is left to the close handler. *)
Lemma onStdout_steam_guard parse now output t st :
  SteamCmd.includes output "Steam Guard code:" = true ->
  exists calls t',
    SteamCmd.onStdout parse now output t st
    = ((calls ++ [SteamCmd.OnError "Steam Guard code required"])%list, t',
       SteamCmd.mk (SteamCmd.activeDownloads st)
                   (SteamCmd.pid t :: SteamCmd.killed st) (SteamCmd.stdinWrites st)).
Proof.
  intros H. unfold SteamCmd.onStdout. rewrite H.
  destruct (parse output) as [p|]; [destruct (Z.ltb _ _)|]; eexists _, _; reflexivity.
Qed.

(** C4. The transfer of download 1 (process 4242) prints the Steam Guard
    prompt: the stdout handler calls the error callback with
    ['Steam Guard code required'] and kills the process; the close that
    follows reports a second error and drops the registry entry, after
    which [submitSteamGuard] for the download answers [false] and writes
    nothing. *)
Theorem C4_steam_guard_prompt_is_an_error_and_a_kill :
  let parse := fun _ : string => None in
  let '(calls, t', st') :=
    SteamCmd.onStdout parse 5000 "Steam Guard code: " Sample.transfer Sample.registered in
  let '(calls', st'') := SteamCmd.onClose false "null" t' st' in
  calls = [SteamCmd.OnError "Steam Guard code required"] /\
  SteamCmd.killed st' = [4242] /\
  calls' = [SteamCmd.OnError "Download failed with code null"] /\
  SteamCmd.activeDownloads st'' !! 1 = None /\
  SteamCmd.submitSteamGuard 1 "12345" st'' = (false, st'').
Proof. vm_compute. repeat split; reflexivity. Qed.

(** ** C5: one compression job per app at a time *)

(** A call with no other call in between. While the registered job of
    an app is ['pending'] or
    ['compressing'], [compressGame] for that app answers null and leaves
    the registry and the library as they are; it does the same when the
    install path of the library game does not exist; and whenever it does
    start streaming, the app had no job in progress and the registry then
    holds the one new ['compressing'] job for it. *)
Lemma compressGame_alone :
  forall (now : Date) (env : Compressor.Env) (a : string)
         (fmt : Compressor.CompressionFormat) (st : Compressor.State),
    (forall j,
        Compressor.activeCompressionJobs st !! a = Some j ->
        Compressor.Job.status j = Compressor.pending \/
        Compressor.Job.status j = Compressor.compressing ->
        Compressor.compressGame now env a fmt st = (Compressor.ReturnsNull, st)) /\
    (forall game,
        Compressor.libraryGamesList st !! a = Some game ->
        Compressor.existsSync env (Compressor.LibraryGame.installPath game) = false ->
        Compressor.compressGame now env a fmt st = (Compressor.ReturnsNull, st)) /\
    (forall r st',
        Compressor.compressGame now env a fmt st = (Compressor.Streaming r, st') ->
        (forall j, Compressor.activeCompressionJobs st !! a = Some j ->
                   Compressor.inProgress j = false) /\
        Compressor.activeCompressionJobs st' = <[a := Compressor.compressionJob r]>
                                                 (Compressor.activeCompressionJobs st) /\
        Compressor.Job.appId (Compressor.compressionJob r) = a /\
        Compressor.Job.status (Compressor.compressionJob r) = Compressor.compressing /\
        Compressor.Job.progress (Compressor.compressionJob r) = 0).
Proof.
  intros now env a fmt st. split; [|split].
  - intros j Hj Hs. unfold Compressor.compressGame. rewrite Hj.
    assert (Hin : Compressor.inProgress j = true).
    { unfold Compressor.inProgress. destruct Hs as [-> | ->]; reflexivity. }
    now rewrite Hin.
  - intros game Hg He. unfold Compressor.compressGame. rewrite Hg, He. simpl.
    now destruct (match Compressor.activeCompressionJobs st !! a with
                  | Some existingJob => Compressor.inProgress existingJob
                  | None => false end).
  - intros r st' H. unfold Compressor.compressGame in H.
    destruct (Compressor.activeCompressionJobs st !! a) as [j0|] eqn:Hj.
    + destruct (Compressor.inProgress j0) eqn:Hin; [discriminate|].
      destruct (Compressor.libraryGamesList st !! a) as [game|]; [|discriminate].
      destruct (negb _); [discriminate|].
      destruct (Compressor.prepareOutput env); [discriminate|].
      destruct (Compressor.calculateDirectorySize env); [discriminate|].
      injection H as <- <-. simpl. repeat split.
      intros j Hj'. now injection Hj' as <-.
    + destruct (Compressor.libraryGamesList st !! a) as [game|]; [|discriminate].
      destruct (negb _); [discriminate|].
      destruct (Compressor.prepareOutput env); [discriminate|].
      destruct (Compressor.calculateDirectorySize env); [discriminate|].
      injection H as <- <-. simpl. repeat split. intros j Hj'. discriminate.
Qed.

(** A call run through with no other call in between is
    [Compressor.compressGame] on the registry seen through its
    references. *)
Lemma view_lookup (st : Async.Store) (a : string) :
  Compressor.activeCompressionJobs (Async.view st) !! a = Async.getJob a st.
Proof. unfold Async.view, Async.getJob. simpl. apply lookup_omap. Qed.

Lemma view_register (st : Async.Store) (a : string) (j : Compressor.Job.t) :
  Async.wellFormed st ->
  Async.view (Async.mk (Async.objects st ++ [j])%list
                (<[a := length (Async.objects st)]> (Async.activeCompressionJobs st))
                (Async.libraryGamesList st))
  = Compressor.setJob a j (Async.view st).
Proof.
  intros Hwf. unfold Async.view, Compressor.setJob. simpl. f_equal.
  apply map_eq. intros k. rewrite lookup_omap.
  destruct (decide (k = a)) as [->|Hne].
  - rewrite !lookup_insert_eq. simpl. now apply list_lookup_middle.
  - rewrite !lookup_insert_ne by congruence. rewrite lookup_omap.
    destruct (Async.activeCompressionJobs st !! k) as [ref|] eqn:Hk; [|reflexivity].
    simpl. destruct (Hwf k ref Hk) as (j0 & Hj0 & _).
    apply lookup_app_l. now apply lookup_lt_Some in Hj0.
Qed.

Lemma view_alter (st : Async.Store) (a : string) (ref : nat) (j : Compressor.Job.t)
    (f : Compressor.Job.t -> Compressor.Job.t) :
  Async.wellFormed st ->
  Async.activeCompressionJobs st !! a = Some ref ->
  Async.objects st !! ref = Some j ->
  Async.view (Async.mk (alter f ref (Async.objects st))
                (Async.activeCompressionJobs st) (Async.libraryGamesList st))
  = Compressor.setJob a (f j) (Async.view st).
Proof.
  intros Hwf Ha Hj. unfold Async.view, Compressor.setJob. simpl. f_equal.
  apply map_eq. intros k. rewrite lookup_omap.
  destruct (decide (k = a)) as [->|Hne].
  - rewrite lookup_insert_eq, Ha. simpl. now rewrite list_lookup_alter_eq, Hj.
  - rewrite lookup_insert_ne by congruence. rewrite lookup_omap.
    destruct (Async.activeCompressionJobs st !! k) as [ref'|] eqn:Hk; [|reflexivity].
    simpl. apply list_lookup_alter_ne. intros <-.
    destruct (Hwf k ref Hk) as (j1 & Hj1 & Hk1).
    destruct (Hwf a ref Ha) as (j2 & Hj2 & Hk2). congruence.
Qed.

Lemma view_catchBlock now msg a (st : Async.Store) :
  Async.wellFormed st ->
  Async.view (Async.catchBlock now msg a st)
  = Compressor.catchBlock now msg a (Async.view st).
Proof.
  intros Hwf. unfold Async.catchBlock, Compressor.catchBlock.
  rewrite view_lookup. unfold Async.getJob.
  destruct (Async.activeCompressionJobs st !! a) as [ref|] eqn:Ha; [|reflexivity].
  simpl. destruct (Hwf a ref Ha) as (j & Hj & _). rewrite Hj.
  now apply view_alter.
Qed.

Lemma register_wellFormed (st : Async.Store) (a : string) (j : Compressor.Job.t) :
  Async.wellFormed st ->
  Compressor.Job.appId j = a ->
  Async.wellFormed (Async.mk (Async.objects st ++ [j])%list
                      (<[a := length (Async.objects st)]> (Async.activeCompressionJobs st))
                      (Async.libraryGamesList st)).
Proof.
  intros Hwf Hj k ref. simpl. destruct (decide (k = a)) as [->|Hne].
  - rewrite lookup_insert_eq. intros [= <-]. exists j. split; [|exact Hj].
    now apply list_lookup_middle.
  - rewrite lookup_insert_ne by congruence. intros Hk.
    destruct (Hwf k ref Hk) as (j0 & Hj0 & Hk0). exists j0. split; [|exact Hk0].
    rewrite lookup_app_l; [exact Hj0 | now apply lookup_lt_Some in Hj0].
Qed.

Lemma oneCall_compressGame now env a fmt (st : Async.Store) :
  Async.wellFormed st ->
  Async.view (snd (Async.oneCall now env a fmt st))
  = snd (Compressor.compressGame now env a fmt (Async.view st)) /\
  match fst (Async.oneCall now env a fmt st),
        fst (Compressor.compressGame now env a fmt (Async.view st)) with
  | Async.ReturnsNull, Compressor.ReturnsNull => True
  | Async.Streaming ref, Compressor.Streaming r =>
      Async.objects (snd (Async.oneCall now env a fmt st)) !! ref
      = Some (Compressor.compressionJob r) /\
      Compressor.processedBytes r = 0
  | _, _ => False
  end.
Proof.
  intros Hwf. unfold Async.oneCall, Async.start, Compressor.compressGame.
  rewrite view_lookup.
  destruct (match Async.getJob a st with
            | Some existingJob => Compressor.inProgress existingJob
            | None => false
            end); [simpl; now split|].
  change (Compressor.libraryGamesList (Async.view st)) with (Async.libraryGamesList st).
  cbn [Async.resume].
  destruct (Async.libraryGamesList st !! a) as [game|]; [|simpl; now split].
  destruct (negb _); [simpl; now split|].
  destruct (Compressor.prepareOutput env) as [msg|outputPath].
  - simpl. split; [now apply view_catchBlock | exact I].
  - cbn [Async.resume].
    set (job := Compressor.Job.mk a (Compressor.LibraryGame.title game)
                  Compressor.compressing 0 fmt now None None (Some outputPath) None None).
    set (st1 := Async.mk (Async.objects st ++ [job])%list
                  (<[a := length (Async.objects st)]> (Async.activeCompressionJobs st))
                  (Async.libraryGamesList st)).
    assert (Hwf1 : Async.wellFormed st1) by now apply register_wellFormed.
    assert (Hv1 : Async.view st1 = Compressor.setJob a job (Async.view st))
      by now apply view_register.
    assert (Ha1 : Async.activeCompressionJobs st1 !! a = Some (length (Async.objects st)))
      by (subst st1; simpl; apply lookup_insert_eq).
    assert (Hj1 : Async.objects st1 !! length (Async.objects st) = Some job)
      by (subst st1; simpl; now apply list_lookup_middle).
    destruct (Compressor.calculateDirectorySize env) as [msg|totalSize].
    + simpl. split; [|exact I]. rewrite (view_catchBlock _ _ _ _ Hwf1). now rewrite Hv1.
    + cbn [fst snd].
      replace (<[a := length (Async.objects st)]> (Async.activeCompressionJobs st1))
        with (Async.activeCompressionJobs st1)
        by (symmetry; now apply insert_id).
      split.
      * rewrite (view_alter st1 a _ job (Async.withTotal totalSize) Hwf1 Ha1 Hj1).
        rewrite Hv1. unfold Compressor.setJob. simpl. f_equal. apply insert_insert_eq.
      * cbn [Async.objects Compressor.compressionJob Compressor.processedBytes].
        split; [|reflexivity]. now rewrite list_lookup_alter_eq, Hj1.
Qed.

Lemma alter_last_two {A : Type} (f g : A -> A) (l : list A) (x y : A) :
  alter g (S (length l)) (alter f (length l) ((l ++ [x]) ++ [y]))%list
  = (l ++ [f x; g y])%list.
Proof. induction l as [|z r IH]; simpl; [reflexivity | f_equal; exact IH]. Qed.

(** C5. The test of [compressGame] for a job in progress and the
    registration of the new job are an await apart. A call made once
    an earlier call has registered its job is turned down, and so is a
    call for a game whose install directory is missing; but two calls
    for the same app made in one synchronous stretch both pass the
    test, both create a job and both start streaming: two
    ['compressing'] job objects of the app exist side by side, and the
    registry holds the second. *)
Theorem C5_two_calls_before_registration_both_stream :
  forall (now1 now2 : Date) (env1 env2 : Compressor.Env) (a : string)
         (fmt1 fmt2 : Compressor.CompressionFormat) (st : Async.Store)
         (game : Compressor.LibraryGame.t) (path1 path2 : string) (total1 total2 : Z),
    Async.start a st = Async.AwaitsLibrary (Some game) ->
    Compressor.existsSync env1 (Compressor.LibraryGame.installPath game) = true ->
    Compressor.existsSync env2 (Compressor.LibraryGame.installPath game) = true ->
    Compressor.prepareOutput env1 = inr path1 ->
    Compressor.prepareOutput env2 = inr path2 ->
    Compressor.calculateDirectorySize env1 = inr total1 ->
    Compressor.calculateDirectorySize env2 = inr total2 ->
    let job1 :=
      Compressor.Job.mk a (Compressor.LibraryGame.title game) Compressor.compressing 0
        fmt1 now1 None None (Some path1) (Some total1) None in
    let job2 :=
      Compressor.Job.mk a (Compressor.LibraryGame.title game) Compressor.compressing 0
        fmt2 now2 None None (Some path2) (Some total2) None in
    let n := length (Async.objects st) in
    Async.start a (snd (Async.resume now1 env1 a fmt1 (Async.start a st) st))
    = Async.ReturnsNull /\
    (forall env,
        Compressor.existsSync env (Compressor.LibraryGame.installPath game) = false ->
        Async.oneCall now1 env a fmt1 st = (Async.ReturnsNull, st)) /\
    Async.twoCalls now1 now2 env1 env2 a fmt1 fmt2 st
    = (Async.Streaming n, Async.Streaming (S n),
       Async.mk (Async.objects st ++ [job1; job2])%list
                (<[a := S n]> (Async.activeCompressionJobs st))
                (Async.libraryGamesList st)) /\
    Compressor.inProgress job1 = true /\
    Compressor.inProgress job2 = true.
Proof.
  intros now1 now2 env1 env2 a fmt1 fmt2 st game path1 path2 total1 total2
         Hstart He1 He2 Hp1 Hp2 Hs1 Hs2 job1 job2 n.
  split; [|split; [|split; [|split; reflexivity]]].
  - rewrite Hstart. cbn [Async.resume]. rewrite He1, Hp1. simpl.
    unfold Async.start, Async.getJob. simpl. rewrite lookup_insert_eq. simpl.
    rewrite list_lookup_middle by reflexivity. reflexivity.
  - intros env He. unfold Async.oneCall. rewrite Hstart. cbn [Async.resume].
    rewrite He. reflexivity.
  - unfold Async.twoCalls. rewrite Hstart. cbn [Async.resume].
    rewrite He1, Hp1. cbn [negb Async.resume Async.objects Async.activeCompressionJobs
                            Async.libraryGamesList].
    rewrite He2, Hp2. cbn [negb Async.resume Async.objects Async.activeCompressionJobs
                            Async.libraryGamesList].
    rewrite Hs1, Hs2. cbn [Async.objects Async.activeCompressionJobs Async.libraryGamesList].
    rewrite length_app. simpl length. rewrite Nat.add_1_r. fold n.
    subst n. rewrite (alter_last_two (Async.withTotal total1) (Async.withTotal total2)).
    rewrite !insert_insert_eq. reflexivity.
Qed.

(** [C5_two_calls_before_registration_both_stream] on the sample
    library: two calls for app 730 in one synchronous stretch leave two
    compressing jobs, one per output path. *)
Lemma C5_witness :
  Async.start "730" AsyncSample.store
  = Async.AwaitsLibrary
      (Some (Compressor.LibraryGame.mk "730" "Counter Strike" "/games/730"
               false None None None None)) /\
  fst (Async.twoCalls 5 5 Sample.env AsyncSample.env2 "730" Compressor.zip Compressor.zip
         AsyncSample.store)
  = (Async.Streaming 0, Async.Streaming 1) /\
  map (fun j => (Compressor.Job.status j, Compressor.Job.outputPath j))
      (Async.objects
         (snd (Async.twoCalls 5 5 Sample.env AsyncSample.env2 "730" Compressor.zip
                 Compressor.zip AsyncSample.store)))
  = [(Compressor.compressing, Some "/games/compressed/Counter_Strike.zip");
     (Compressor.compressing, Some "/games/compressed/Counter_Strike_2.zip")].
Proof.
  assert (Hstart : Async.start "730" AsyncSample.store
                   = Async.AwaitsLibrary
                       (Some (Compressor.LibraryGame.mk "730" "Counter Strike" "/games/730"
                                false None None None None)))
    by (vm_compute; reflexivity).
  pose proof (C5_two_calls_before_registration_both_stream
                5 5 Sample.env AsyncSample.env2 "730" Compressor.zip Compressor.zip
                AsyncSample.store _ _ _ 1000 1000
                Hstart eq_refl eq_refl eq_refl eq_refl eq_refl eq_refl)
    as (_ & _ & Htwo & _).
  split; [exact Hstart|]. rewrite Htwo. split; reflexivity.
Defined.

(** ** C6: the progress of a compression job *)

Section CompressionProgress.
Variable percentOf : Z -> Z -> Z.
Variable formatBytes : Z -> string.

Lemma onEntry_capped size r st :
  Compressor.Job.progress (Compressor.compressionJob r) <= 99 ->
  Compressor.Job.progress
    (Compressor.compressionJob (fst (Compressor.onEntry percentOf size r st))) <= 99.
Proof.
  intros H. unfold Compressor.onEntry.
  destruct size as [sz|]; [|exact H].
  destruct (Z.eqb sz 0); [exact H|].
  destruct (Compressor.Job.totalBytes _) as [total|]; [|exact H].
  destruct (Z.eqb total 0); [exact H|].
  simpl. apply Z.le_min_l.
Qed.

Lemma onEntry_registered size r st :
  registeredJob r st ->
  registeredJob (fst (Compressor.onEntry percentOf size r st))
                (snd (Compressor.onEntry percentOf size r st)).
Proof.
  intros H. unfold Compressor.onEntry.
  destruct size as [sz|]; [|exact H].
  destruct (Z.eqb sz 0); [exact H|].
  destruct (Compressor.Job.totalBytes _) as [total|]; [|exact H].
  destruct (Z.eqb total 0); [exact H|].
  unfold registeredJob. simpl. apply lookup_insert_eq.
Qed.

Lemma onEntries_capped sizes r st :
  Compressor.Job.progress (Compressor.compressionJob r) <= 99 ->
  registeredJob r st ->
  Compressor.Job.progress
    (Compressor.compressionJob (fst (Compressor.onEntries percentOf sizes r st))) <= 99
  /\ registeredJob (fst (Compressor.onEntries percentOf sizes r st))
                   (snd (Compressor.onEntries percentOf sizes r st)).
Proof.
  revert r st. induction sizes as [|size rest IH]; intros r st Hp Hr; simpl.
  - now split.
  - pose proof (onEntry_capped size r st Hp) as Hp'.
    pose proof (onEntry_registered size r st Hr) as Hr'.
    destruct (Compressor.onEntry percentOf size r st) as [r' st']. now apply IH.
Qed.

Lemma onClose_registered now stat r st :
  registeredJob (fst (Compressor.onClose formatBytes now stat r st))
                (snd (Compressor.onClose formatBytes now stat r st)).
Proof.
  unfold registeredJob, Compressor.onClose.
  destruct stat as [msg|n]; simpl; [apply lookup_insert_eq|].
  unfold Compressor.updateGameCompressionInfo, Compressor.setJob. simpl.
  destruct (Compressor.libraryGamesList st !! _); simpl; apply lookup_insert_eq.
Qed.
End CompressionProgress.

(** C6, as the code has it. For every running job whose progress is at
    most 99 (a new job starts at 0) and every sequence of entry events,
    the progress after the entries is at most 99, in the closure and in
    the registry alike; when the close callback fires and the size of the
    output file can be read, the progress is exactly 100 and the job is
    completed; when reading the size throws, the callback marks the job
    failed and leaves the progress where the entries put it. *)
Theorem C6_progress_capped_until_close :
  forall (percentOf : Z -> Z -> Z) (formatBytes : Z -> string) (now : Date)
         (sizes : list (option Z)) (stat : string + Z)
         (r : Compressor.Running) (st : Compressor.State),
    Compressor.Job.progress (Compressor.compressionJob r) <= 99 ->
    registeredJob r st ->
    let r1 := fst (Compressor.onEntries percentOf sizes r st) in
    let st1 := snd (Compressor.onEntries percentOf sizes r st) in
    let r2 := fst (Compressor.onClose formatBytes now stat r1 st1) in
    let st2 := snd (Compressor.onClose formatBytes now stat r1 st1) in
    Compressor.Job.progress (Compressor.compressionJob r1) <= 99 /\
    registeredJob r1 st1 /\
    registeredJob r2 st2 /\
    match stat with
    | inr _ =>
        Compressor.Job.progress (Compressor.compressionJob r2) = 100 /\
        Compressor.Job.status (Compressor.compressionJob r2) = Compressor.completed
    | inl _ =>
        Compressor.Job.progress (Compressor.compressionJob r2)
        = Compressor.Job.progress (Compressor.compressionJob r1) /\
        Compressor.Job.status (Compressor.compressionJob r2) = Compressor.failed
    end.
Proof.
  intros percentOf formatBytes now sizes stat r st Hp Hr r1 st1 r2 st2.
  destruct (onEntries_capped percentOf sizes r st Hp Hr) as [Hp1 Hr1].
  split; [exact Hp1|]. split; [exact Hr1|].
  split; [apply onClose_registered|].
  subst r2. unfold Compressor.onClose. destruct stat; simpl; split; reflexivity.
Qed.

(** [C6_progress_capped_until_close] on the sample job: entries of 400
    and 700 bytes out of 1000, then a close whose output file has 300
    bytes. *)
Lemma C6_witness :
  Compressor.Job.progress (Compressor.compressionJob Sample.running) <= 99 /\
  registeredJob Sample.running Sample.compressing /\
  Compressor.Job.progress
    (Compressor.compressionJob
       (fst (Compressor.onEntries Sample.percentOf [Some 400; Some 700]
               Sample.running Sample.compressing))) <= 99 /\
  Compressor.Job.progress
    (Compressor.compressionJob
       (fst (Compressor.onClose Sample.formatBytes 9 (inr 300)
               (fst (Compressor.onEntries Sample.percentOf [Some 400; Some 700]
                       Sample.running Sample.compressing))
               (snd (Compressor.onEntries Sample.percentOf [Some 400; Some 700]
                       Sample.running Sample.compressing))))) = 100.
Proof.
  assert (H1 : Compressor.Job.progress (Compressor.compressionJob Sample.running) <= 99)
    by (vm_compute; discriminate).
  assert (H2 : registeredJob Sample.running Sample.compressing) by reflexivity.
  pose proof (C6_progress_capped_until_close Sample.percentOf Sample.formatBytes 9
                [Some 400; Some 700] (inr 300) Sample.running Sample.compressing H1 H2)
    as (H3 & _ & _ & H4 & _).
  repeat split; assumption.
Defined.

(** C6, the claim as stated fails: after entries of 400 and 700 bytes
    out of 1000 the progress is 99; the close callback fires, reading the
    size of the output file throws, and the progress is still 99, in the
    closure and in the registry, on a failed job. *)
Lemma C6_counterexample :
  let '(r1, st1) :=
    Compressor.onEntries Sample.percentOf [Some 400; Some 700]
      Sample.running Sample.compressing in
  let '(r2, st2) := Compressor.onClose Sample.formatBytes 9 (inl "ENOENT") r1 st1 in
  Compressor.Job.progress (Compressor.compressionJob r1) = 99 /\
  Compressor.Job.progress (Compressor.compressionJob r2) = 99 /\
  Compressor.Job.status (Compressor.compressionJob r2) = Compressor.failed /\
  option_map Compressor.Job.progress (Compressor.activeCompressionJobs st2 !! "730")
  = Some 99.
Proof. vm_compute. repeat split; reflexivity. Qed.

(** * Further properties *)

(** ** The keys of the downloads map *)

Section JsMapKeys.
Context {V : Type}.
Implicit Types (m : list (Z * V)) (k : Z) (v : V).

Lemma get_Some_In m k v : JsMap.get k m = Some v -> In (k, v) m.
Proof.
  induction m as [|[k0 v0] r IH]; simpl; [discriminate|].
  destruct (Z.eqb k0 k) eqn:E.
  - apply Z.eqb_eq in E. intros [= ->]. subst. now left.
  - intros H. right. now apply IH.
Qed.


Lemma notin_get_None m k : ~ In k (map fst m) -> JsMap.get k m = None.
Proof.
  induction m as [|[k0 v0] r IH]; simpl; [reflexivity|].
  intros H. destruct (Z.eqb k0 k) eqn:E.
  - apply Z.eqb_eq in E. exfalso. apply H. now left.
  - apply IH. tauto.
Qed.

Lemma In_get m k v : NoDup (map fst m) -> In (k, v) m -> JsMap.get k m = Some v.
Proof.
  induction m as [|[k0 v0] r IH]; simpl; [tauto|].
  intros Hnd [Heq|Hin].
  - injection Heq as -> ->. now rewrite Z.eqb_refl.
  - apply NoDup_cons in Hnd as [Hk0 Hnd].
    destruct (Z.eqb k0 k) eqn:E; [|now apply IH].
    apply Z.eqb_eq in E. subst k0. exfalso. apply Hk0.
    apply list_elem_of_In. apply (in_map fst) in Hin. exact Hin.
Qed.

Lemma keys_set_known m k v v0 :
  JsMap.get k m = Some v0 -> map fst (JsMap.set k v m) = map fst m.
Proof.
  induction m as [|[k0 v1] r IH]; simpl; [discriminate|].
  destruct (Z.eqb k0 k) eqn:E; simpl.
  - apply Z.eqb_eq in E. now subst.
  - intros H. now rewrite IH.
Qed.

Lemma set_new m k v : JsMap.get k m = None -> JsMap.set k v m = (m ++ [(k, v)])%list.
Proof.
  induction m as [|[k0 v1] r IH]; simpl; [reflexivity|].
  destruct (Z.eqb k0 k); [discriminate|]. intros H. now rewrite IH.
Qed.

Lemma In_set m k v kv : In kv (JsMap.set k v m) -> kv = (k, v) \/ In kv m.
Proof.
  induction m as [|[k0 v1] r IH]; simpl.
  - intros [H|[]]. now left.
  - destruct (Z.eqb k0 k); simpl; intros [H|H]; auto.
    destruct (IH H); auto.
Qed.



Lemma get_delete_eq m k : NoDup (map fst m) -> JsMap.get k (JsMap.delete k m) = None.
Proof.
  induction m as [|[k0 v1] r IH]; simpl; [reflexivity|].
  intros Hnd. apply NoDup_cons in Hnd as [Hk0 Hnd].
  destruct (Z.eqb k0 k) eqn:E; simpl.
  - apply Z.eqb_eq in E. subst k0. apply notin_get_None.
    intros Hin. apply Hk0. now apply list_elem_of_In.
  - rewrite E. now apply IH.
Qed.
End JsMapKeys.

Lemma wellKeyed_set_known s k d d0 :
  wellKeyed s -> JsMap.get k (Storage.downloadsList s) = Some d0 ->
  Download.id d = k ->
  wellKeyed (Storage.withDownloads (JsMap.set k d (Storage.downloadsList s)) s).
Proof.
  intros [Hnd Hall] Hget Hid. split; simpl.
  - now rewrite (keys_set_known _ _ _ _ Hget).
  - apply Forall_forall. intros kv Hin. apply list_elem_of_In, In_set in Hin.
    destruct Hin as [->|Hin].
    + simpl. split; [exact Hid|].
      apply get_Some_In in Hget. apply list_elem_of_In in Hget.
      rewrite Forall_forall in Hall. now destruct (Hall _ Hget).
    + rewrite Forall_forall in Hall. apply Hall. now apply list_elem_of_In.
Qed.

Lemma merge_id d u : Partial.id u = None -> Download.id (Storage.merge d u) = Download.id d.
Proof. intros H. simpl. now rewrite H. Qed.

Lemma wellKeyed_get_id s k d :
  wellKeyed s -> JsMap.get k (Storage.downloadsList s) = Some d -> Download.id d = k.
Proof.
  intros [_ Hall] Hget. apply get_Some_In, list_elem_of_In in Hget.
  rewrite Forall_forall in Hall. now destruct (Hall _ Hget).
Qed.

Lemma updateDownload_wellKeyed now i u s :
  Partial.id u = None -> wellKeyed s ->
  wellKeyed (snd (Storage.updateDownload now i u s)).
Proof.
  intros Hu Hw. unfold Storage.updateDownload.
  destruct (JsMap.get i _) as [d|] eqn:Hget; simpl; [|exact Hw].
  apply wellKeyed_set_known with (d0 := d); [exact Hw|exact Hget|].
  destruct (Storage.stampsCompletion u); simpl; rewrite Hu; simpl;
    now apply (wellKeyed_get_id s).
Qed.



Lemma reorderFrom_wellKeyed (order : list Z) i s :
  wellKeyed s ->
  wellKeyed (Storage.withDownloads (Storage.reorderFrom i order (Storage.downloadsList s)) s).
Proof.
  revert i s. induction order as [|k r IH]; intros i s Hw; simpl.
  - now destruct s.
  - destruct (JsMap.get k (Storage.downloadsList s)) as [d|] eqn:Hget.
    + pose proof (wellKeyed_set_known s k (Storage.setQueuePosition (i + 1) d) d Hw Hget
                    (wellKeyed_get_id s k d Hw Hget)) as Hw'.
      exact (IH (i + 1) _ Hw').
    + exact (IH (i + 1) s Hw).
Qed.







(** ** The pass on an idle server *)

Lemma countStatus_set_flip s k d d0 m :
  JsMap.get k m = Some d0 -> Download.status d0 <> s -> Download.status d = s ->
  countStatus s (JsMap.set k d m) = S (countStatus s m).
Proof.
  intros Hget Hne Hs. induction m as [|[k1 d1] r IH]; simpl in *; [discriminate|].
  destruct (Z.eqb k1 k); rewrite !countStatus_cons.
  - injection Hget as ->. unfold Storage.hasStatus.
    rewrite (bool_decide_eq_true_2 _ Hs), (bool_decide_eq_false_2 _ Hne). reflexivity.
  - rewrite IH by exact Hget. lia.
Qed.

Lemma countStatus_set_ge s k d m :
  Download.status d = s -> (countStatus s m <= countStatus s (JsMap.set k d m))%nat.
Proof.
  intros Hs.
  assert (Hd : Storage.hasStatus s d = true)
    by (unfold Storage.hasStatus; now apply bool_decide_eq_true_2).
  induction m as [|[k1 d1] r IH]; simpl.
  - rewrite countStatus_cons. lia.
  - destruct (Z.eqb k1 k); rewrite !countStatus_cons.
    + rewrite Hd. destruct (Storage.hasStatus s d1); lia.
    + lia.
Qed.

Lemma countStatus_set_pos s k d m :
  Download.status d = s -> (0 < countStatus s (JsMap.set k d m))%nat.
Proof.
  intros Hs.
  assert (Hd : Storage.hasStatus s d = true)
    by (unfold Storage.hasStatus; now apply bool_decide_eq_true_2).
  induction m as [|[k1 d1] r IH]; simpl.
  - rewrite countStatus_cons, Hd. lia.
  - destruct (Z.eqb k1 k); rewrite !countStatus_cons; [rewrite Hd|]; lia.
Qed.

(** The rows a run of [startDownload] calls leaves: the rows whose key
    is among the ids are set to ['downloading'], the others are as
    before. *)
Lemma startAll_get_exact now (l : list Download.t) w i :
  Storage.getDownloadById i
    (Routes.storage (fold_left (fun w' x => Routes.startDownload now (Download.id x) w') l w))
  = option_map
      (fun d => if existsb (Z.eqb i) (map Download.id l)
                then Storage.merge d (Partial.ofStatus downloading) else d)
      (Storage.getDownloadById i (Routes.storage w)).
Proof.
  revert w. induction l as [|x r IH]; intros w; simpl.
  - now destruct (Storage.getDownloadById i _).
  - rewrite IH, startDownload_get.
    destruct (Storage.getDownloadById i (Routes.storage w)) as [d|]; simpl; [|reflexivity].
    rewrite (Z.eqb_sym i). destruct (Z.eqb (Download.id x) i); simpl.
    + f_equal. destruct (existsb _ _); now destruct d.
    + reflexivity.
Qed.

Lemma startAll_count_exact now (l : list Download.t) w :
  NoDup (map Download.id l) ->
  (forall x, In x l ->
     exists d, Storage.getDownloadById (Download.id x) (Routes.storage w) = Some d /\
               Download.status d <> downloading) ->
  countStatus downloading
    (Storage.downloadsList
       (Routes.storage (fold_left (fun w' x => Routes.startDownload now (Download.id x) w') l w)))
  = (countStatus downloading (Storage.downloadsList (Routes.storage w)) + length l)%nat.
Proof.
  revert w. induction l as [|x r IH]; intros w Hnd Hrows; simpl; [lia|].
  apply NoDup_cons in Hnd as [Hx Hnd].
  destruct (Hrows x (or_introl eq_refl)) as (dx & Hgx & Hsx).
  rewrite IH; [| exact Hnd |].
  - rewrite startDownload_storage. unfold Storage.updateDownload.
    unfold Storage.getDownloadById in Hgx. rewrite Hgx. simpl.
    rewrite (countStatus_set_flip downloading _ _ dx); [lia|exact Hgx|exact Hsx|reflexivity].
  - intros y Hy. destruct (Hrows y (or_intror Hy)) as (dy & Hgy & Hsy).
    exists dy. split; [|exact Hsy].
    rewrite startDownload_get, Hgy.
    destruct (Z.eqb (Download.id x) (Download.id y)) eqn:E; [|reflexivity].
    apply Z.eqb_eq in E. exfalso. apply Hx. rewrite E.
    apply list_elem_of_In. now apply in_map.
Qed.

Lemma NoDup_map_filter {A B : Type} (f : A -> B) (P : A -> bool) (l : list A) :
  NoDup (map f l) -> NoDup (map f (List.filter P l)).
Proof.
  induction l as [|x r IH]; simpl; [tauto|].
  intros Hnd. apply NoDup_cons in Hnd as [Hx Hnd].
  destruct (P x); simpl; [|now apply IH].
  apply NoDup_cons. split; [|now apply IH].
  intros Hin. apply Hx. apply list_elem_of_In in Hin. apply list_elem_of_In.
  apply in_map_iff in Hin as (y & Hy & Hin). apply filter_In in Hin as [Hin _].
  rewrite <- Hy. now apply in_map.
Qed.

Lemma NoDup_map_firstn {A B : Type} (f : A -> B) (n : nat) (l : list A) :
  NoDup (map f l) -> NoDup (map f (firstn n l)).
Proof.
  intros H. rewrite <- (firstn_skipn n l), map_app in H.
  now apply NoDup_app in H as [H _].
Qed.

Lemma wellKeyed_ids s :
  wellKeyed s -> map Download.id (JsMap.values (Storage.downloadsList s))
                 = map fst (Storage.downloadsList s).
Proof.
  intros [_ Hall]. unfold JsMap.values.
  induction Hall as [|[k d] r [Hid _] _ IH]; simpl; [reflexivity|].
  simpl in Hid. now rewrite Hid, IH.
Qed.

Lemma wellKeyed_value_get s d :
  wellKeyed s -> In d (JsMap.values (Storage.downloadsList s)) ->
  Storage.getDownloadById (Download.id d) s = Some d.
Proof.
  intros Hw Hin. unfold JsMap.values in Hin.
  apply in_map_iff in Hin as ([k d'] & Hd & Hin). simpl in Hd. subst d'.
  pose proof Hw as [Hnd Hall]. rewrite Forall_forall in Hall.
  destruct (Hall _ (proj2 (list_elem_of_In _ _) Hin)) as [Hid _]. simpl in Hid.
  rewrite Hid. now apply In_get.
Qed.

(** The rows of the queue scan under well keyed tables: pairwise
    different ids, each the queued row stored under its id. *)
Lemma queued_rows s :
  wellKeyed s ->
  NoDup (map Download.id (Storage.getQueuedDownloads s)) /\
  forall d, In d (Storage.getQueuedDownloads s) ->
            Storage.getDownloadById (Download.id d) s = Some d /\ Download.status d = queued.
Proof.
  intros Hw. unfold Storage.getQueuedDownloads. split.
  - rewrite (Permutation_map Download.id (sortByRank_perm _)).
    apply NoDup_map_filter. rewrite (wellKeyed_ids s Hw). now destruct Hw.
  - intros d Hin.
    apply (Permutation_in _ (sortByRank_perm _)) in Hin.
    apply filter_In in Hin as [Hin Hq]. split; [now apply wellKeyed_value_get|].
    unfold Storage.hasStatus in Hq. now apply bool_decide_eq_true in Hq.
Qed.

Lemma In_firstn_In {A : Type} (n : nat) (l : list A) x : In x (firstn n l) -> In x l.
Proof. intros H. rewrite <- (firstn_skipn n l). apply in_or_app. now left. Qed.

Lemma In_slice0 {A : Type} (e : Z) (l : list A) x : In x (Routes.slice0 e l) -> In x l.
Proof. unfold Routes.slice0. destruct (Z.ltb e 0); apply In_firstn_In. Qed.

Lemma existsb_eqb_In i (l : list Z) : existsb (Z.eqb i) l = true <-> In i l.
Proof.
  rewrite existsb_exists. split.
  - intros (x & Hx & E). apply Z.eqb_eq in E. now subst.
  - intros H. exists i. split; [exact H | apply Z.eqb_refl].
Qed.

Lemma idle_pass_exact :
  forall (now : Date) (m : Z) (w : Routes.Server),
    wellKeyed (Routes.storage w) ->
    Routes.limit w = Some m ->
    1 <= m ->
    Routes.activeCount w = 0 ->
    Routes.activeCount (Routes.processDownloadQueue now w)
    = Z.min m (Z.of_nat (queuedCount w)) /\
    forall i,
      Storage.getDownloadById i (Routes.storage (Routes.processDownloadQueue now w))
      = option_map
          (fun d => if existsb (Z.eqb i) (firstInQueue m w)
                    then Storage.merge d (Partial.ofStatus downloading) else d)
          (Storage.getDownloadById i (Routes.storage w)).
Proof.
  intros now m w Hw Hl Hm Hidle.
  unfold Routes.processDownloadQueue, firstInQueue, queuedCount.
  unfold Routes.activeCount in Hidle.
  destruct (Nat.ltb _ _) eqn:Hact; [apply Nat.ltb_lt in Hact; lia|].
  unfold Routes.limit in Hl.
  destruct (Storage.getSettings _) as [st|]; [|discriminate].
  simpl in Hl. rewrite Hl.
  assert (Hz : Z.eqb m 0 = false) by (apply Z.eqb_neq; lia). rewrite Hz.
  destruct (Nat.eqb _ _) eqn:Hq.
  - apply Nat.eqb_eq in Hq. split.
    + unfold Routes.activeCount. rewrite Hq. lia.
    + intros i. apply length_zero_iff_nil in Hq. rewrite Hq.
      unfold Routes.slice0. destruct (Z.ltb m 0); rewrite firstn_nil; simpl;
        now destruct (Storage.getDownloadById i _).
  - split; [|intros i; apply startAll_get_exact].
    rewrite activeCount_countStatus.
    destruct (queued_rows _ Hw) as [Hnd Hrows].
    rewrite startAll_count_exact.
    + assert (Hc : countStatus downloading (Storage.downloadsList (Routes.storage w)) = 0%nat).
      { unfold Storage.getActiveDownloads in Hidle. rewrite length_sortByRank in Hidle.
        unfold countStatus. lia. }
      rewrite Hc. unfold Routes.slice0.
      destruct (Z.ltb m 0) eqn:E; [apply Z.ltb_lt in E; lia|].
      rewrite length_firstn. lia.
    + unfold Routes.slice0. destruct (Z.ltb m 0); now apply NoDup_map_firstn.
    + intros x Hx. apply In_slice0 in Hx. destruct (Hrows x Hx) as [Hg Hs].
      exists x. split; [exact Hg|]. rewrite Hs. discriminate.
Qed.

(** X2. On a well keyed table with no active row and a limit [m >= 1],
    the pass admits the first [m] rows of the ranked queue, or all of
    them when there are fewer: afterwards the number of active rows is
    the smaller of [m] and the number of queued rows, exactly the rows at
    the head of the queue scan are ['downloading'] and nothing else of any row
    has changed. *)
Theorem X2_idle_pass_admits_head_of_queue :
  forall (now : Date) (m : Z) (w : Routes.Server),
    wellKeyed (Routes.storage w) ->
    Routes.limit w = Some m ->
    1 <= m ->
    Routes.activeCount w = 0 ->
    Routes.activeCount (Routes.processDownloadQueue now w)
    = Z.min m (Z.of_nat (queuedCount w)) /\
    forall i,
      Storage.getDownloadById i (Routes.storage (Routes.processDownloadQueue now w))
      = option_map
          (fun d => if existsb (Z.eqb i) (firstInQueue m w)
                    then Storage.merge d (Partial.ofStatus downloading) else d)
          (Storage.getDownloadById i (Routes.storage w)).
Proof. exact idle_pass_exact. Qed.

(** [X2_idle_pass_admits_head_of_queue] on three queued rows and a limit
    of two. *)
Lemma X2_witness :
  wellKeyed (Routes.storage (Sample.server 2 [Sample.row 1 "730" queued 1;
                                              Sample.row 2 "440" queued 2;
                                              Sample.row 3 "570" queued 3])) /\
  Routes.activeCount
    (Routes.processDownloadQueue 10
       (Sample.server 2 [Sample.row 1 "730" queued 1;
                         Sample.row 2 "440" queued 2;
                         Sample.row 3 "570" queued 3]))
  = Z.min 2 3.
Proof.
  assert (H : wellKeyed (Routes.storage (Sample.server 2 [Sample.row 1 "730" queued 1;
                                                          Sample.row 2 "440" queued 2;
                                                          Sample.row 3 "570" queued 3])))
    by (apply (bool_decide_unpack _); vm_compute; exact I).
  split; [exact H|].
  assert (Hm : 1 <= 2) by lia.
  exact (proj1 (X2_idle_pass_admits_head_of_queue 10 2 _ H eq_refl Hm eq_refl)).
Defined.

Lemma pass_frame :
  forall (now : Date) (w : Routes.Server) (i : Z),
    wellKeyed (Routes.storage w) ->
    match Storage.getDownloadById i (Routes.storage w) with
    | None =>
        Storage.getDownloadById i (Routes.storage (Routes.processDownloadQueue now w)) = None
    | Some d =>
        exists d',
          Storage.getDownloadById i (Routes.storage (Routes.processDownloadQueue now w))
          = Some d' /\
          admittedOrSame d d' /\
          (Download.status d <> queued -> d' = d)
    end.
Proof.
  intros now w i Hw.
  destruct (Storage.getDownloadById i (Routes.storage w)) as [d|] eqn:Hget.
  - unfold Routes.processDownloadQueue.
    destruct (Nat.ltb _ _); [exists d; split; [exact Hget|split; [now left|tauto]]|].
    destruct (Storage.getSettings _) as [st|];
      [|exists d; split; [exact Hget|split; [now left|tauto]]].
    destruct (Nat.eqb _ _); [exists d; split; [exact Hget|split; [now left|tauto]]|].
    rewrite startAll_get_exact, Hget. simpl.
    eexists. split; [reflexivity|].
    destruct (existsb _ _) eqn:E.
    + split; [now right|]. intros Hnq. exfalso.
      apply existsb_eqb_In, in_map_iff in E as (x & Hx & Hin).
      apply In_slice0 in Hin. destruct (queued_rows _ Hw) as [_ Hrows].
      destruct (Hrows x Hin) as [Hg Hs]. rewrite Hx, Hget in Hg.
      injection Hg as ->. contradiction.
    + split; [now left|tauto].
  - unfold Routes.processDownloadQueue.
    destruct (Nat.ltb _ _); [exact Hget|].
    destruct (Storage.getSettings _) as [st|]; [|exact Hget].
    destruct (Nat.eqb _ _); [exact Hget|].
    now rewrite startAll_get_exact, Hget.
Qed.

(** X3. On a well keyed table the pass touches queued rows only: a row
    that is not queued is exactly as before, a queued row is as before
    or has become ['downloading'] with every other field kept, and no
    row appears or disappears. *)
Theorem X3_pass_changes_only_queued_rows :
  forall (now : Date) (w : Routes.Server) (i : Z),
    wellKeyed (Routes.storage w) ->
    match Storage.getDownloadById i (Routes.storage w) with
    | None =>
        Storage.getDownloadById i (Routes.storage (Routes.processDownloadQueue now w)) = None
    | Some d =>
        exists d',
          Storage.getDownloadById i (Routes.storage (Routes.processDownloadQueue now w))
          = Some d' /\
          admittedOrSame d d' /\
          (Download.status d <> queued -> d' = d)
    end.
Proof. exact pass_frame. Qed.

(** [X3_pass_changes_only_queued_rows] on a paused row next to a queued
    one. *)
Lemma X3_witness :
  wellKeyed (Routes.storage (Sample.server 1 [Sample.row 1 "730" paused 1;
                                              Sample.row 2 "440" queued 2])) /\
  exists d',
    Storage.getDownloadById 1
      (Routes.storage
         (Routes.processDownloadQueue 10
            (Sample.server 1 [Sample.row 1 "730" paused 1; Sample.row 2 "440" queued 2])))
    = Some d' /\
    (Download.status (Sample.row 1 "730" paused 1) <> queued ->
     d' = Sample.row 1 "730" paused 1).
Proof.
  assert (H : wellKeyed (Routes.storage (Sample.server 1 [Sample.row 1 "730" paused 1;
                                                          Sample.row 2 "440" queued 2])))
    by (apply (bool_decide_unpack _); vm_compute; exact I).
  split; [exact H|].
  pose proof (X3_pass_changes_only_queued_rows 10 _ 1 H) as Hx.
  simpl in Hx. destruct Hx as (d' & H1 & _ & H2).
  exists d'. split; [exact H1 | exact H2].
Defined.

(** ** Repeating the pass *)

Lemma startDownload_same_or_active now k w :
  Routes.startDownload now k w = w \/
  (0 < countStatus downloading
         (Storage.downloadsList (Routes.storage (Routes.startDownload now k w))))%nat.
Proof.
  unfold Routes.startDownload, Storage.updateDownload, Storage.getDownloadById.
  destruct (JsMap.get k (Storage.downloadsList (Routes.storage w))) as [d|] eqn:Hget; simpl.
  - right. rewrite get_set_eq. simpl. now apply countStatus_set_pos.
  - left. rewrite Hget. now destruct w.
Qed.

Lemma startDownload_count_mono now k w :
  (countStatus downloading (Storage.downloadsList (Routes.storage w))
   <= countStatus downloading
        (Storage.downloadsList (Routes.storage (Routes.startDownload now k w))))%nat.
Proof.
  rewrite startDownload_storage. unfold Storage.updateDownload.
  destruct (JsMap.get k _) as [d|]; simpl; [|lia].
  now apply countStatus_set_ge.
Qed.

Lemma startAll_same_or_active now (l : list Download.t) w :
  fold_left (fun w' x => Routes.startDownload now (Download.id x) w') l w = w \/
  (0 < countStatus downloading
         (Storage.downloadsList
            (Routes.storage
               (fold_left (fun w' x => Routes.startDownload now (Download.id x) w') l w))))%nat.
Proof.
  assert (Hmono : forall l w,
    (countStatus downloading (Storage.downloadsList (Routes.storage w))
     <= countStatus downloading
          (Storage.downloadsList
             (Routes.storage
                (fold_left (fun w' x => Routes.startDownload now (Download.id x) w') l w))))%nat).
  { clear. intros l. induction l as [|x r IH]; intros w; simpl; [lia|].
    etransitivity; [apply (startDownload_count_mono now (Download.id x))|apply IH]. }
  revert w. induction l as [|x r IH]; intros w; simpl; [now left|].
  destruct (startDownload_same_or_active now (Download.id x) w) as [Heq|Hpos].
  - rewrite Heq. apply IH.
  - right. eapply Nat.lt_le_trans; [exact Hpos|apply Hmono].
Qed.

Lemma startDownload_clock now now' k w :
  Routes.startDownload now k w = Routes.startDownload now' k w.
Proof.
  unfold Routes.startDownload, Storage.updateDownload.
  now destruct (JsMap.get k _).
Qed.

Lemma pass_clock now now' w :
  Routes.processDownloadQueue now w = Routes.processDownloadQueue now' w.
Proof.
  unfold Routes.processDownloadQueue.
  destruct (Nat.ltb _ _); [reflexivity|].
  destruct (Storage.getSettings _) as [st|]; [|reflexivity].
  destruct (Nat.eqb _ _); [reflexivity|].
  generalize (Routes.slice0
                match maxConcurrentDownloads st with
                | Some m => if Z.eqb m 0 then 1 else m
                | None => 1
                end (Storage.getQueuedDownloads (Routes.storage w))).
  intros l. generalize w. induction l as [|x r IH]; intros u; simpl; [reflexivity|].
  now rewrite IH, (startDownload_clock now now').
Qed.

Lemma pass_same_or_active now w :
  Routes.processDownloadQueue now w = w \/
  0 < Routes.activeCount (Routes.processDownloadQueue now w).
Proof.
  unfold Routes.processDownloadQueue.
  destruct (Nat.ltb _ _); [now left|].
  destruct (Storage.getSettings _) as [st|]; [|now left].
  destruct (Nat.eqb _ _); [now left|].
  match goal with |- fold_left _ ?l _ = _ \/ _ =>
    destruct (startAll_same_or_active now l w) as [Heq|Hpos] end.
  - now left.
  - right. rewrite activeCount_countStatus. lia.
Qed.

(** X4. The admission pass is idempotent: a second pass right after a
    pass, at whatever time, changes nothing, on every server state. *)
Theorem X4_pass_is_idempotent :
  forall (now now' : Date) (w : Routes.Server),
    Routes.processDownloadQueue now' (Routes.processDownloadQueue now w)
    = Routes.processDownloadQueue now w.
Proof.
  intros now now' w. rewrite (pass_clock now' now).
  destruct (pass_same_or_active now w) as [Heq|Hpos].
  - now rewrite !Heq.
  - now apply pass_returns_while_active.
Qed.

(** X5. On a well keyed table with a limit [m >= 1] the pass never
    leaves the server idle with rows waiting: if no row is active after
    a pass, no row is queued either. *)
Theorem X5_pass_leaves_no_queue_behind_an_idle_server :
  forall (now : Date) (m : Z) (w : Routes.Server),
    wellKeyed (Routes.storage w) ->
    Routes.limit w = Some m ->
    1 <= m ->
    Routes.activeCount (Routes.processDownloadQueue now w) = 0 ->
    Storage.getQueuedDownloads (Routes.storage (Routes.processDownloadQueue now w)) = [].
Proof.
  intros now m w Hw Hl Hm Hidle.
  destruct (pass_same_or_active now w) as [Heq|Hpos]; [|lia].
  rewrite Heq in *.
  destruct (idle_pass_exact now m w Hw Hl Hm Hidle) as [Hc _].
  rewrite Heq, Hidle in Hc. unfold queuedCount in Hc.
  apply length_zero_iff_nil. lia.
Qed.

(** [X5_pass_leaves_no_queue_behind_an_idle_server] on a table whose
    only row is finished. *)
Lemma X5_witness :
  wellKeyed (Routes.storage Sample.oneCompleted) /\
  Routes.activeCount (Routes.processDownloadQueue 10 Sample.oneCompleted) = 0 /\
  Storage.getQueuedDownloads (Routes.storage (Routes.processDownloadQueue 10 Sample.oneCompleted))
  = [].
Proof.
  assert (H : wellKeyed (Routes.storage Sample.oneCompleted))
    by (apply (bool_decide_unpack _); vm_compute; exact I).
  assert (Hm : 1 <= 1) by lia.
  split; [exact H|]. split; [reflexivity|].
  exact (X5_pass_leaves_no_queue_behind_an_idle_server 10 1 _ H eq_refl Hm eq_refl).
Defined.

(** ** The scans of the table *)

Lemma sortByRank_id l :
  StronglySorted (fun a b => Storage.rank a <= Storage.rank b) l -> Storage.sortByRank l = l.
Proof.
  induction l as [|x r IH]; intros Hs; simpl; [reflexivity|].
  inversion Hs as [|? ? Hr Hall]; subst. rewrite (IH Hr).
  destruct r as [|y r']; simpl; [reflexivity|].
  apply Forall_cons in Hall as [Hxy _].
  now rewrite (proj2 (Z.leb_le _ _) Hxy).
Qed.

(** X6. The three scans of the table return exactly the rows of their
    status (all rows for [getAllDownloads]), in ascending order of
    [queuePosition || 999]; rows that are stored in that order already
    come back in the order they are stored in. *)
Theorem X6_scans_sort_by_rank :
  forall (s : Storage.MemStorage),
    let rows := JsMap.values (Storage.downloadsList s) in
    let ascending := StronglySorted (fun a b => Storage.rank a <= Storage.rank b) in
    (Permutation (Storage.getAllDownloads s) rows /\
     ascending (Storage.getAllDownloads s)) /\
    (Permutation (Storage.getActiveDownloads s)
       (List.filter (Storage.hasStatus downloading) rows) /\
     ascending (Storage.getActiveDownloads s)) /\
    (Permutation (Storage.getQueuedDownloads s)
       (List.filter (Storage.hasStatus queued) rows) /\
     ascending (Storage.getQueuedDownloads s)) /\
    (ascending rows -> Storage.getAllDownloads s = rows) /\
    (ascending (List.filter (Storage.hasStatus queued) rows) ->
     Storage.getQueuedDownloads s = List.filter (Storage.hasStatus queued) rows).
Proof.
  intros s rows ascending.
  unfold Storage.getAllDownloads, Storage.getActiveDownloads, Storage.getQueuedDownloads.
  repeat split; try apply sortByRank_perm; try apply sortByRank_sorted;
    apply sortByRank_id.
Qed.

(** ** [createDownload] and [removeDownload] *)

Lemma maxQueue_bounds s :
  0 <= Storage.maxQueue s /\
  forall k d, JsMap.get k (Storage.downloadsList s) = Some d ->
              Download.queuePosition d <= Storage.maxQueue s.
Proof.
  unfold Storage.maxQueue, JsMap.values.
  induction (Storage.downloadsList s) as [|[k0 d0] r [IH0 IH]]; simpl.
  - split; [lia|discriminate].
  - split; [lia|]. intros k d. destruct (Z.eqb k0 k).
    + intros [= ->]. lia.
    + intros H. specialize (IH k d H). lia.
Qed.

(** X7. On a well keyed table whose id counter and queue positions are
    below [Number.MAX_SAFE_INTEGER] (where the additions of the code
    are exact), [createDownload] files the new row under an id no row
    had, leaves every other row as it is and lets the table grow by
    one; the new row is queued at progress 0 and its queue position is
    at least 1 and strictly greater than the position of every row
    already stored. *)
Theorem X7_createDownload_appends_behind_every_row :
  forall (now : Date) (data : InsertDownload) (s : Storage.MemStorage),
    wellKeyed s ->
    exactIncrements s ->
    let d := fst (Storage.createDownload now data s) in
    let s' := snd (Storage.createDownload now data s) in
    Storage.getDownloadById (Download.id d) s = None /\
    Storage.getDownloadById (Download.id d) s' = Some d /\
    (forall k, k <> Download.id d ->
               Storage.getDownloadById k s' = Storage.getDownloadById k s) /\
    length (Storage.downloadsList s') = S (length (Storage.downloadsList s)) /\
    Download.status d = queued /\
    Download.progress d = 0 /\
    Download.appId d = ins_appId data /\
    1 <= Download.queuePosition d /\
    (forall k d0, Storage.getDownloadById k s = Some d0 ->
                  Download.queuePosition d0 < Download.queuePosition d) /\
    Storage.downloadCurrentId s' = Download.id d + 1.
Proof.
  intros now data s [Hnd Hall] _ d s'. subst d s'. unfold Storage.getDownloadById. simpl.
  assert (Hfresh : JsMap.get (Storage.downloadCurrentId s) (Storage.downloadsList s) = None).
  { apply notin_get_None. intros Hin. apply in_map_iff in Hin as ([k d] & Hk & Hin).
    simpl in Hk. subst k. rewrite Forall_forall in Hall.
    apply list_elem_of_In in Hin. destruct (Hall _ Hin) as [_ Hlt]. simpl in Hlt. lia. }
  destruct (maxQueue_bounds s) as [H0 Hmax].
  split; [exact Hfresh|]. split; [apply get_set_eq|].
  split; [intros k Hk; apply get_set_ne; congruence|].
  split; [rewrite (set_new _ _ _ Hfresh), length_app; simpl; lia|].
  repeat split; try lia.
  intros k d0 Hget. specialize (Hmax k d0 Hget). lia.
Qed.

(** [X7_createDownload_appends_behind_every_row] on a table of three
    rows. *)
Lemma X7_witness :
  wellKeyed (Routes.storage Sample.pausedQueuedActive) /\
  exactIncrements (Routes.storage Sample.pausedQueuedActive) /\
  Storage.getDownloadById 4
    (snd (Storage.createDownload 10 (Sample.request "10") (Routes.storage Sample.pausedQueuedActive)))
  = Some (fst (Storage.createDownload 10 (Sample.request "10")
                 (Routes.storage Sample.pausedQueuedActive))) /\
  1 <= Download.queuePosition
         (fst (Storage.createDownload 10 (Sample.request "10")
                 (Routes.storage Sample.pausedQueuedActive))).
Proof.
  assert (H : wellKeyed (Routes.storage Sample.pausedQueuedActive))
    by (apply (bool_decide_unpack _); vm_compute; exact I).
  assert (Hs : exactIncrements (Routes.storage Sample.pausedQueuedActive))
    by (vm_compute; repeat split; discriminate).
  pose proof (X7_createDownload_appends_behind_every_row 10 (Sample.request "10") _ H Hs)
    as (_ & H2 & _ & _ & _ & _ & _ & H8 & _).
  split; [exact H|]. split; [exact Hs|]. split; [exact H2 | exact H8].
Defined.

(** X8. On a well keyed table [removeDownload] answers whether the id
    had a row, leaves no row under the id, keeps every other row and
    does not move the id counter, so the id is not handed out again. *)
Theorem X8_removeDownload_removes_exactly_one_row :
  forall (i : Z) (s : Storage.MemStorage),
    wellKeyed s ->
    let s' := snd (Storage.removeDownload i s) in
    fst (Storage.removeDownload i s) = bool_decide (is_Some (Storage.getDownloadById i s)) /\
    Storage.getDownloadById i s' = None /\
    (forall k, k <> i -> Storage.getDownloadById k s' = Storage.getDownloadById k s) /\
    Storage.downloadCurrentId s' = Storage.downloadCurrentId s /\
    (is_Some (Storage.getDownloadById i s) -> i < Storage.downloadCurrentId s').
Proof.
  intros i s Hw s'. subst s'. unfold Storage.getDownloadById. simpl.
  split; [reflexivity|]. split; [apply get_delete_eq; now destruct Hw|].
  split; [intros k Hk; apply get_delete_ne; congruence|]. split; [reflexivity|].
  intros [d Hd]. destruct Hw as [_ Hall]. rewrite Forall_forall in Hall.
  apply get_Some_In, list_elem_of_In in Hd. now destruct (Hall _ Hd).
Qed.

(** [X8_removeDownload_removes_exactly_one_row] on the middle row of
    three. *)
Lemma X8_witness :
  wellKeyed (Routes.storage Sample.threeQueued) /\
  fst (Storage.removeDownload 2 (Routes.storage Sample.threeQueued)) = true /\
  Storage.getDownloadById 2 (snd (Storage.removeDownload 2 (Routes.storage Sample.threeQueued)))
  = None.
Proof.
  assert (H : wellKeyed (Routes.storage Sample.threeQueued))
    by (apply (bool_decide_unpack _); vm_compute; exact I).
  pose proof (X8_removeDownload_removes_exactly_one_row 2 _ H) as (H1 & H2 & _).
  split; [exact H|]. split; [exact H1 | exact H2].
Defined.

(** ** The handlers on a row *)

Lemma pass_steam now w : Routes.steam (Routes.processDownloadQueue now w) = Routes.steam w.
Proof.
  unfold Routes.processDownloadQueue.
  destruct (Nat.ltb _ _); [reflexivity|].
  destruct (Storage.getSettings _) as [st|]; [|reflexivity].
  destruct (Nat.eqb _ _); [reflexivity|].
  match goal with |- Routes.steam (fold_left _ ?l _) = _ => generalize l end.
  intros l. generalize w. induction l as [|x r IH]; intros u; simpl; [reflexivity|].
  rewrite IH. unfold Routes.startDownload.
  now destruct (Storage.getDownloadById _ _).
Qed.

(** A row written with a status other than ['queued'] is still the
    written row after the pass that follows. *)
Lemma update_then_pass now i u d st jobs s :
  wellKeyed s -> Partial.id u = None ->
  Storage.getDownloadById i s = Some d ->
  Download.status (Storage.merge d u) <> queued ->
  Storage.getDownloadById i
    (Routes.storage
       (Routes.processDownloadQueue now
          (Routes.mk (snd (Storage.updateDownload now i u s)) st jobs)))
  = fst (Storage.updateDownload now i u s).
Proof.
  intros Hw Hu Hget Hst.
  pose proof (pass_frame now (Routes.mk (snd (Storage.updateDownload now i u s)) st jobs) i
                (updateDownload_wellKeyed now i u s Hu Hw)) as Hf.
  simpl in Hf. unfold Storage.updateDownload in *. unfold Storage.getDownloadById in Hget.
  rewrite Hget in *. simpl in *. unfold Storage.getDownloadById in Hf at 1. simpl in Hf.
  rewrite get_set_eq in Hf. destruct Hf as (d' & Hd' & _ & Hsame).
  rewrite Hd'. f_equal. apply Hsame. now rewrite updated_status.
Qed.

(** X9. On a well keyed table the pause request of a ['downloading'] row
    is answered 200; afterwards the row is ['paused'] with every other
    field kept (the pass that follows does not re-admit it), the
    transfer registry has no entry for it and the process that was
    registered has been sent [kill()]. For a row of any other status the
    request is answered 400 and nothing changes. *)
Theorem X9_pause_stops_the_transfer_and_keeps_the_row :
  forall (now : Date) (i : Z) (w : Routes.Server) (d : Download.t),
    wellKeyed (Routes.storage w) ->
    Storage.getDownloadById i (Routes.storage w) = Some d ->
    (Download.status d = downloading ->
     fst (Routes.postPause now (Some i) w) = 200 /\
     Storage.getDownloadById i (Routes.storage (snd (Routes.postPause now (Some i) w)))
     = Some (Storage.merge d (Partial.ofStatus paused)) /\
     SteamCmd.activeDownloads (Routes.steam (snd (Routes.postPause now (Some i) w))) !! i
     = None /\
     SteamCmd.killed (Routes.steam (snd (Routes.postPause now (Some i) w)))
     = match SteamCmd.activeDownloads (Routes.steam w) !! i with
       | Some h => SteamCmd.process h :: SteamCmd.killed (Routes.steam w)
       | None => SteamCmd.killed (Routes.steam w)
       end) /\
    (Download.status d <> downloading -> Routes.postPause now (Some i) w = (400, w)).
Proof.
  intros now i w d Hw Hget. split.
  - intros Hs. unfold Routes.postPause. rewrite Hget.
    rewrite bool_decide_eq_false_2 by (intros H; now apply H).
    simpl. split; [reflexivity|]. split.
    + unfold Routes.clearJob. simpl.
      rewrite (update_then_pass now i (Partial.ofStatus paused) d); try assumption;
        try reflexivity; try discriminate.
      unfold Storage.updateDownload. unfold Storage.getDownloadById in Hget.
      now rewrite Hget.
    + rewrite pass_steam. simpl. unfold SteamCmd.pauseDownload, SteamCmd.cancelDownload.
      destruct (SteamCmd.activeDownloads (Routes.steam w) !! i) eqn:E; simpl.
      * split; [apply lookup_delete_eq | reflexivity].
      * split; [exact E | reflexivity].
  - intros Hs. unfold Routes.postPause. rewrite Hget. now rewrite bool_decide_eq_true_2.
Qed.

(** [X9_pause_stops_the_transfer_and_keeps_the_row] on the active and on
    the queued row of a table. *)
Lemma X9_witness :
  wellKeyed (Routes.storage Sample.oneActiveOneQueued) /\
  Storage.getDownloadById 1
    (Routes.storage (snd (Routes.postPause 10 (Some 1) Sample.oneActiveOneQueued)))
  = Some (Sample.row 1 "730" paused 1) /\
  Routes.postPause 10 (Some 2) Sample.oneActiveOneQueued = (400, Sample.oneActiveOneQueued).
Proof.
  assert (H : wellKeyed (Routes.storage Sample.oneActiveOneQueued))
    by (apply (bool_decide_unpack _); vm_compute; exact I).
  pose proof (X9_pause_stops_the_transfer_and_keeps_the_row 10 1 _
                (Sample.row 1 "730" downloading 1) H eq_refl) as [Hp _].
  pose proof (X9_pause_stops_the_transfer_and_keeps_the_row 10 2 _
                (Sample.row 2 "440" queued 2) H eq_refl) as [_ Hq].
  split; [exact H|]. split.
  - exact (proj1 (proj2 (Hp eq_refl))).
  - apply Hq. discriminate.
Defined.

(** X10. On a well keyed table the cancel request is answered 200 for
    every stored row, whatever its status: afterwards the row is
    ['canceled'] with every other field kept, a finished row included;
    the transfer registry loses its entry for the row exactly when the
    row was ['downloading'], and is untouched otherwise. *)
Theorem X10_cancel_overwrites_any_status :
  forall (now : Date) (i : Z) (w : Routes.Server) (d : Download.t),
    wellKeyed (Routes.storage w) ->
    Storage.getDownloadById i (Routes.storage w) = Some d ->
    fst (Routes.postCancel now (Some i) w) = 200 /\
    Storage.getDownloadById i (Routes.storage (snd (Routes.postCancel now (Some i) w)))
    = Some (Storage.merge d (Partial.ofStatus canceled)) /\
    Routes.steam (snd (Routes.postCancel now (Some i) w))
    = if bool_decide (Download.status d = downloading)
      then snd (SteamCmd.cancelDownload i (Routes.steam w))
      else Routes.steam w.
Proof.
  intros now i w d Hw Hget. unfold Routes.postCancel. rewrite Hget. simpl.
  split; [reflexivity|]. split.
  - unfold Routes.withStorage.
    rewrite (update_then_pass now i (Partial.ofStatus canceled) d);
      try reflexivity; try discriminate;
      try (now rewrite stopIfActive_storage).
    rewrite stopIfActive_storage. unfold Storage.updateDownload.
    unfold Storage.getDownloadById in Hget. now rewrite Hget.
  - rewrite pass_steam. simpl. unfold Routes.stopIfActive.
    now destruct (bool_decide _).
Qed.

(** [X10_cancel_overwrites_any_status] on a finished download. *)
Lemma X10_witness :
  wellKeyed (Routes.storage Sample.oneCompleted) /\
  Storage.getDownloadById 1 (Routes.storage Sample.oneCompleted)
  = Some (Sample.row 1 "730" completed 1) /\
  Storage.getDownloadById 1
    (Routes.storage (snd (Routes.postCancel 10 (Some 1) Sample.oneCompleted)))
  = Some (Sample.row 1 "730" canceled 1).
Proof.
  assert (H : wellKeyed (Routes.storage Sample.oneCompleted))
    by (apply (bool_decide_unpack _); vm_compute; exact I).
  split; [exact H|]. split; [reflexivity|].
  exact (proj1 (proj2 (X10_cancel_overwrites_any_status 10 1 _
                         (Sample.row 1 "730" completed 1) H eq_refl))).
Defined.

Lemma countStatus_set_unflip s k d d0 m :
  JsMap.get k m = Some d0 -> Download.status d0 = s -> Download.status d <> s ->
  S (countStatus s (JsMap.set k d m)) = countStatus s m.
Proof.
  intros Hget Hs Hne. induction m as [|[k1 d1] r IH]; simpl in *; [discriminate|].
  destruct (Z.eqb k1 k); rewrite !countStatus_cons.
  - injection Hget as ->. unfold Storage.hasStatus.
    rewrite (bool_decide_eq_true_2 _ Hs), (bool_decide_eq_false_2 _ Hne). reflexivity.
  - rewrite <- IH by exact Hget. lia.
Qed.

Lemma countStatus_set_neutral s k d d0 m :
  JsMap.get k m = Some d0 -> Download.status d0 <> s -> Download.status d <> s ->
  countStatus s (JsMap.set k d m) = countStatus s m.
Proof.
  intros Hget Hs Hne. induction m as [|[k1 d1] r IH]; simpl in *; [discriminate|].
  destruct (Z.eqb k1 k); rewrite !countStatus_cons.
  - injection Hget as ->. unfold Storage.hasStatus.
    rewrite (bool_decide_eq_false_2 _ Hs), (bool_decide_eq_false_2 _ Hne). reflexivity.
  - now rewrite IH.
Qed.

Lemma queuedCount_countStatus w :
  queuedCount w = countStatus queued (Storage.downloadsList (Routes.storage w)).
Proof.
  unfold queuedCount, Storage.getQueuedDownloads, countStatus.
  now rewrite length_sortByRank.
Qed.

(** The update the settle callbacks write for an outcome. *)
Lemma settled_unfold now i o w :
  exists u,
    Routes.settled now i o w
    = Routes.processDownloadQueue now
        (Routes.mk (snd (Storage.updateDownload now i u (Routes.storage w)))
                   (Routes.steam w) (Routes.activeDownloadJobs w ∖ {[i]})) /\
    Partial.id u = None /\
    (Partial.status u = Some completed \/ Partial.status u = Some failed) /\
    (o = Routes.Resolved true -> u = Partial.ofCompletion now) /\
    (o = Routes.Resolved false -> u = Partial.ofFailure "Download failed").
Proof.
  unfold Routes.settled, Routes.withStorage, Routes.clearJob. simpl.
  destruct o as [[|]|msg]; eexists; (split; [reflexivity|]); simpl;
    repeat split; auto; discriminate.
Qed.

(** X11. On a well keyed table with limit [m >= 1], when the only
    active download settles, with whatever outcome, its row becomes
    ['completed'] or ['failed'] and the pass hands the free capacity to
    the queue: afterwards the number of active rows is the smaller of
    [m] and the number of rows that were queued. *)
Theorem X11_settling_hands_over_to_the_queue :
  forall (now : Date) (m i : Z) (o : Routes.Outcome) (w : Routes.Server) (d : Download.t),
    wellKeyed (Routes.storage w) ->
    Routes.limit w = Some m ->
    1 <= m ->
    Storage.getDownloadById i (Routes.storage w) = Some d ->
    Download.status d = downloading ->
    Routes.activeCount w = 1 ->
    Routes.activeCount (Routes.settled now i o w) = Z.min m (Z.of_nat (queuedCount w)) /\
    exists d',
      Storage.getDownloadById i (Routes.storage (Routes.settled now i o w)) = Some d' /\
      (Download.status d' = completed \/ Download.status d' = failed).
Proof.
  intros now m i o w d Hw Hl Hm Hget Hs Hone.
  destruct (settled_unfold now i o w) as (u & -> & Hid & Hst & _).
  set (w1 := Routes.mk (snd (Storage.updateDownload now i u (Routes.storage w)))
                       (Routes.steam w) (Routes.activeDownloadJobs w ∖ {[i]})).
  assert (Hw1 : wellKeyed (Routes.storage w1)) by now apply updateDownload_wellKeyed.
  assert (Hl1 : Routes.limit w1 = Some m).
  { unfold Routes.limit, Storage.getSettings in *. simpl.
    now rewrite updateDownload_settings. }
  assert (Hnew : Download.status (Storage.merge d u) <> downloading /\
                 Download.status (Storage.merge d u) <> queued /\
                 (Download.status (Storage.merge d u) = completed \/
                  Download.status (Storage.merge d u) = failed)).
  { simpl. destruct Hst as [-> | ->]; simpl; repeat split; auto; discriminate. }
  destruct Hnew as (Hnd & Hnq & Hcf).
  assert (Hlist : Storage.downloadsList (Routes.storage w1)
                  = JsMap.set i
                      (if Storage.stampsCompletion u
                       then Storage.setDateCompleted (Some now) (Storage.merge d u)
                       else Storage.merge d u)
                      (Storage.downloadsList (Routes.storage w))).
  { subst w1. simpl. unfold Storage.updateDownload.
    unfold Storage.getDownloadById in Hget. now rewrite Hget. }
  assert (Hidle : Routes.activeCount w1 = 0).
  { rewrite activeCount_countStatus in *. rewrite Hlist.
    pose proof (countStatus_set_unflip downloading i
                  (if Storage.stampsCompletion u
                   then Storage.setDateCompleted (Some now) (Storage.merge d u)
                   else Storage.merge d u) d _ Hget Hs) as Hc.
    rewrite updated_status in Hc. specialize (Hc Hnd). lia. }
  assert (Hq : queuedCount w1 = queuedCount w).
  { rewrite !queuedCount_countStatus, Hlist.
    apply countStatus_set_neutral with (d0 := d); [exact Hget| |].
    - rewrite Hs. discriminate.
    - now rewrite updated_status. }
  destruct (idle_pass_exact now m w1 Hw1 Hl1 Hm Hidle) as [Hc _].
  split; [now rewrite Hc, Hq|].
  exists (if Storage.stampsCompletion u
          then Storage.setDateCompleted (Some now) (Storage.merge d u)
          else Storage.merge d u).
  split; [|now rewrite updated_status].
  subst w1. rewrite (update_then_pass now i u d); try assumption.
  unfold Storage.updateDownload. unfold Storage.getDownloadById in Hget.
  now rewrite Hget.
Qed.

(** [X11_settling_hands_over_to_the_queue]: the active row of a table
    fails, the queued row behind it is admitted. *)
Lemma X11_witness :
  wellKeyed (Routes.storage Sample.oneActiveOneQueued) /\
  Routes.activeCount Sample.oneActiveOneQueued = 1 /\
  Routes.activeCount (Routes.settled 10 1 (Routes.Resolved false) Sample.oneActiveOneQueued)
  = Z.min 2 (Z.of_nat (queuedCount Sample.oneActiveOneQueued)).
Proof.
  assert (H : wellKeyed (Routes.storage Sample.oneActiveOneQueued))
    by (apply (bool_decide_unpack _); vm_compute; exact I).
  assert (Hm : 1 <= 2) by lia.
  split; [exact H|]. split; [reflexivity|].
  exact (proj1 (X11_settling_hands_over_to_the_queue 10 2 1 (Routes.Resolved false) _
                  (Sample.row 1 "730" downloading 1) H eq_refl Hm eq_refl eq_refl eq_refl)).
Defined.

(** ** Reordering the queue *)

Lemma lastIndexFrom_Some i k (l : list Z) j :
  lastIndexFrom i k l = Some j -> i <= j /\ nth_error l (Z.to_nat (j - i)) = Some k.
Proof.
  revert i. induction l as [|x r IH]; intros i; simpl; [discriminate|].
  destruct (lastIndexFrom (i + 1) k r) as [j'|] eqn:E.
  - intros [= ->]. destruct (IH _ E) as [Hle Hn]. split; [lia|].
    replace (Z.to_nat (j - i)) with (S (Z.to_nat (j - (i + 1)))) by lia. exact Hn.
  - destruct (Z.eqb x k) eqn:Ex; [|discriminate].
    intros [= ->]. apply Z.eqb_eq in Ex. subst. split; [lia|].
    now rewrite Z.sub_diag.
Qed.

Lemma lastIndexFrom_In i k (l : list Z) : In k l -> is_Some (lastIndexFrom i k l).
Proof.
  revert i. induction l as [|x r IH]; intros i; simpl; [tauto|].
  intros [->|Hin].
  - destruct (lastIndexFrom (i + 1) k r); [eauto|]. rewrite Z.eqb_refl. eauto.
  - destruct (IH (i + 1) Hin) as [j ->]. eauto.
Qed.

Lemma lastIndexFrom_None i k (l : list Z) : ~ In k l -> lastIndexFrom i k l = None.
Proof.
  revert i. induction l as [|x r IH]; intros i; simpl; [reflexivity|].
  intros H. rewrite IH by tauto.
  destruct (Z.eqb x k) eqn:E; [|reflexivity].
  apply Z.eqb_eq in E. subst. tauto.
Qed.

Lemma lastIndexFrom_inj i (l : list Z) a b j :
  lastIndexFrom i a l = Some j -> lastIndexFrom i b l = Some j -> a = b.
Proof.
  intros Ha Hb. apply lastIndexFrom_Some in Ha as [_ Ha], Hb as [_ Hb]. congruence.
Qed.

Lemma StronglySorted_ext_in {A : Type} (R R' : A -> A -> Prop) (l : list A) :
  (forall a b, In a l -> In b l -> R a b -> R' a b) ->
  StronglySorted R l -> StronglySorted R' l.
Proof.
  induction l as [|x r IH]; intros Hext Hs; [constructor|].
  inversion Hs as [|? ? Hr Hall]; subst. constructor.
  - apply IH; [|exact Hr]. intros a b Ha Hb. apply Hext; now right.
  - rewrite Forall_forall in *. intros y Hy. apply Hext; [now left| |now apply Hall].
    right. now apply list_elem_of_In.
Qed.

(** A list without repetitions is in strictly ascending order of the
    index [lastIndexFrom] gives its members. *)
Lemma order_sorted_by_index i (l : list Z) :
  NoDup l ->
  StronglySorted
    (fun a b => default 0 (lastIndexFrom i a l) < default 0 (lastIndexFrom i b l)) l.
Proof.
  revert i. induction l as [|x r IH]; intros i Hnd; [constructor|].
  apply NoDup_cons in Hnd as [Hx Hnd].
  assert (Hhead : lastIndexFrom i x (x :: r) = Some i).
  { simpl. rewrite lastIndexFrom_None, Z.eqb_refl; [reflexivity|].
    intros H. apply Hx. now apply list_elem_of_In. }
  assert (Htail : forall y, In y r ->
            exists j, lastIndexFrom i y (x :: r) = Some j /\
                      lastIndexFrom (i + 1) y r = Some j /\ i + 1 <= j).
  { intros y Hy. destruct (lastIndexFrom_In (i + 1) y r Hy) as [j Hj].
    exists j. simpl. rewrite Hj. repeat split.
    now apply lastIndexFrom_Some in Hj as [Hle _]. }
  constructor.
  - apply (StronglySorted_ext_in
             (fun a b => default 0 (lastIndexFrom (i + 1) a r)
                         < default 0 (lastIndexFrom (i + 1) b r))); [|now apply IH].
    intros a b Ha Hb.
    destruct (Htail a Ha) as (ja & -> & -> & _).
    destruct (Htail b Hb) as (jb & -> & -> & _). tauto.
  - apply Forall_forall. intros y Hy. apply list_elem_of_In in Hy.
    destruct (Htail y Hy) as (j & -> & _ & Hle). rewrite Hhead. simpl. lia.
Qed.

Lemma sorted_perm_unique {A : Type} (key : A -> Z) (l1 l2 : list A) :
  (forall a b : A, {a = b} + {a <> b}) ->
  StronglySorted (fun a b => key a < key b) l1 ->
  StronglySorted (fun a b => key a < key b) l2 ->
  Permutation l1 l2 -> l1 = l2.
Proof.
  intros dec. revert l2. induction l1 as [|a r1 IH]; intros l2 H1 H2 Hp.
  - now apply Permutation_nil in Hp.
  - destruct l2 as [|b r2]; [now apply Permutation_sym, Permutation_nil in Hp|].
    inversion H1 as [|? ? Hr1 Ha]; subst. inversion H2 as [|? ? Hr2 Hb]; subst.
    destruct (dec a b) as [->|Hne].
    + f_equal. apply IH; [exact Hr1|exact Hr2|]. now apply Permutation_cons_inv in Hp.
    + exfalso.
      assert (Ha2 : In a (b :: r2)) by (apply (Permutation_in _ Hp); now left).
      assert (Hb1 : In b (a :: r1))
        by (apply (Permutation_in _ (Permutation_sym Hp)); now left).
      destruct Ha2 as [->|Ha2]; [tauto|]. destruct Hb1 as [->|Hb1]; [tauto|].
      rewrite Forall_forall in Ha, Hb.
      pose proof (Ha b (proj2 (list_elem_of_In _ _) Hb1)).
      pose proof (Hb a (proj2 (list_elem_of_In _ _) Ha2)). lia.
Qed.

Lemma setQueuePosition_status p d :
  Download.status (Storage.setQueuePosition p d) = Download.status d.
Proof. reflexivity. Qed.

(** The rows of the queue scan after a reorder that lists exactly the
    queued ids: each is listed, and its rank is its index plus one. *)
Lemma reordered_queue_rows (order : list Z) s x :
  wellKeyed s ->
  (forall k, In k order <->
             exists d, Storage.getDownloadById k s = Some d /\ Download.status d = queued) ->
  In x (Storage.getQueuedDownloads (snd (Storage.updateDownloadQueue order s))) ->
  exists j, lastIndexFrom 0 (Download.id x) order = Some j /\ Storage.rank x = j + 1.
Proof.
  intros Hw Hq Hin.
  pose proof (reorderFrom_wellKeyed order 0 s Hw) as Hw'.
  destruct (queued_rows _ Hw') as [_ Hrows].
  destruct (Hrows x Hin) as [Hget Hst].
  unfold Storage.getDownloadById in Hget. simpl in Hget.
  rewrite reorderFrom_get in Hget.
  destruct (lastIndexFrom 0 (Download.id x) order) as [j|] eqn:Hj.
  - exists j. split; [reflexivity|].
    destruct (JsMap.get (Download.id x) (Storage.downloadsList s)) as [d|]; [|discriminate].
    injection Hget as <-. apply lastIndexFrom_Some in Hj as [Hle _].
    unfold Storage.rank. simpl.
    destruct (Z.eqb (j + 1) 0) eqn:E; [apply Z.eqb_eq in E; lia|reflexivity].
  - exfalso.
    assert (Hnone : lastIndexFrom 0 (Download.id x) order = None -> ~ In (Download.id x) order).
    { intros Hn Hi. destruct (lastIndexFrom_In 0 _ _ Hi) as [j' Hj']. congruence. }
    apply (Hnone Hj). apply Hq. exists x. split; [exact Hget|exact Hst].
Qed.

Lemma ids_sorted_by_index (order : list Z) (rows : list Download.t) :
  NoDup (map Download.id rows) ->
  StronglySorted (fun a b => Storage.rank a <= Storage.rank b) rows ->
  (forall x, In x rows ->
     exists j, lastIndexFrom 0 (Download.id x) order = Some j /\ Storage.rank x = j + 1) ->
  StronglySorted
    (fun a b => default 0 (lastIndexFrom 0 a order) < default 0 (lastIndexFrom 0 b order))
    (map Download.id rows).
Proof.
  induction rows as [|a r IH]; intros Hndq Hs Hall; simpl; [constructor|].
  inversion Hs as [|? ? Hr Ha]; subst. simpl in Hndq.
  apply NoDup_cons in Hndq as [Hna Hndr]. constructor.
  - apply IH; [exact Hndr|exact Hr|]. intros x Hx. apply Hall. now right.
  - apply Forall_forall. intros kb Hkb. apply list_elem_of_In, in_map_iff in Hkb.
    destruct Hkb as (b & <- & Hb).
    destruct (Hall a (or_introl eq_refl)) as (ja & Hja & Hra).
    destruct (Hall b (or_intror Hb)) as (jb & Hjb & Hrb).
    rewrite Hja, Hjb. simpl.
    rewrite Forall_forall in Ha.
    pose proof (Ha b (proj2 (list_elem_of_In _ _) Hb)) as Hle. simpl in Hle.
    assert (ja <> jb).
    { intros ->. apply Hna. rewrite (lastIndexFrom_inj 0 order _ _ jb Hja Hjb).
      apply list_elem_of_In. now apply in_map. }
    lia.
Qed.

Lemma reorder_scan_order (order : list Z) s :
  wellKeyed s ->
  NoDup order ->
  (forall k, In k order <->
             exists d, Storage.getDownloadById k s = Some d /\ Download.status d = queued) ->
  map Download.id (Storage.getQueuedDownloads (snd (Storage.updateDownloadQueue order s)))
  = order.
Proof.
  intros Hw Hnd Hq.
  pose proof (reorderFrom_wellKeyed order 0 s Hw) as Hw'.
  destruct (queued_rows _ Hw') as [Hndq Hrows].
  apply (sorted_perm_unique (fun k => default 0 (lastIndexFrom 0 k order))).
  - apply Z.eq_dec.
  - apply ids_sorted_by_index; [exact Hndq|apply sortByRank_sorted|].
    intros x Hx. now apply (reordered_queue_rows order s x Hw Hq).
  - now apply order_sorted_by_index.
  - apply NoDup_Permutation; [exact Hndq|exact Hnd|].
    intros k. rewrite !list_elem_of_In. split.
    + intros Hk. apply in_map_iff in Hk as (x & <- & Hx).
      destruct (reordered_queue_rows order s x Hw Hq Hx) as (j & Hj & _).
      destruct (in_dec Z.eq_dec (Download.id x) order) as [Hi|Hi]; [exact Hi|].
      rewrite (lastIndexFrom_None 0 _ _ Hi) in Hj. discriminate.
    + intros Hk. destruct (proj1 (Hq k) Hk) as (d & Hget & Hst).
      destruct (lastIndexFrom_In 0 k order Hk) as [j Hj].
      apply in_map_iff. exists (Storage.setQueuePosition (j + 1) d). split.
      * simpl. now apply (wellKeyed_get_id s k d).
      * unfold Storage.getQueuedDownloads.
        apply (Permutation_in _ (Permutation_sym (sortByRank_perm _))).
        apply filter_In. split.
        -- unfold JsMap.values. apply in_map_iff.
           exists (k, Storage.setQueuePosition (j + 1) d). split; [reflexivity|].
           apply get_Some_In. simpl. unfold Storage.getDownloadById in Hget.
           now rewrite reorderFrom_get, Hj, Hget.
        -- unfold Storage.hasStatus. apply bool_decide_eq_true_2.
           now rewrite setQueuePosition_status.
Qed.

(** X12. On a well keyed table, a reorder that lists the ids of the
    queued rows, each once and no other id, puts the queue in that
    order: afterwards the queue scan returns the rows in the order of
    the list. *)
Theorem X12_reorder_sets_the_scan_order :
  forall (order : list Z) (s : Storage.MemStorage),
    wellKeyed s ->
    NoDup order ->
    (forall k, In k order <->
               exists d, Storage.getDownloadById k s = Some d /\ Download.status d = queued) ->
    map Download.id (Storage.getQueuedDownloads (snd (Storage.updateDownloadQueue order s)))
    = order.
Proof. exact reorder_scan_order. Qed.

(** [X12_reorder_sets_the_scan_order] for the order 3, 1, 2 on three
    queued rows. *)
Lemma X12_witness :
  wellKeyed (Routes.storage Sample.threeQueued) /\
  NoDup [3; 1; 2] /\
  map Download.id
    (Storage.getQueuedDownloads
       (snd (Storage.updateDownloadQueue [3; 1; 2] (Routes.storage Sample.threeQueued))))
  = [3; 1; 2].
Proof.
  assert (H : wellKeyed (Routes.storage Sample.threeQueued))
    by (apply (bool_decide_unpack _); vm_compute; exact I).
  assert (Hnd : NoDup [3; 1; 2])
    by (apply (bool_decide_unpack _); vm_compute; exact I).
  split; [exact H|]. split; [exact Hnd|].
  apply (X12_reorder_sets_the_scan_order [3; 1; 2] _ H Hnd).
  intros k. split.
  - intros [<-|[<-|[<-|[]]]]; eexists; split; reflexivity.
  - intros (d & Hget & _).
    destruct (in_dec Z.eq_dec k [3; 1; 2]) as [Hi|Hi]; [exact Hi|].
    exfalso. unfold Storage.getDownloadById in Hget.
    rewrite notin_get_None in Hget; [discriminate|].
    intros Hk. apply Hi. simpl in Hk. simpl. tauto.
Defined.

(** ** A transfer fed with stdout chunks *)

Section FeedFacts.
Variable parse : string -> option SteamCmd.DownloadProgress.

(** One chunk: what the stdout handler does to its variables and to the
    module state, and which calls it makes. *)
Lemma onStdout_effect now output t st :
  let '(calls, t', st') := SteamCmd.onStdout parse now output t st in
  let prompt := SteamCmd.includes output "Steam Guard code:" in
  SteamCmd.stdoutData t' = SteamCmd.stdoutData t ++ output /\
  SteamCmd.downloadId t' = SteamCmd.downloadId t /\
  SteamCmd.pid t' = SteamCmd.pid t /\
  SteamCmd.activeDownloads st' = SteamCmd.activeDownloads st /\
  SteamCmd.stdinWrites st' = SteamCmd.stdinWrites st /\
  SteamCmd.killed st' = ((if prompt then [SteamCmd.pid t] else []) ++ SteamCmd.killed st)%list /\
  length (List.filter Feed.isTerminal calls) = (if prompt then 1 else 0)%nat /\
  ((List.filter Feed.isProgress calls = [] /\
    SteamCmd.lastProgressUpdate t' = SteamCmd.lastProgressUpdate t) \/
   (exists p, List.filter Feed.isProgress calls = [SteamCmd.OnProgressUpdate p] /\
              SteamCmd.lastProgressUpdate t + 1000 < now /\
              SteamCmd.lastProgressUpdate t' = now)).
Proof.
  unfold SteamCmd.onStdout.
  destruct (parse output) as [p|]; [destruct (Z.ltb _ _) eqn:E|];
    destruct (SteamCmd.includes output _); simpl; repeat split;
    try (left; split; reflexivity);
    right; exists p; repeat split; apply Z.ltb_lt in E; lia.
Qed.

Lemma progressTimes_app a b :
  Feed.progressTimes (a ++ b) = (Feed.progressTimes a ++ Feed.progressTimes b)%list.
Proof. unfold Feed.progressTimes. now rewrite List.filter_app, map_app. Qed.

Lemma progressTimes_stamp now (calls : list SteamCmd.Callback) :
  Feed.progressTimes (map (fun c => (now, c)) calls)
  = map (fun _ => now) (List.filter Feed.isProgress calls).
Proof.
  unfold Feed.progressTimes. induction calls as [|c r IH]; simpl; [reflexivity|].
  destruct (Feed.isProgress c); simpl; now rewrite IH.
Qed.

Lemma onStdoutAll_spaced chunks t st :
  Feed.spaced (SteamCmd.lastProgressUpdate t)
    (Feed.progressTimes (fst (fst (Feed.onStdoutAll parse chunks t st)))).
Proof.
  revert t st. induction chunks as [|[now output] rest IH]; intros t st; simpl; [exact I|].
  pose proof (onStdout_effect now output t st) as He.
  destruct (SteamCmd.onStdout parse now output t st) as [[calls t1] st1].
  specialize (IH t1 st1).
  destruct (Feed.onStdoutAll parse rest t1 st1) as [[calls' t2] st2]. simpl in *.
  rewrite progressTimes_app, progressTimes_stamp.
  destruct He as (_ & _ & _ & _ & _ & _ & _ & [[Hnone Hlast]|(p & Hone & Hlt & Hlast)]).
  - rewrite Hnone. simpl. now rewrite <- Hlast.
  - rewrite Hone. simpl. split; [exact Hlt|]. now rewrite <- Hlast.
Qed.
End FeedFacts.

(** X13. Progress reports are rate limited: whatever the progress
    parser finds and whenever the chunks arrive, each progress callback
    of a transfer comes more than 1000 ms after the one before it, and
    the first one more than 1000 ms after the start. *)
Theorem X13_progress_callbacks_are_a_second_apart :
  forall (parse : string -> option SteamCmd.DownloadProgress)
         (chunks : list (Z * string)) (t : SteamCmd.Transfer) (st : SteamCmd.State),
    Feed.spaced (SteamCmd.lastProgressUpdate t)
      (Feed.progressTimes (fst (fst (Feed.onStdoutAll parse chunks t st)))).
Proof. exact onStdoutAll_spaced. Qed.

Lemma string_app_assoc (a b c : string) : (a ++ b) ++ c = a ++ (b ++ c).
Proof.
  induction a as [|x a' IH]; [reflexivity|].
  change (String x ((a' ++ b) ++ c) = String x (a' ++ (b ++ c))). now rewrite IH.
Qed.

Lemma string_app_nil_r (a : string) : a ++ "" = a.
Proof.
  induction a as [|x a' IH]; [reflexivity|].
  change (String x (a' ++ "") = String x a'). now rewrite IH.
Qed.

Lemma repeat_app_cons {A : Type} (x : A) (n : nat) (k : list A) :
  (repeat x n ++ x :: k)%list = x :: (repeat x n ++ k)%list.
Proof. induction n as [|n IH]; simpl; [reflexivity|now rewrite IH]. Qed.

Lemma onStdoutAll_effect parse chunks t st :
  let '(calls, t', st') := Feed.onStdoutAll parse chunks t st in
  SteamCmd.stdoutData t' = SteamCmd.stdoutData t ++ fold_right String.append "" (map snd chunks) /\
  SteamCmd.downloadId t' = SteamCmd.downloadId t /\
  SteamCmd.activeDownloads st' = SteamCmd.activeDownloads st /\
  SteamCmd.stdinWrites st' = SteamCmd.stdinWrites st /\
  SteamCmd.killed st'
  = (repeat (SteamCmd.pid t) (length (Feed.prompts chunks)) ++ SteamCmd.killed st)%list /\
  length (List.filter Feed.isTerminal (map snd calls)) = length (Feed.prompts chunks).
Proof.
  revert t st. induction chunks as [|[now output] rest IH]; intros t st; simpl.
  - repeat split. now rewrite string_app_nil_r.
  - pose proof (onStdout_effect parse now output t st) as He.
    destruct (SteamCmd.onStdout parse now output t st) as [[calls t1] st1].
    specialize (IH t1 st1).
    destruct (Feed.onStdoutAll parse rest t1 st1) as [[calls' t2] st2]. simpl in *.
    destruct He as (H1 & H2 & H3 & H4 & H5 & H6 & H7 & _).
    destruct IH as (I1 & I2 & I3 & I4 & I5 & I6).
    unfold Feed.prompts in *. simpl.
    rewrite I1, H1, I2, H2, I3, H4, I4, H5, I5, H6, H3.
    rewrite map_app, List.filter_app, length_app, I6, map_map. simpl. rewrite map_id, H7.
    repeat split; [apply string_app_assoc| |];
      destruct (SteamCmd.includes output _); simpl; try reflexivity.
    apply repeat_app_cons.
Qed.

(** X14. Whatever the progress parser finds, a run of stdout chunks
    leaves the registry and the stdin of the process alone, collects the
    chunks in [stdoutData] in the order they came, and sends the process
    one [kill()] for every chunk that shows the Steam Guard prompt. *)
Theorem X14_stdout_run_collects_output_and_kills_on_prompts :
  forall (parse : string -> option SteamCmd.DownloadProgress)
         (chunks : list (Z * string)) (t : SteamCmd.Transfer) (st : SteamCmd.State),
    let t' := snd (fst (Feed.onStdoutAll parse chunks t st)) in
    let st' := snd (Feed.onStdoutAll parse chunks t st) in
    SteamCmd.stdoutData t'
    = SteamCmd.stdoutData t ++ fold_right String.append "" (map snd chunks) /\
    SteamCmd.activeDownloads st' = SteamCmd.activeDownloads st /\
    SteamCmd.stdinWrites st' = SteamCmd.stdinWrites st /\
    SteamCmd.killed st'
    = (repeat (SteamCmd.pid t) (length (Feed.prompts chunks)) ++ SteamCmd.killed st)%list.
Proof.
  intros parse chunks t st.
  pose proof (onStdoutAll_effect parse chunks t st) as H.
  destruct (Feed.onStdoutAll parse chunks t st) as [[calls t1] st1]. simpl.
  tauto.
Qed.

(** X15. The handlers of a transfer end it for the caller once per
    event that can: over any sequence of events of the child process,
    the number of [onComplete] and [onError] calls is the number of
    [close] events, [error] events and stdout chunks with the Steam
    Guard prompt together. Nothing keeps a second call back: a process
    that fails to spawn and then closes, or one that prompts and is
    killed, is reported as ended twice. *)
Theorem X15_terminal_callbacks_count :
  forall (parse : string -> option SteamCmd.DownloadProgress)
         (events : list Feed.Event) (t : SteamCmd.Transfer) (st : SteamCmd.State),
    length (List.filter Feed.isTerminal (fst (fst (Feed.handle parse events t st))))
    = length (List.filter Feed.endsTransfer events).
Proof.
  intros parse events. induction events as [|e rest IH]; intros t st; [reflexivity|].
  cbn [Feed.handle List.filter].
  assert (Hone :
    forall calls t1 st1,
      Feed.react parse e t st = (calls, t1, st1) ->
      length (List.filter Feed.isTerminal calls)
      = (if Feed.endsTransfer e then 1 else 0)%nat).
  { intros calls t1 st1 He. destruct e as [now output|message|ok code]; simpl in *.
    - pose proof (onStdout_effect parse now output t st) as H. rewrite He in H.
      destruct H as (_ & _ & _ & _ & _ & _ & H & _). exact H.
    - injection He as <- _ _. reflexivity.
    - unfold SteamCmd.onClose in He.
      destruct ok; [injection He as <- _ _; reflexivity|].
      repeat (destruct (SteamCmd.includes _ _); [injection He as <- _ _; reflexivity|]).
      injection He as <- _ _. reflexivity. }
  destruct (Feed.react parse e t st) as [[calls t1] st1] eqn:He.
  specialize (Hone calls t1 st1 eq_refl). specialize (IH t1 st1).
  destruct (Feed.handle parse rest t1 st1) as [[calls' t2] st2]. simpl in IH. simpl fst.
  rewrite List.filter_app, length_app, Hone, IH.
  destruct (Feed.endsTransfer e); simpl; lia.
Qed.

(** X16. Between the kill and the close the registry still holds the
    transfer: after a chunk with the Steam Guard prompt on a registered
    transfer, the process has been killed and [submitSteamGuard] still
    answers [true], writing the code and a newline to the stdin of that
    process. *)
Theorem X16_submit_after_the_prompt_writes_to_the_killed_process :
  forall (parse : string -> option SteamCmd.DownloadProgress) (now : Z)
         (output code : string) (t : SteamCmd.Transfer) (st : SteamCmd.State)
         (h : SteamCmd.Handle),
    SteamCmd.activeDownloads st !! SteamCmd.downloadId t = Some h ->
    SteamCmd.process h = SteamCmd.pid t ->
    SteamCmd.includes output "Steam Guard code:" = true ->
    let st' := snd (SteamCmd.onStdout parse now output t st) in
    In (SteamCmd.pid t) (SteamCmd.killed st') /\
    fst (SteamCmd.submitSteamGuard (SteamCmd.downloadId t) code st') = true /\
    SteamCmd.stdinWrites (snd (SteamCmd.submitSteamGuard (SteamCmd.downloadId t) code st'))
    = (SteamCmd.pid t, code ++ String (Ascii.ascii_of_nat 10) EmptyString)
        :: SteamCmd.stdinWrites st.
Proof.
  intros parse now output code t st h Hreg Hpid Hprompt st'. subst st'.
  destruct (onStdout_steam_guard parse now output t st Hprompt) as (calls & t' & ->).
  simpl. unfold SteamCmd.submitSteamGuard. simpl. rewrite Hreg. simpl.
  rewrite Hpid. repeat split. now left.
Qed.

(** [X16_submit_after_the_prompt_writes_to_the_killed_process] on the
    sample transfer. *)
Lemma X16_witness :
  SteamCmd.activeDownloads Sample.registered !! SteamCmd.downloadId Sample.transfer
  = Some (SteamCmd.mkHandle 4242 "730") /\
  fst (SteamCmd.submitSteamGuard 1 "12345"
         (snd (SteamCmd.onStdout (fun _ => None) 5000 "Steam Guard code: "
                 Sample.transfer Sample.registered))) = true.
Proof.
  split; [reflexivity|].
  exact (proj1 (proj2 (X16_submit_after_the_prompt_writes_to_the_killed_process
                         (fun _ => None) 5000 "Steam Guard code: " "12345"
                         Sample.transfer Sample.registered
                         (SteamCmd.mkHandle 4242 "730") eq_refl eq_refl eq_refl))).
Defined.

(** ** The size of a directory *)




(** ** Starting, failing and finishing a compression *)

(** X18. [compressGame] starts streaming exactly when the app has no
    job in progress (a finished or failed job does not block), the app
    is in the library, its install path exists, the output can be
    prepared and the size walk succeeds; in every other case it answers
    null. *)
Theorem X18_compress_starts_exactly_when_it_can :
  forall (now : Date) (env : Compressor.Env) (a : string)
         (fmt : Compressor.CompressionFormat) (st : Compressor.State),
    (exists r, fst (Compressor.compressGame now env a fmt st) = Compressor.Streaming r) <->
    (forall j, Compressor.activeCompressionJobs st !! a = Some j ->
               Compressor.Job.status j = Compressor.completed \/
               Compressor.Job.status j = Compressor.failed) /\
    (exists game,
        Compressor.libraryGamesList st !! a = Some game /\
        Compressor.existsSync env (Compressor.LibraryGame.installPath game) = true) /\
    (exists path, Compressor.prepareOutput env = inr path) /\
    (exists total, Compressor.calculateDirectorySize env = inr total).
Proof.
  intros now env a fmt st. unfold Compressor.compressGame. split.
  - intros [r H].
    assert (Hjob : forall j, Compressor.inProgress j = false ->
              Compressor.Job.status j = Compressor.completed \/
              Compressor.Job.status j = Compressor.failed).
    { intros j. unfold Compressor.inProgress.
      destruct (Compressor.Job.status j); simpl; auto; discriminate. }
    destruct (Compressor.activeCompressionJobs st !! a) as [j0|] eqn:Hj.
    + destruct (Compressor.inProgress j0) eqn:Hin; [discriminate|].
      destruct (Compressor.libraryGamesList st !! a) as [game|]; [|discriminate].
      destruct (Compressor.existsSync env _) eqn:He; [|discriminate]. simpl in H.
      destruct (Compressor.prepareOutput env); [discriminate|].
      destruct (Compressor.calculateDirectorySize env); [discriminate|].
      repeat split; eauto. intros j [= <-]. now apply Hjob.
    + destruct (Compressor.libraryGamesList st !! a) as [game|]; [|discriminate].
      destruct (Compressor.existsSync env _) eqn:He; [|discriminate]. simpl in H.
      destruct (Compressor.prepareOutput env); [discriminate|].
      destruct (Compressor.calculateDirectorySize env); [discriminate|].
      repeat split; eauto. discriminate.
  - intros (Hjob & (game & Hg & He) & (path & Hp) & (total & Ht)).
    assert (Hfree : match Compressor.activeCompressionJobs st !! a with
                    | Some existingJob => Compressor.inProgress existingJob
                    | None => false
                    end = false).
    { destruct (Compressor.activeCompressionJobs st !! a) as [j|]; [|reflexivity].
      unfold Compressor.inProgress. destruct (Hjob j eq_refl) as [-> | ->]; reflexivity. }
    rewrite Hfree, Hg, He, Hp, Ht. simpl. eauto.
Qed.



Section EntryFacts.
Variable percentOf : Z -> Z -> Z.

(** What the entry events leave alone, and what they count. *)
Lemma onEntries_frame sizes r st :
  let r' := fst (Compressor.onEntries percentOf sizes r st) in
  let st' := snd (Compressor.onEntries percentOf sizes r st) in
  let j := Compressor.compressionJob r in
  let j' := Compressor.compressionJob r' in
  Compressor.Job.appId j' = Compressor.Job.appId j /\
  Compressor.Job.title j' = Compressor.Job.title j /\
  Compressor.Job.status j' = Compressor.Job.status j /\
  Compressor.Job.format j' = Compressor.Job.format j /\
  Compressor.Job.outputPath j' = Compressor.Job.outputPath j /\
  Compressor.Job.totalBytes j' = Compressor.Job.totalBytes j /\
  Compressor.libraryGamesList st' = Compressor.libraryGamesList st /\
  Compressor.processedBytes r'
  = Compressor.processedBytes r + FsTree.sumZ (map (default 0) sizes) /\
  ((Compressor.Job.totalBytes j = None \/ Compressor.Job.totalBytes j = Some 0) ->
   j' = j /\ st' = st).
Proof.
  revert r st. induction sizes as [|size rest IH]; intros r st; simpl.
  - repeat split; unfold FsTree.sumZ; simpl; lia.
  - destruct (Compressor.onEntry percentOf size r st) as [r1 st1] eqn:E.
    specialize (IH r1 st1). simpl in IH.
    destruct IH as (I1 & I2 & I3 & I4 & I5 & I6 & I7 & I8 & I9).
    assert (H1 : Compressor.Job.appId (Compressor.compressionJob r1)
                 = Compressor.Job.appId (Compressor.compressionJob r) /\
                 Compressor.Job.title (Compressor.compressionJob r1)
                 = Compressor.Job.title (Compressor.compressionJob r) /\
                 Compressor.Job.status (Compressor.compressionJob r1)
                 = Compressor.Job.status (Compressor.compressionJob r) /\
                 Compressor.Job.format (Compressor.compressionJob r1)
                 = Compressor.Job.format (Compressor.compressionJob r) /\
                 Compressor.Job.outputPath (Compressor.compressionJob r1)
                 = Compressor.Job.outputPath (Compressor.compressionJob r) /\
                 Compressor.Job.totalBytes (Compressor.compressionJob r1)
                 = Compressor.Job.totalBytes (Compressor.compressionJob r) /\
                 Compressor.libraryGamesList st1 = Compressor.libraryGamesList st /\
                 Compressor.processedBytes r1 = Compressor.processedBytes r + default 0 size /\
                 ((Compressor.Job.totalBytes (Compressor.compressionJob r) = None \/
                   Compressor.Job.totalBytes (Compressor.compressionJob r) = Some 0) ->
                  Compressor.compressionJob r1 = Compressor.compressionJob r /\ st1 = st)).
    { unfold Compressor.onEntry in E. destruct size as [sz|]; simpl.
      - destruct (Z.eqb sz 0) eqn:Ez.
        + injection E as <- <-. apply Z.eqb_eq in Ez. subst. repeat split; lia.
        + destruct (Compressor.Job.totalBytes (Compressor.compressionJob r)) as [total|] eqn:Et.
          * destruct (Z.eqb total 0) eqn:Et0; injection E as <- <-; simpl;
              repeat split; try assumption; try reflexivity;
              match goal with
              | Hn : _ \/ _ |- _ =>
                  destruct Hn as [Hn|Hn]; [discriminate|]; injection Hn as ->; discriminate
              end.
          * injection E as <- <-. simpl. repeat split; try assumption; reflexivity.
      - injection E as <- <-. repeat split; lia. }
    destruct H1 as (H1 & H2 & H3 & H4 & H5 & H6 & H7 & H8 & H9).
    unfold FsTree.sumZ in *. simpl.
    repeat split; try congruence; try lia;
      match goal with
      | Ht : _ \/ _ |- _ =>
          destruct (H9 Ht) as [Hj Hs];
          assert (Ht' : Compressor.Job.totalBytes (Compressor.compressionJob r1) = None \/
                        Compressor.Job.totalBytes (Compressor.compressionJob r1) = Some 0)
            by (now rewrite Hj);
          destruct (I9 Ht') as [Hj' Hs']; congruence
      end.
Qed.
End EntryFacts.

(** X20. A compression that runs to its end: once [compressGame] has
    started streaming, after any entry events and a close whose output
    file can be read, the registry holds the job as ['completed'] at
    progress 100 with the end time, and the library row of the app is
    marked compressed with the formatted size, the output path the job
    was given, the format and the date, its other columns and the other
    rows being as before. *)
Theorem X20_finished_compression_marks_the_library :
  forall (percentOf : Z -> Z -> Z) (formatBytes : Z -> string) (now now' : Date)
         (env : Compressor.Env) (a : string) (fmt : Compressor.CompressionFormat)
         (st st1 : Compressor.State) (r : Compressor.Running)
         (sizes : list (option Z)) (n : Z),
    Compressor.compressGame now env a fmt st = (Compressor.Streaming r, st1) ->
    let r2 := fst (Compressor.onEntries percentOf sizes r st1) in
    let st2 := snd (Compressor.onEntries percentOf sizes r st1) in
    let st3 := snd (Compressor.onClose formatBytes now' (inr n) r2 st2) in
    exists game path job,
      Compressor.libraryGamesList st !! a = Some game /\
      Compressor.prepareOutput env = inr path /\
      Compressor.activeCompressionJobs st3 !! a = Some job /\
      Compressor.Job.status job = Compressor.completed /\
      Compressor.Job.progress job = 100 /\
      Compressor.Job.endTime job = Some now' /\
      Compressor.Job.outputPath job = Some path /\
      Compressor.libraryGamesList st3
      = <[a := Compressor.LibraryGame.mk
                 (Compressor.LibraryGame.appId game) (Compressor.LibraryGame.title game)
                 (Compressor.LibraryGame.installPath game) true (Some (formatBytes n))
                 (Some path) (Some fmt) (Some now')]> (Compressor.libraryGamesList st).
Proof.
  intros percentOf formatBytes now now' env a fmt st st1 r sizes n Hstart r2 st2 st3.
  unfold Compressor.compressGame in Hstart.
  destruct (match Compressor.activeCompressionJobs st !! a with
            | Some existingJob => Compressor.inProgress existingJob
            | None => false end); [discriminate|].
  destruct (Compressor.libraryGamesList st !! a) as [game|] eqn:Hg; [|discriminate].
  destruct (negb _); [discriminate|].
  destruct (Compressor.prepareOutput env) as [|path] eqn:Hp; [discriminate|].
  destruct (Compressor.calculateDirectorySize env) as [|total]; [discriminate|].
  injection Hstart as <- <-.
  pose proof (onEntries_frame percentOf sizes
                (Compressor.mkRunning
                   (Compressor.Job.mk a (Compressor.LibraryGame.title game)
                      Compressor.compressing 0 fmt now None None (Some path) (Some total) None) 0)
                (Compressor.setJob a
                   (Compressor.Job.mk a (Compressor.LibraryGame.title game)
                      Compressor.compressing 0 fmt now None None (Some path) (Some total) None)
                   st)) as Hf.
  fold r2 st2 in Hf. simpl in Hf.
  destruct Hf as (Ha & _ & _ & Hfmt & Hpath & _ & Hlib & _).
  exists game, path, (Compressor.markCompleted now' (Compressor.compressionJob r2)).
  split; [reflexivity|]. split; [reflexivity|].
  subst st3. unfold Compressor.onClose, Compressor.updateGameCompressionInfo. simpl.
  rewrite Ha, Hlib, Hg, Hfmt, Hpath. simpl.
  rewrite lookup_insert_eq. repeat split.
Qed.

(** [X20_finished_compression_marks_the_library] on the sample library. *)
Lemma X20_witness :
  Compressor.compressGame 5 Sample.env "730" Compressor.zip Sample.compressorState
  = (Compressor.Streaming Sample.running, Sample.compressing) /\
  exists game path job,
    Compressor.libraryGamesList Sample.compressorState !! "730" = Some game /\
    Compressor.prepareOutput Sample.env = inr path /\
    Compressor.activeCompressionJobs
      (snd (Compressor.onClose Sample.formatBytes 9 (inr 300)
              (fst (Compressor.onEntries Sample.percentOf [Some 400; Some 700]
                      Sample.running Sample.compressing))
              (snd (Compressor.onEntries Sample.percentOf [Some 400; Some 700]
                      Sample.running Sample.compressing)))) !! "730" = Some job /\
    Compressor.Job.status job = Compressor.completed.
Proof.
  split; [reflexivity|].
  destruct (X20_finished_compression_marks_the_library Sample.percentOf Sample.formatBytes
              5 9 Sample.env "730" Compressor.zip Sample.compressorState Sample.compressing
              Sample.running [Some 400; Some 700] 300 eq_refl)
    as (game & path & job & H1 & H2 & H3 & H4 & _).
  exists game, path, job. repeat split; assumption.
Defined.


(** ** Users and games *)




(** X23. [upsertGame] is idempotent and keyed by the app: the row it
    answers is the one a lookup of the app then finds, a second upsert
    of the same data answers the same row and leaves the store as it
    is, rows of other apps are untouched, and the id is the stored row's
    id when the app was known and the next free id otherwise. The
    optional fields of the row are those of the data alone, so a field
    the data leaves out (or gives as the empty string) is null
    afterwards, whatever the stored row had. *)
Theorem X23_upsertGame_is_idempotent :
  forall (game : Games.InsertGame) (s : Games.State),
    let g1 := fst (Games.upsertGame game s) in
    let s1 := snd (Games.upsertGame game s) in
    Games.getGameByAppId (Games.ins_appId game) s1 = Some g1 /\
    Games.upsertGame game s1 = (g1, s1) /\
    (forall a, a <> Games.ins_appId game ->
               Games.getGameByAppId a s1 = Games.getGameByAppId a s) /\
    Games.id g1 = match Games.getGameByAppId (Games.ins_appId game) s with
                  | Some stored => Games.id stored
                  | None => Games.gameCurrentId s
                  end /\
    g1 = Games.rowOf (Games.id g1) game /\
    (Games.ins_developer game = None -> Games.developer g1 = None).
Proof.
  intros game s g1 s1. subst g1 s1. unfold Games.upsertGame, Games.getGameByAppId.
  destruct (Games.games s !! Games.ins_appId game) as [stored|] eqn:Hg; simpl;
    rewrite lookup_insert_eq; simpl; rewrite insert_insert_eq;
    repeat split; try (intros a Ha; now rewrite lookup_insert_ne);
    intros ->; reflexivity.
Qed.

(** ** [formatDuration] *)

(** X24. For a whole number of seconds from a minute up to
    [Number.MAX_SAFE_INTEGER] (where the floored quotients of the code
    are the integer quotients), [formatDuration] shows the two largest units and cuts the rest off,
    never rounding up: below an hour it shows minutes and seconds that
    add up to the input exactly; below a day, hours and minutes that
    fall short of the input by less than a minute; from a day on, days
    and hours that fall short by less than an hour. The smaller unit
    shown is always within its range. *)
Theorem X24_formatDuration_truncates :
  forall (seconds : Z),
    60 <= seconds <= maxSafeInteger ->
    (seconds < 3600 ->
     exists m r,
       Utils.formatDuration seconds = pretty m ++ "m " ++ pretty r ++ "s" /\
       seconds = 60 * m + r /\ 1 <= m < 60 /\ 0 <= r < 60) /\
    (3600 <= seconds < 86400 ->
     exists h m,
       Utils.formatDuration seconds = pretty h ++ "h " ++ pretty m ++ "m" /\
       3600 * h + 60 * m <= seconds < 3600 * h + 60 * m + 60 /\
       1 <= h < 24 /\ 0 <= m < 60) /\
    (86400 <= seconds ->
     exists d h,
       Utils.formatDuration seconds = pretty d ++ "d " ++ pretty h ++ "h" /\
       86400 * d + 3600 * h <= seconds < 86400 * d + 3600 * h + 3600 /\
       1 <= d /\ 0 <= h < 24).
Proof.
  intros seconds [Hmin _]. unfold Utils.formatDuration.
  assert (E1 : Z.ltb seconds 60 = false) by (apply Z.ltb_ge; lia). rewrite E1.
  split; [|split].
  - intros Hlt.
    assert (E2 : Z.ltb (seconds / 60) 60 = true)
      by (apply Z.ltb_lt; Z.div_mod_to_equations; lia).
    rewrite E2. exists (seconds / 60), (seconds mod 60).
    split; [reflexivity|]. Z.div_mod_to_equations. lia.
  - intros Hr.
    assert (E2 : Z.ltb (seconds / 60) 60 = false)
      by (apply Z.ltb_ge; Z.div_mod_to_equations; lia).
    assert (E3 : Z.ltb (seconds / 60 / 60) 24 = true)
      by (apply Z.ltb_lt; Z.div_mod_to_equations; lia).
    rewrite E2, E3. exists (seconds / 60 / 60), ((seconds / 60) mod 60).
    split; [reflexivity|]. Z.div_mod_to_equations. lia.
  - intros Hd.
    assert (E2 : Z.ltb (seconds / 60) 60 = false)
      by (apply Z.ltb_ge; Z.div_mod_to_equations; lia).
    assert (E3 : Z.ltb (seconds / 60 / 60) 24 = false)
      by (apply Z.ltb_ge; Z.div_mod_to_equations; lia).
    rewrite E2, E3. exists (seconds / 60 / 60 / 24), ((seconds / 60 / 60) mod 24).
    split; [reflexivity|]. Z.div_mod_to_equations. lia.
Qed.

(** [X24_formatDuration_truncates] at 3725 seconds, shown as one hour
    and two minutes. *)
Lemma X24_witness :
  60 <= 3725 <= maxSafeInteger /\
  Utils.formatDuration 3725 = "1h 2m" /\
  exists h m,
    Utils.formatDuration 3725 = pretty h ++ "h " ++ pretty m ++ "m" /\
    3600 * h + 60 * m <= 3725 < 3600 * h + 60 * m + 60.
Proof.
  assert (H : 60 <= 3725 <= maxSafeInteger) by (unfold maxSafeInteger; lia).
  assert (Hr : 3600 <= 3725 < 86400) by lia.
  split; [exact H|]. split; [vm_compute; reflexivity|].
  destruct (proj1 (proj2 (X24_formatDuration_truncates 3725 H)) Hr) as (h & m & H1 & H2 & _).
  exists h, m. split; assumption.
Defined.

(** ** The downloads of the client *)

Section ClientFacts.
Context {Num : Type} (zero : Num).

Local Notation "'isDownloading'" := (Client.hasStatus (Num:=Num) Client.downloading).
Local Notation "'isQueued'" := (Client.hasStatus (Num:=Num) Client.queued).
Local Notation "'ids'" := (map (Client.id (Num:=Num))).

Lemma client_ids_imap (flag : Client.Download -> bool)
    (g : nat -> Client.Download -> Client.Download) (l : list (Client.Download (Num:=Num))) :
  (forall k d, Client.id (g k d) = Client.id d) ->
  ids (imap (fun k d => if flag d then g k d else d) l) = ids l.
Proof.
  revert g. induction l as [|x r IH]; intros g Hg; [reflexivity|].
  simpl. f_equal.
  - destruct (flag x); [apply Hg | reflexivity].
  - apply (IH (fun k => g (S k))). intros k d. apply Hg.
Qed.

Lemma client_count_imap (flag : Client.Download -> bool)
    (g : nat -> Client.Download -> Client.Download) (l : list (Client.Download (Num:=Num))) :
  (forall k d, Client.status (g k d) = Client.downloading) ->
  length (List.filter isDownloading (imap (fun k d => if flag d then g k d else d) l))
  = (length (List.filter isDownloading l)
     + length (List.filter (fun d => flag d && negb (isDownloading d)) l))%nat.
Proof.
  revert g. induction l as [|x r IH]; intros g Hg; [reflexivity|].
  simpl. specialize (IH (fun k => g (S k)) (fun k d => Hg (S k) d)).
  unfold compose. destruct (flag x) eqn:Ef; simpl.
  - unfold Client.hasStatus at 1. rewrite Hg. rewrite bool_decide_eq_true_2 by reflexivity.
    simpl. destruct (isDownloading x); simpl; rewrite IH; lia.
  - destruct (isDownloading x); simpl; rewrite IH; lia.
Qed.





Lemma client_find_In (i : string) (l : list (Client.Download (Num:=Num))) d :
  Client.getDownload i l = Some d -> In d l /\ Client.id d = i.
Proof.
  unfold Client.getDownload. intros H. apply find_some in H as [Hin E].
  split; [exact Hin | now apply String.eqb_eq].
Qed.

Lemma client_ids_inj (l : list (Client.Download (Num:=Num))) d q :
  NoDup (ids l) -> In d l -> In q l -> Client.id d = Client.id q -> d = q.
Proof.
  induction l as [|x r IH]; simpl; [tauto|].
  intros Hnd Hd Hq E. apply NoDup_cons in Hnd as [Hx Hnd].
  destruct Hd as [<-|Hd], Hq as [<-|Hq].
  - reflexivity.
  - exfalso. apply Hx. apply list_elem_of_In. rewrite E. now apply in_map.
  - exfalso. apply Hx. apply list_elem_of_In. rewrite <- E. now apply in_map.
  - now apply IH.
Qed.

(** The rows whose id is among those of a part [S] of the table
    without repeated ids are as many as [S] has rows. *)
Lemma client_flagged_count (S : list (Client.Download (Num:=Num))) (l : list Client.Download) :
  NoDup (ids l) -> NoDup (ids S) -> (forall q, In q S -> In q l) ->
  length (List.filter (fun d => existsb (fun q => String.eqb (Client.id q) (Client.id d)) S) l)
  = length S.
Proof.
  intros Hl HS Hsub.
  set (flag := fun d : Client.Download (Num:=Num) =>
                 existsb (fun q => String.eqb (Client.id q) (Client.id d)) S).
  rewrite <- (length_map Client.id (List.filter flag l)).
  rewrite <- (length_map Client.id S).
  apply Permutation_length. apply NoDup_Permutation.
  - now apply NoDup_map_filter.
  - exact HS.
  - intros i. rewrite !list_elem_of_In, !in_map_iff. split.
    + intros (d & <- & Hd). apply filter_In in Hd as [Hd Hf].
      unfold flag in Hf. apply existsb_exists in Hf as (q & Hq & E).
      apply String.eqb_eq in E. exists q. split; [exact E | exact Hq].
    + intros (q & <- & Hq). exists q. split; [reflexivity|].
      apply filter_In. split; [now apply Hsub|].
      unfold flag. apply existsb_exists. exists q. split; [exact Hq | apply String.eqb_refl].
Qed.

Lemma client_flagged_queued (S : list (Client.Download (Num:=Num))) (l : list Client.Download) :
  NoDup (ids l) -> (forall q, In q S -> In q l /\ Client.status q = Client.queued) ->
  List.filter (fun d => existsb (fun q => String.eqb (Client.id q) (Client.id d)) S
                        && negb (isDownloading d)) l
  = List.filter (fun d => existsb (fun q => String.eqb (Client.id q) (Client.id d)) S) l.
Proof.
  intros Hl HS. apply filter_ext_in. intros d Hd.
  destruct (existsb _ S) eqn:E; [|reflexivity]. simpl.
  apply existsb_exists in E as (q & Hq & E). apply String.eqb_eq in E.
  destruct (HS q Hq) as [Hql Hqs].
  assert (d = q) by (apply (client_ids_inj l); auto). subst d.
  unfold Client.hasStatus. rewrite Hqs. reflexivity.
Qed.

Lemma client_toStart (e : Z) (l : list (Client.Download (Num:=Num))) :
  NoDup (ids l) ->
  let S := Routes.slice0 e (List.filter isQueued l) in
  NoDup (ids S) /\ (forall q, In q S -> In q l /\ Client.status q = Client.queued).
Proof.
  intros Hnd S. split.
  - unfold S, Routes.slice0. destruct (Z.ltb e 0); apply NoDup_map_firstn;
      now apply NoDup_map_filter.
  - intros q Hq. apply In_slice0 in Hq. apply filter_In in Hq as [Hq Hs].
    split; [exact Hq|]. unfold Client.hasStatus in Hs. now apply bool_decide_eq_true in Hs.
Qed.

Lemma client_autoStart_count (m : Z) (random : nat -> Num)
    (l : list (Client.Download (Num:=Num))) :
  NoDup (ids l) ->
  Z.of_nat (Client.activeCount (Client.autoStart m random l))
  = Z.max (Z.of_nat (Client.activeCount l))
          (Z.min m (Z.of_nat (Client.activeCount l)
                    + Z.of_nat (length (List.filter isQueued l)))).
Proof.
  intros Hnd. unfold Client.autoStart.
  set (a := Z.of_nat (Client.activeCount l)).
  destruct (Z.ltb a m) eqn:Ea; [apply Z.ltb_lt in Ea | apply Z.ltb_ge in Ea; fold a; lia].
  set (S := Routes.slice0 (m - a) (List.filter isQueued l)).
  destruct (client_toStart (m - a) l Hnd) as [HS1 HS2]. fold S in HS1, HS2.
  assert (HlenS : Z.of_nat (length S)
                  = Z.min (m - a) (Z.of_nat (length (List.filter isQueued l)))).
  { unfold S, Routes.slice0.
    assert (E : Z.ltb (m - a) 0 = false) by (apply Z.ltb_ge; lia). rewrite E.
    rewrite length_firstn. lia. }
  destruct (Nat.ltb 0 (length S)) eqn:El.
  - unfold Client.activeCount at 1.
    rewrite (client_count_imap
               (fun d => existsb (fun q => String.eqb (Client.id q) (Client.id d)) S)
               (fun k => Client.started Client.downloading (random k)))
      by reflexivity.
    rewrite (client_flagged_queued S l Hnd HS2).
    rewrite (client_flagged_count S l Hnd HS1 (fun q Hq => proj1 (HS2 q Hq))).
    fold (Client.activeCount l). rewrite Nat2Z.inj_add. fold a. lia.
  - apply Nat.ltb_ge in El. fold a. lia.
Qed.


Lemma client_autoStart_frame (m : Z) (random : nat -> Num)
    (l : list (Client.Download (Num:=Num))) (k : nat) (d : Client.Download) :
  NoDup (ids l) ->
  l !! k = Some d ->
  Client.status d <> Client.queued ->
  Client.autoStart m random l !! k = Some d.
Proof.
  intros Hnd Hk Hs. unfold Client.autoStart.
  destruct (Z.ltb _ m); [|exact Hk].
  set (S := Routes.slice0 _ _).
  destruct (Nat.ltb 0 (length S)); [|exact Hk].
  rewrite list_lookup_imap, Hk. simpl.
  destruct (existsb _ S) eqn:E; [|reflexivity]. exfalso.
  apply existsb_exists in E as (q & Hq & E). apply String.eqb_eq in E.
  destruct (client_toStart (m - Z.of_nat (Client.activeCount l)) l Hnd) as [_ HS].
  destruct (HS q Hq) as [Hql Hqs].
  assert (Hd : In d l) by (apply list_elem_of_In; eapply list_elem_of_lookup_2; exact Hk).
  assert (d = q) by (apply (client_ids_inj l); auto). subst d. contradiction.
Qed.

(** X25. The auto-start effect of the client (settings-context.tsx):
    over a table without repeated ids it starts queued rows until the
    limit is reached or no row is queued, also while other rows are
    downloading: afterwards the rows that are downloading are
    [max a (min m (a + q))] for [a] rows downloading and [q] rows queued
    before. No id changes and every row that was not queued is kept
    as it was. *)
Theorem X25_client_autoStart_fills_the_free_slots :
  forall (m : Z) (random : nat -> Num) (l : list (Client.Download (Num:=Num))),
    NoDup (map Client.id l) ->
    Z.of_nat (Client.activeCount (Client.autoStart m random l))
    = Z.max (Z.of_nat (Client.activeCount l))
            (Z.min m (Z.of_nat (Client.activeCount l)
                      + Z.of_nat (length (List.filter
                                            (Client.hasStatus Client.queued) l)))) /\
    map Client.id (Client.autoStart m random l) = map Client.id l /\
    (forall k d, l !! k = Some d -> Client.status d <> Client.queued ->
                 Client.autoStart m random l !! k = Some d).
Proof.
  intros m random l Hnd. split; [now apply client_autoStart_count|]. split.
  - unfold Client.autoStart.
    destruct (Z.ltb _ m); [|reflexivity].
    destruct (Nat.ltb 0 _); [|reflexivity].
    now rewrite (client_ids_imap _ (fun k => Client.started Client.downloading (random k))).
  - intros k d Hk Hs. now apply client_autoStart_frame.
Qed.


End ClientFacts.

(** [X25_client_autoStart_fills_the_free_slots] on a table with one row
    downloading and three queued, with a limit of three: two more rows
    start, the first two of the queue. *)
Lemma X25_witness :
  NoDup (map Client.id ClientSample.table) /\
  Client.activeCount (Client.autoStart 3 ClientSample.random ClientSample.table) = 3%nat /\
  map Client.status (Client.autoStart 3 ClientSample.random ClientSample.table)
  = [Client.downloading; Client.downloading; Client.paused; Client.downloading;
     Client.queued] /\
  Z.of_nat (Client.activeCount (Client.autoStart 3 ClientSample.random ClientSample.table))
  = Z.max 1 (Z.min 3 (1 + 3)).
Proof.
  assert (H : NoDup (map Client.id ClientSample.table))
    by (apply (bool_decide_unpack _); vm_compute; exact I).
  split; [exact H|]. split; [vm_compute; reflexivity|]. split; [vm_compute; reflexivity|].
  exact (proj1 (X25_client_autoStart_fills_the_free_slots
                  3 ClientSample.random ClientSample.table H)).
Defined.

